(** * Window elevation generator: bar layout and validation

    A shallow embedding of [generate_window_svg] (gen_window3.py) and of the
    path builders it calls, together with the properties of the layout that
    the specification states.

    Numbers.  The program computes on Python floats.  Lengths are modelled
    here as exact rationals ([Q]); every comparison, branch and formula of the
    source is kept, rounding is not modelled.  Bar counts are Python ints
    ([Z]).  Statements about equal lengths are stated with [==] on [Q].

    The conversions [float(...)] and [int(...)] of lines 60-68 are the
    identity on these types.

    Output.  The program appends text lines to a local list [svg] and joins
    them with newlines.  The list is modelled as a list of [line] values, one
    constructor per f-string template of the source, carrying the values the
    template interpolates.  The list is the state of a small state-and-error
    monad, so that a raised error still shows what had been appended. *)

From Stdlib Require Import QArith Qround ZArith List String Bool Lia Lqa.
From Stdlib Require PrimFloat FloatOps SpecFloat.
Import ListNotations.
Open Scope Q_scope.

(** ** Python primitives on numbers *)

Module Py.

(** [a < b] on floats. *)
Definition ltb (a b : Q) : bool := negb (Qle_bool b a).

(** [a <= b] on floats. *)
Definition leb (a b : Q) : bool := Qle_bool a b.

(** [max(a, b)]: the first argument is kept unless the second is greater. *)
Definition max (a b : Q) : Q := if ltb a b then b else a.

(** [min(a, b)]: the first argument is kept unless the second is smaller. *)
Definition min (a b : Q) : Q := if ltb b a then b else a.

(** Truth value of a float: everything but zero. *)
Definition truthy (a : Q) : bool := negb (Qeq_bool a 0).

(** [range(n)] for an int [n]. *)
Definition range (n : Z) : list Z := map Z.of_nat (seq 0 (Z.to_nat n)).

(** An int used in float arithmetic. *)
Definition float (n : Z) : Q := inject_Z n.

End Py.

(** ** The input record *)

Record WindowSpec : Type := mkWindowSpec {
  width_mm : Q;
  height_mm : Q;
  frame_width_mm : Q;
  num_vertical_bars : Z;
  num_horizontal_bars : Z;
  sash_bar_width_mm : Q;
  arch_height_mm : Q;
  center_vertical_bar_width_mm : option Q;
  horizontal_distribution_mode : string;
  frame_color : string;
  glass_color : string;
  bar_color : string
}.

(** ** Paths *)

Inductive cmd : Type :=
| MoveTo (x y : Q)
| ArcTo (rx ry : Q) (rot : Z) (large sweep : bool) (x y : Q)
| LineTo (x y : Q)
| ClosePath.

Definition path : Type := list cmd.

Definition _path_arch_outer (width height arch_h : Q) : path :=
  [ MoveTo 0 arch_h;
    ArcTo (width / 2) arch_h 0 false true width arch_h;
    LineTo width height; LineTo 0 height; ClosePath ].

Definition _path_arch_inner (width height frame_w arch_h : Q) : path :=
  let wi := Py.max 0 (width - 2 * frame_w) in
  let hi := Py.max 0 (height - 2 * frame_w) in
  let arch_inner := Py.max 0 (arch_h - frame_w) in
  let x0 := frame_w in
  let y0 := frame_w in
  [ MoveTo x0 (y0 + arch_inner);
    ArcTo (wi / 2) arch_inner 0 false true (x0 + wi) (y0 + arch_inner);
    LineTo (x0 + wi) (y0 + hi); LineTo x0 (y0 + hi); ClosePath ].

Definition _compound_frame_path_rect (W H FW : Q) : path :=
  [ MoveTo 0 0; LineTo W 0; LineTo W H; LineTo 0 H; ClosePath;
    MoveTo FW FW; LineTo (W - FW) FW; LineTo (W - FW) (H - FW);
    LineTo FW (H - FW); ClosePath ].

Definition _compound_frame_path_arch (W H FW AH : Q) : path :=
  let outer := _path_arch_outer W H AH in
  let inner := _path_arch_inner W H FW AH in
  outer ++ inner.

(** ** Output lines

    One constructor per template appended to [svg]; the comment gives the
    source line of the template. *)

Inductive line : Type :=
| XmlDecl                                         (* 97 *)
| SvgOpen (W H : Q)                               (* 98 *)
| DefsOpen                                        (* 99 *)
| ClipPathOpen                                    (* 100 *)
| ClipPathD (d : option path)                     (* 103 *)
| ClipRect (x y w h : Q)                          (* 105 *)
| ClipPathClose                                   (* 107 *)
| DefsClose                                       (* 108 *)
| GlassPath (d : option path) (fill : string)     (* 113 *)
| GlassRect (x y w h : Q) (fill : string)         (* 115 *)
| FramePath (d : path) (fill : string)            (* 118 *)
| GroupOpen                                       (* 121 *)
| BarV (x w h : Q) (fill : string)                (* 130: y is the literal 0 *)
| BarH (y w h : Q) (fill : string)                (* 139, 162, 171: x is the literal 0 *)
| GroupClose                                      (* 173 *)
| SvgClose.                                       (* 174 *)

(** ** Errors *)

Inductive exn : Type :=
| ValueError (msg : string).

Definition msg_dimensions : string :=
  "Window width and height must be positive.".
Definition msg_frame_width : string :=
  "Frame width must be non-negative and less than half the window size.".
Definition msg_arch_height : string :=
  "Arch height must be between 0 and the total height.".
Definition msg_bar_count : string :=
  "Number of sash bars cannot be negative.".
Definition msg_bar_width : string :=
  "Sash bar widths must be non-negative.".
Definition msg_mode : string :=
  "horizontal_distribution_mode must be 'even' or 'from_chord'.".
Definition msg_no_space : string :=
  "No space below the chord bar to place horizontal bars.".
Definition msg_not_enough_space : string :=
  "Not enough space to place horizontal bars evenly between chord bar and bottom with the given sash_bar_width_mm. Reduce bar count/width or increase height.".

(** ** The monad of the generator: the list [svg] as state, and errors *)

Inductive outcome (A : Type) : Type :=
| Returned (a : A) (svg : list line)
| Raised (e : exn) (svg : list line).
Arguments Returned {A} a svg.
Arguments Raised {A} e svg.

Definition M (A : Type) : Type := list line -> outcome A.

Definition ret {A} (a : A) : M A := fun svg => Returned a svg.

Definition bind {A B} (m : M A) (k : A -> M B) : M B :=
  fun svg =>
    match m svg with
    | Returned a svg' => k a svg'
    | Raised e svg' => Raised e svg'
    end.

Definition raise {A} (e : exn) : M A := fun svg => Raised e svg.

(** [svg.append(l)] *)
Definition append (l : line) : M unit := fun svg => Returned tt (svg ++ [l]).

(** [svg += ls], and [svg = ls] on the empty initial state *)
Definition extend (ls : list line) : M unit := fun svg => Returned tt (svg ++ ls).

(** the value of [svg] *)
Definition get_svg : M (list line) := fun svg => Returned svg svg.

Notation "m1 ;; m2" := (bind m1 (fun _ => m2))
  (at level 61, right associativity).
Notation "x <- m1 ;; m2" := (bind m1 (fun x => m2))
  (at level 61, m1 at next level, right associativity).

(** [if c: body] *)
Definition when (c : bool) (body : M unit) : M unit :=
  if c then body else ret tt.

(** [for x in xs: body(x)] *)
Fixpoint for_each {A} (xs : list A) (body : A -> M unit) : M unit :=
  match xs with
  | [] => ret tt
  | x :: xs' => body x ;; for_each xs' body
  end.

(** ** The generator *)

Definition mode_even : string := "even".
Definition mode_from_chord : string := "from_chord".

(** The tolerance of the gap test, [1e-9]. *)
Definition eps : Q := 1 # 1000000000.

(** [CWB] of line 68: the optional field is tested for truth. *)
Definition resolve_center_width (spec : WindowSpec) : Q :=
  match center_vertical_bar_width_mm spec with
  | Some c => if Py.truthy c then c else sash_bar_width_mm spec
  | None => sash_bar_width_mm spec
  end.

(** Lines 70-81. *)
Definition validate (spec : WindowSpec) : M unit :=
  let W := width_mm spec in
  let H := height_mm spec in
  let FW := frame_width_mm spec in
  let NV := num_vertical_bars spec in
  let NH := num_horizontal_bars spec in
  let BW := sash_bar_width_mm spec in
  let AH := arch_height_mm spec in
  let mode := horizontal_distribution_mode spec in
  let CWB := resolve_center_width spec in
  when (Py.leb W 0 || Py.leb H 0) (raise (ValueError msg_dimensions)) ;;
  when (Py.ltb FW 0 || Py.leb (Py.min W H) (2 * FW))
       (raise (ValueError msg_frame_width)) ;;
  when (Py.ltb AH 0 || Py.ltb H AH) (raise (ValueError msg_arch_height)) ;;
  when ((NV <? 0)%Z || (NH <? 0)%Z) (raise (ValueError msg_bar_count)) ;;
  when (Py.ltb BW 0 || Py.ltb CWB 0) (raise (ValueError msg_bar_width)) ;;
  when (negb (String.eqb mode mode_even || String.eqb mode mode_from_chord))
       (raise (ValueError msg_mode)).

(** Lines 124-130. *)
Definition vertical_bars (spec : WindowSpec) : M unit :=
  let H := height_mm spec in
  let FW := frame_width_mm spec in
  let NV := num_vertical_bars spec in
  let BW := sash_bar_width_mm spec in
  let CWB := resolve_center_width spec in
  let inner_x := FW in
  let inner_w := width_mm spec - 2 * FW in
  when ((0 <? NV)%Z && Py.ltb 0 inner_w)
    (let x_gap := inner_w / Py.float (NV + 1) in
     for_each (Py.range NV) (fun i =>
       let cx := inner_x + Py.float (i + 1) * x_gap in
       let w := if ((NV mod 2 =? 1)%Z && (i =? NV / 2)%Z) then CWB else BW in
       let x := cx - w / 2 in
       append (BarV x w H (bar_color spec)))).

(** Lines 133-171. *)
Definition horizontal_bars (spec : WindowSpec) : M unit :=
  let W := width_mm spec in
  let H := height_mm spec in
  let FW := frame_width_mm spec in
  let NH := num_horizontal_bars spec in
  let BW := sash_bar_width_mm spec in
  let AH := arch_height_mm spec in
  let mode := horizontal_distribution_mode spec in
  let inner_y := FW in
  let inner_h := H - 2 * FW in
  when (Py.ltb 0 inner_h)
    (if String.eqb mode mode_from_chord && Py.ltb 0 AH then
       let arch_inner := Py.max 0 (AH - FW) in
       let chord_y := inner_y + arch_inner in
       append (BarH chord_y W FW (bar_color spec)) ;;
       when (0 <? NH)%Z
         (let start_y := chord_y + FW in
          let bottom_y := inner_y + inner_h in
          let T := bottom_y - start_y in
          when (Py.leb T 0) (raise (ValueError msg_no_space)) ;;
          let g := (T - Py.float NH * BW) / Py.float (NH + 1) in
          when (Py.ltb g (- eps)) (raise (ValueError msg_not_enough_space)) ;;
          let g := Py.max g 0 in
          for_each (Py.range NH) (fun k =>
            let y_top := start_y + g + Py.float k * (BW + g) in
            append (BarH y_top W BW (bar_color spec))))
     else
       when (0 <? NH)%Z
         (let y_gap := inner_h / Py.float (NH + 1) in
          for_each (Py.range NH) (fun j =>
            let cy := inner_y + Py.float (j + 1) * y_gap in
            let y := cy - BW / 2 in
            append (BarH y W BW (bar_color spec))))).

(** Lines 83-121: the header, the clip region, the glass and the frame. *)
Definition layers (spec : WindowSpec) : M unit :=
  let W := width_mm spec in
  let H := height_mm spec in
  let FW := frame_width_mm spec in
  let AH := arch_height_mm spec in
  let inner_x := FW in
  let inner_y := FW in
  let inner_w := W - 2 * FW in
  let inner_h := H - 2 * FW in
  let '(glazing_path, frame_path) :=
    if Py.ltb 0 AH
    then (Some (_path_arch_inner W H FW AH),
          _compound_frame_path_arch W H FW AH)
    else (None, _compound_frame_path_rect W H FW) in
  extend [XmlDecl; SvgOpen W H; DefsOpen; ClipPathOpen] ;;
  (if Py.ltb 0 AH then append (ClipPathD glazing_path)
   else append (ClipRect inner_x inner_y inner_w inner_h)) ;;
  extend [ClipPathClose; DefsClose] ;;
  (if Py.ltb 0 AH then append (GlassPath glazing_path (glass_color spec))
   else append (GlassRect inner_x inner_y inner_w inner_h (glass_color spec))) ;;
  append (FramePath frame_path (frame_color spec)) ;;
  append GroupOpen.

(** The body of [generate_window_svg]; the value returned is the list that
    the source joins with newlines. *)
Definition generate_window_svg_body (spec : WindowSpec) : M (list line) :=
  validate spec ;;
  layers spec ;;
  vertical_bars spec ;;
  horizontal_bars spec ;;
  append GroupClose ;;
  append SvgClose ;;
  get_svg.

Definition generate_window_svg (spec : WindowSpec) : outcome (list line) :=
  generate_window_svg_body spec [].

(** ** Names for the quantities of the layout

    Each is the expression bound to the local variable of the same name in
    [generate_window_svg]. *)

Definition inner_x (spec : WindowSpec) : Q := frame_width_mm spec.
Definition inner_y (spec : WindowSpec) : Q := frame_width_mm spec.
Definition inner_w (spec : WindowSpec) : Q :=
  width_mm spec - 2 * frame_width_mm spec.
Definition inner_h (spec : WindowSpec) : Q :=
  height_mm spec - 2 * frame_width_mm spec.
Definition x_gap (spec : WindowSpec) : Q :=
  inner_w spec / Py.float (num_vertical_bars spec + 1).
Definition y_gap (spec : WindowSpec) : Q :=
  inner_h spec / Py.float (num_horizontal_bars spec + 1).
Definition arch_inner (spec : WindowSpec) : Q :=
  Py.max 0 (arch_height_mm spec - frame_width_mm spec).
Definition chord_y (spec : WindowSpec) : Q := inner_y spec + arch_inner spec.
Definition start_y (spec : WindowSpec) : Q := chord_y spec + frame_width_mm spec.
Definition bottom_y (spec : WindowSpec) : Q := inner_y spec + inner_h spec.

(** [T], the span below the chord bar (line 145). *)
Definition span_T (spec : WindowSpec) : Q := bottom_y spec - start_y spec.

(** [g] as computed on line 152, before the clamp of line 158. *)
Definition gap_g (spec : WindowSpec) : Q :=
  (span_T spec - Py.float (num_horizontal_bars spec) * sash_bar_width_mm spec)
  / Py.float (num_horizontal_bars spec + 1).

(** [g] after line 158. *)
Definition gap_used (spec : WindowSpec) : Q := Py.max (gap_g spec) 0.

(** The branch of line 134. *)
Definition chord_branch (spec : WindowSpec) : bool :=
  String.eqb (horizontal_distribution_mode spec) mode_from_chord
  && Py.ltb 0 (arch_height_mm spec).

(** ** Rectangles read back from the output *)

Record rect : Type := mkRect { rect_x : Q; rect_y : Q; rect_w : Q; rect_h : Q }.

(** The rectangle of a vertical bar line, with its literal [y = 0]. *)
Definition vertical_rect (l : line) : list rect :=
  match l with
  | BarV x w h _ => [mkRect x 0 w h]
  | _ => []
  end.

(** The rectangle of a horizontal bar line, with its literal [x = 0]. *)
Definition horizontal_rect (l : line) : list rect :=
  match l with
  | BarH y w h _ => [mkRect 0 y w h]
  | _ => []
  end.

Definition vertical_rects (doc : list line) : list rect :=
  flat_map vertical_rect doc.
Definition horizontal_rects (doc : list line) : list rect :=
  flat_map horizontal_rect doc.

(** The lines appended so far, whether the call returned or raised. *)
Definition emitted {A} (o : outcome A) : list line :=
  match o with
  | Returned _ svg => svg
  | Raised _ svg => svg
  end.

Definition returns {A} (o : outcome A) : Prop :=
  exists a svg, o = Returned a svg.
Definition raises {A} (o : outcome A) : Prop :=
  exists e svg, o = Raised e svg.

(** The validity conditions of lines 70-81, as a proposition. *)
Definition valid (spec : WindowSpec) : Prop :=
  0 < width_mm spec /\ 0 < height_mm spec /\
  0 <= frame_width_mm spec /\
  2 * frame_width_mm spec < Py.min (width_mm spec) (height_mm spec) /\
  0 <= arch_height_mm spec /\ arch_height_mm spec <= height_mm spec /\
  (0 <= num_vertical_bars spec)%Z /\ (0 <= num_horizontal_bars spec)%Z /\
  0 <= sash_bar_width_mm spec /\ 0 <= resolve_center_width spec /\
  (horizontal_distribution_mode spec = mode_even \/
   horizontal_distribution_mode spec = mode_from_chord).

(** The condition under which lines 142-157 raise nothing. *)
Definition chord_fit (spec : WindowSpec) : Prop :=
  horizontal_distribution_mode spec = mode_from_chord ->
  0 < arch_height_mm spec ->
  (0 < num_horizontal_bars spec)%Z ->
  0 < span_T spec /\ - eps <= gap_g spec.



(** The lines appended by the three loops. *)
Definition vbar_line (spec : WindowSpec) (i : Z) : line :=
  let w := if ((num_vertical_bars spec mod 2 =? 1)%Z
               && (i =? num_vertical_bars spec / 2)%Z)
           then resolve_center_width spec else sash_bar_width_mm spec in
  BarV (inner_x spec + Py.float (i + 1) * x_gap spec - w / 2) w
       (height_mm spec) (bar_color spec).

Definition chord_line (spec : WindowSpec) : line :=
  BarH (chord_y spec) (width_mm spec) (frame_width_mm spec) (bar_color spec).

Definition lower_line (spec : WindowSpec) (k : Z) : line :=
  BarH (start_y spec + gap_used spec
        + Py.float k * (sash_bar_width_mm spec + gap_used spec))
       (width_mm spec) (sash_bar_width_mm spec) (bar_color spec).

Definition even_line (spec : WindowSpec) (j : Z) : line :=
  BarH (inner_y spec + Py.float (j + 1) * y_gap spec
        - sash_bar_width_mm spec / 2)
       (width_mm spec) (sash_bar_width_mm spec) (bar_color spec).

(** ** Auxiliary definitions used in the statements and proofs *)

(** The definitions below describe, without the monad, what the parts of
    the generator do; each is proved equal to the run of the corresponding
    part in the section on running the generator. *)

(** The first failing test of [validate], if there is one. *)
Definition first_violation (spec : WindowSpec) : option string :=
  if Py.leb (width_mm spec) 0 || Py.leb (height_mm spec) 0
  then Some msg_dimensions
  else if Py.ltb (frame_width_mm spec) 0
          || Py.leb (Py.min (width_mm spec) (height_mm spec))
                    (2 * frame_width_mm spec)
  then Some msg_frame_width
  else if Py.ltb (arch_height_mm spec) 0
          || Py.ltb (height_mm spec) (arch_height_mm spec)
  then Some msg_arch_height
  else if (num_vertical_bars spec <? 0)%Z || (num_horizontal_bars spec <? 0)%Z
  then Some msg_bar_count
  else if Py.ltb (sash_bar_width_mm spec) 0
          || Py.ltb (resolve_center_width spec) 0
  then Some msg_bar_width
  else if negb (String.eqb (horizontal_distribution_mode spec) mode_even
                || String.eqb (horizontal_distribution_mode spec) mode_from_chord)
  then Some msg_mode
  else None.

(** The lines of the header, the clip region, the glass and the frame. *)
Definition layer_lines (spec : WindowSpec) : list line :=
  if Py.ltb 0 (arch_height_mm spec) then
    let glazing := Some (_path_arch_inner (width_mm spec) (height_mm spec)
                           (frame_width_mm spec) (arch_height_mm spec)) in
    [ XmlDecl; SvgOpen (width_mm spec) (height_mm spec); DefsOpen; ClipPathOpen;
      ClipPathD glazing; ClipPathClose; DefsClose;
      GlassPath glazing (glass_color spec);
      FramePath (_compound_frame_path_arch (width_mm spec) (height_mm spec)
                   (frame_width_mm spec) (arch_height_mm spec))
                (frame_color spec);
      GroupOpen ]
  else
    [ XmlDecl; SvgOpen (width_mm spec) (height_mm spec); DefsOpen; ClipPathOpen;
      ClipRect (inner_x spec) (inner_y spec) (inner_w spec) (inner_h spec);
      ClipPathClose; DefsClose;
      GlassRect (inner_x spec) (inner_y spec) (inner_w spec) (inner_h spec)
                (glass_color spec);
      FramePath (_compound_frame_path_rect (width_mm spec) (height_mm spec)
                   (frame_width_mm spec))
                (frame_color spec);
      GroupOpen ].

Definition vertical_lines (spec : WindowSpec) : list line :=
  if (0 <? num_vertical_bars spec)%Z && Py.ltb 0 (inner_w spec)
  then map (vbar_line spec) (Py.range (num_vertical_bars spec))
  else [].

(** What [horizontal_bars] does to the list, case by case. *)
Definition horizontal_outcome (spec : WindowSpec) (svg : list line)
  : outcome unit :=
  if Py.ltb 0 (inner_h spec) then
    if chord_branch spec then
      if (0 <? num_horizontal_bars spec)%Z then
        if Py.leb (span_T spec) 0 then
          Raised (ValueError msg_no_space) (svg ++ [chord_line spec])
        else if Py.ltb (gap_g spec) (- eps) then
          Raised (ValueError msg_not_enough_space) (svg ++ [chord_line spec])
        else
          Returned tt (svg ++ chord_line spec
                           :: map (lower_line spec)
                                  (Py.range (num_horizontal_bars spec)))
      else Returned tt (svg ++ [chord_line spec])
    else
      if (0 <? num_horizontal_bars spec)%Z then
        Returned tt (svg ++ map (even_line spec)
                                (Py.range (num_horizontal_bars spec)))
      else Returned tt svg
  else Returned tt svg.

(** The horizontal lines of a call that returns. *)
Definition horizontal_lines (spec : WindowSpec) : list line :=
  if chord_branch spec then
    chord_line spec
      :: (if (0 <? num_horizontal_bars spec)%Z
          then map (lower_line spec) (Py.range (num_horizontal_bars spec))
          else [])
  else map (even_line spec) (Py.range (num_horizontal_bars spec)).

(** The test of lines 147-157, as a boolean. *)
Definition chord_failure (spec : WindowSpec) : option string :=
  if chord_branch spec && (0 <? num_horizontal_bars spec)%Z then
    if Py.leb (span_T spec) 0 then Some msg_no_space
    else if Py.ltb (gap_g spec) (- eps) then Some msg_not_enough_space
    else None
  else None.

(** The document of a call that returns. *)
Definition document (spec : WindowSpec) : list line :=
  layer_lines spec
  ++ map (vbar_line spec) (Py.range (num_vertical_bars spec))
  ++ horizontal_lines spec
  ++ [GroupClose; SvgClose].

(** The rectangle a line of each loop stands for. *)
Definition vbar_rect (spec : WindowSpec) (i : Z) : rect :=
  let w := if ((num_vertical_bars spec mod 2 =? 1)%Z
               && (i =? num_vertical_bars spec / 2)%Z)
           then resolve_center_width spec else sash_bar_width_mm spec in
  mkRect (inner_x spec + Py.float (i + 1) * x_gap spec - w / 2) 0 w
         (height_mm spec).

Definition chord_rect (spec : WindowSpec) : rect :=
  mkRect 0 (chord_y spec) (width_mm spec) (frame_width_mm spec).

Definition lower_rect (spec : WindowSpec) (k : Z) : rect :=
  mkRect 0 (start_y spec + gap_used spec
            + Py.float k * (sash_bar_width_mm spec + gap_used spec))
         (width_mm spec) (sash_bar_width_mm spec).

Definition even_rect (spec : WindowSpec) (j : Z) : rect :=
  mkRect 0 (inner_y spec + Py.float (j + 1) * y_gap spec
            - sash_bar_width_mm spec / 2)
         (width_mm spec) (sash_bar_width_mm spec).

(** The horizontal rectangles of a call that returns. *)
Definition horizontal_layout (spec : WindowSpec) : list rect :=
  if chord_branch spec then
    chord_rect spec
      :: map (lower_rect spec) (Py.range (num_horizontal_bars spec))
  else map (even_rect spec) (Py.range (num_horizontal_bars spec)).

Definition spec_rect_example : WindowSpec :=
  mkWindowSpec 800 1200 60 3 2 30 0 (Some 50) "even"
               "#c7c7c7" "#e6f2ff" "#c7c7c7".

Definition spec_arch_example : WindowSpec :=
  mkWindowSpec 1000 1400 70 3 4 35 250 (Some 60) "from_chord"
               "#c7c7c7" "#e6f2ff" "#c7c7c7".

(** A spec that supplies a centre width of zero for three vertical bars. *)
Definition spec_center_zero : WindowSpec :=
  mkWindowSpec 800 1200 60 3 2 30 0 (Some 0) "even"
               "#c7c7c7" "#e6f2ff" "#c7c7c7".

(** The lines appended before the tests of lines 147-157. *)
Definition lines_before_gap_test (spec : WindowSpec) : list line :=
  layer_lines spec
  ++ map (vbar_line spec) (Py.range (num_vertical_bars spec))
  ++ [chord_line spec].

(** A [from_chord] spec whose bar is wider than the span below the chord bar
    by [1e-9]: [T = 60], [g = -5e-10]. *)
Definition spec_gap_in_tolerance : WindowSpec :=
  mkWindowSpec 100 100 10 0 1 (60000000001 # 1000000000) 20 None "from_chord"
               "#c7c7c7" "#e6f2ff" "#c7c7c7".

(** A [from_chord] spec whose chord bar ends exactly on the bottom edge of
    the aperture, with bars of width zero: [T = 0] and [g = 0]. *)
Definition spec_zero_span : WindowSpec :=
  mkWindowSpec 100 100 10 0 1 0 80 None "from_chord"
               "#c7c7c7" "#e6f2ff" "#c7c7c7".



(** An [even] spec with one bar wider than the aperture is high. *)
Definition spec_wide_bar : WindowSpec :=
  mkWindowSpec 100 100 10 0 1 200 0 None "even"
               "#c7c7c7" "#e6f2ff" "#c7c7c7".


Definition Qsum (l : list Q) : Q := fold_right Qplus 0 l.

(** The gaps that segments, given by start and length and taken in order,
    leave in [[lo, hi]]: before the first, between neighbours, after the
    last.  A gap is negative where segments overlap or leave the interval. *)
Fixpoint gaps (lo hi : Q) (segs : list (Q * Q)) : list Q :=
  match segs with
  | [] => [hi - lo]
  | (s, len) :: rest => (s - lo) :: gaps (s + len) hi rest
  end.

Definition x_segments (rs : list rect) : list (Q * Q) :=
  map (fun r => (rect_x r, rect_w r)) rs.
Definition y_segments (rs : list rect) : list (Q * Q) :=
  map (fun r => (rect_y r, rect_h r)) rs.

(** The gaps between the vertical bars across the aperture. *)
Definition vertical_gaps (spec : WindowSpec) (doc : list line) : list Q :=
  gaps (inner_x spec) (inner_x spec + inner_w spec)
       (x_segments (vertical_rects doc)).

(** The gaps between the horizontal bars down the aperture. *)
Definition horizontal_gaps (spec : WindowSpec) (doc : list line) : list Q :=
  gaps (inner_y spec) (inner_y spec + inner_h spec)
       (y_segments (horizontal_rects doc)).

(** The gaps between the bars below the chord bar, from the bottom of the
    chord bar to the bottom of the aperture. *)
Definition lower_gaps (spec : WindowSpec) (doc : list line) : list Q :=
  gaps (start_y spec) (bottom_y spec)
       (y_segments (tl (horizontal_rects doc))).

(** The points a path passes through. *)
Definition vertices (p : path) : list (Q * Q) :=
  flat_map (fun c => match c with
                     | MoveTo x y => [(x, y)]
                     | ArcTo _ _ _ _ _ x y => [(x, y)]
                     | LineTo x y => [(x, y)]
                     | ClosePath => []
                     end) p.

(** The vertical radii of the arcs of a path. *)
Definition arc_rises (p : path) : list Q :=
  flat_map (fun c => match c with
                     | ArcTo _ ry _ _ _ _ _ => [ry]
                     | _ => []
                     end) p.

(** The corners of [<rect x y width height>], clockwise from the top left. *)
Definition rect_corners (x y w h : Q) : list (Q * Q) :=
  [(x, y); (x + w, y); (x + w, y + h); (x, y + h)].

Definition maximum (l : list Q) : Q :=
  match l with
  | [] => 0
  | x :: rest => fold_left Py.max rest x
  end.

Definition minimum (l : list Q) : Q :=
  match l with
  | [] => 0
  | x :: rest => fold_left Py.min rest x
  end.

(** Width and height of the box around the vertices of a path; for a path
    whose arcs have no rise this is the box around the region. *)
Definition extent_w (p : path) : Q :=
  maximum (map fst (vertices p)) - minimum (map fst (vertices p)).
Definition extent_h (p : path) : Q :=
  maximum (map snd (vertices p)) - minimum (map snd (vertices p)).

Definition point_eq (p q : Q * Q) : Prop :=
  fst p == fst q /\ snd p == snd q.

(** The same spec with another distribution mode. *)
Definition with_mode (spec : WindowSpec) (mode : string) : WindowSpec :=
  mkWindowSpec (width_mm spec) (height_mm spec) (frame_width_mm spec)
               (num_vertical_bars spec) (num_horizontal_bars spec)
               (sash_bar_width_mm spec) (arch_height_mm spec)
               (center_vertical_bar_width_mm spec) mode
               (frame_color spec) (glass_color spec) (bar_color spec).

(** ** Further notions used in the statements about the document *)

(** A line of the document is a bar rectangle. *)
Definition is_bar (l : line) : bool :=
  match l with
  | BarV _ _ _ _ | BarH _ _ _ _ => true
  | _ => false
  end.

Definition is_vertical_bar (l : line) : bool :=
  match l with
  | BarV _ _ _ _ => true
  | _ => false
  end.

Definition is_horizontal_bar (l : line) : bool :=
  match l with
  | BarH _ _ _ _ => true
  | _ => false
  end.

(** The clip line and the glass line show the same region. *)
Definition same_region (clip glass : line) (fill : string) : Prop :=
  (exists d, clip = ClipPathD (Some d) /\ glass = GlassPath (Some d) fill) \/
  (exists x y w h, clip = ClipRect x y w h /\ glass = GlassRect x y w h fill).

(** The number of bar lines of a document that is returned. *)
Definition bar_count (spec : WindowSpec) : nat :=
  Z.to_nat (num_vertical_bars spec) + Z.to_nat (num_horizontal_bars spec)
  + (if chord_branch spec then 1 else 0).

(** Rectangles follow each other downward without overlap: each ends where
    or before the next one starts. *)
Fixpoint stacked (rs : list rect) : Prop :=
  match rs with
  | [] => True
  | r1 :: rest =>
      match rest with
      | [] => True
      | r2 :: _ => rect_y r1 + rect_h r1 <= rect_y r2
      end /\ stacked rest
  end.

(** A rectangle lies in the horizontal interval of the aperture. *)
Definition within_aperture_x (spec : WindowSpec) (r : rect) : Prop :=
  inner_x spec <= rect_x r /\
  rect_x r + rect_w r <= inner_x spec + inner_w spec.

(** The condition under which the vertical bars stay in the aperture. *)
Definition vbars_fit (spec : WindowSpec) : Prop :=
  ((2 <= num_vertical_bars spec)%Z ->
   sash_bar_width_mm spec <= 2 * x_gap spec) /\
  ((num_vertical_bars spec mod 2 = 1)%Z ->
   resolve_center_width spec <= inner_w spec).

(** The same spec with other colours. *)
Definition with_colors (spec : WindowSpec) (frame glass bar : string)
  : WindowSpec :=
  mkWindowSpec (width_mm spec) (height_mm spec) (frame_width_mm spec)
               (num_vertical_bars spec) (num_horizontal_bars spec)
               (sash_bar_width_mm spec) (arch_height_mm spec)
               (center_vertical_bar_width_mm spec)
               (horizontal_distribution_mode spec) frame glass bar.

(** The same spec with another centre width. *)
Definition with_center (spec : WindowSpec) (c : option Q) : WindowSpec :=
  mkWindowSpec (width_mm spec) (height_mm spec) (frame_width_mm spec)
               (num_vertical_bars spec) (num_horizontal_bars spec)
               (sash_bar_width_mm spec) (arch_height_mm spec)
               c (horizontal_distribution_mode spec)
               (frame_color spec) (glass_color spec) (bar_color spec).

(** A rectangular window with two vertical bars. *)
Definition spec_two_bars : WindowSpec :=
  mkWindowSpec 800 1200 60 2 1 30 0 None "even"
               "#c7c7c7" "#e6f2ff" "#c7c7c7".

(** The same window with every length multiplied by [k]. *)
Definition scale_spec (k : Q) (spec : WindowSpec) : WindowSpec :=
  mkWindowSpec (k * width_mm spec) (k * height_mm spec)
               (k * frame_width_mm spec)
               (num_vertical_bars spec) (num_horizontal_bars spec)
               (k * sash_bar_width_mm spec) (k * arch_height_mm spec)
               (option_map (Qmult k) (center_vertical_bar_width_mm spec))
               (horizontal_distribution_mode spec)
               (frame_color spec) (glass_color spec) (bar_color spec).

(** [r'] is [r] with every coordinate multiplied by [k]. *)
Definition scaled (k : Q) (r r' : rect) : Prop :=
  rect_x r' == k * rect_x r /\ rect_y r' == k * rect_y r /\
  rect_w r' == k * rect_w r /\ rect_h r' == k * rect_h r.

(** ** The earlier generator, gen_window2.py

    The same path builders and line templates; the spec has no distribution
    mode, and the horizontal bars are always placed by centre lines. *)

Module GenWindow2.

Record WindowSpec : Type := mkWindowSpec {
  width_mm : Q;
  height_mm : Q;
  frame_width_mm : Q;
  num_vertical_bars : Z;
  num_horizontal_bars : Z;
  sash_bar_width_mm : Q;
  arch_height_mm : Q;
  center_vertical_bar_width_mm : option Q;
  frame_color : string;
  glass_color : string;
  bar_color : string
}.

(** [CWB] of line 67. *)
Definition resolve_center_width (spec : WindowSpec) : Q :=
  match center_vertical_bar_width_mm spec with
  | Some c => if Py.truthy c then c else sash_bar_width_mm spec
  | None => sash_bar_width_mm spec
  end.

(** Lines 69-78. *)
Definition validate (spec : WindowSpec) : M unit :=
  let W := width_mm spec in
  let H := height_mm spec in
  let FW := frame_width_mm spec in
  let NV := num_vertical_bars spec in
  let NH := num_horizontal_bars spec in
  let BW := sash_bar_width_mm spec in
  let AH := arch_height_mm spec in
  let CWB := resolve_center_width spec in
  when (Py.leb W 0 || Py.leb H 0) (raise (ValueError msg_dimensions)) ;;
  when (Py.ltb FW 0 || Py.leb (Py.min W H) (2 * FW))
       (raise (ValueError msg_frame_width)) ;;
  when (Py.ltb AH 0 || Py.ltb H AH) (raise (ValueError msg_arch_height)) ;;
  when ((NV <? 0)%Z || (NH <? 0)%Z) (raise (ValueError msg_bar_count)) ;;
  when (Py.ltb BW 0 || Py.ltb CWB 0) (raise (ValueError msg_bar_width)).

(** Lines 80-118. *)
Definition layers (spec : WindowSpec) : M unit :=
  let W := width_mm spec in
  let H := height_mm spec in
  let FW := frame_width_mm spec in
  let AH := arch_height_mm spec in
  let inner_x := FW in
  let inner_y := FW in
  let inner_w := W - 2 * FW in
  let inner_h := H - 2 * FW in
  let '(glazing_path, frame_path) :=
    if Py.ltb 0 AH
    then (Some (_path_arch_inner W H FW AH),
          _compound_frame_path_arch W H FW AH)
    else (None, _compound_frame_path_rect W H FW) in
  extend [XmlDecl; SvgOpen W H; DefsOpen; ClipPathOpen] ;;
  (if Py.ltb 0 AH then append (ClipPathD glazing_path)
   else append (ClipRect inner_x inner_y inner_w inner_h)) ;;
  extend [ClipPathClose; DefsClose] ;;
  (if Py.ltb 0 AH then append (GlassPath glazing_path (glass_color spec))
   else append (GlassRect inner_x inner_y inner_w inner_h (glass_color spec))) ;;
  append (FramePath frame_path (frame_color spec)) ;;
  append GroupOpen.

(** Lines 121-127. *)
Definition vertical_bars (spec : WindowSpec) : M unit :=
  let H := height_mm spec in
  let FW := frame_width_mm spec in
  let NV := num_vertical_bars spec in
  let BW := sash_bar_width_mm spec in
  let CWB := resolve_center_width spec in
  let inner_x := FW in
  let inner_w := width_mm spec - 2 * FW in
  when ((0 <? NV)%Z && Py.ltb 0 inner_w)
    (let x_gap := inner_w / Py.float (NV + 1) in
     for_each (Py.range NV) (fun i =>
       let cx := inner_x + Py.float (i + 1) * x_gap in
       let w := if ((NV mod 2 =? 1)%Z && (i =? NV / 2)%Z) then CWB else BW in
       let x := cx - w / 2 in
       append (BarV x w H (bar_color spec)))).

(** Lines 130-135. *)
Definition horizontal_bars (spec : WindowSpec) : M unit :=
  let W := width_mm spec in
  let H := height_mm spec in
  let FW := frame_width_mm spec in
  let NH := num_horizontal_bars spec in
  let BW := sash_bar_width_mm spec in
  let inner_y := FW in
  let inner_h := H - 2 * FW in
  when ((0 <? NH)%Z && Py.ltb 0 inner_h)
    (let y_gap := inner_h / Py.float (NH + 1) in
     for_each (Py.range NH) (fun j =>
       let cy := inner_y + Py.float (j + 1) * y_gap in
       let y := cy - BW / 2 in
       append (BarH y W BW (bar_color spec)))).

Definition generate_window_svg_body (spec : WindowSpec) : M (list line) :=
  validate spec ;;
  layers spec ;;
  vertical_bars spec ;;
  horizontal_bars spec ;;
  append GroupClose ;;
  append SvgClose ;;
  get_svg.

Definition generate_window_svg (spec : WindowSpec) : outcome (list line) :=
  generate_window_svg_body spec [].

End GenWindow2.

(** The spec of gen_window3.py built from the same fields; the mode takes
    the default of its declaration, ["even"]. *)
Definition upgrade_spec (spec : GenWindow2.WindowSpec) : WindowSpec :=
  mkWindowSpec (GenWindow2.width_mm spec) (GenWindow2.height_mm spec)
               (GenWindow2.frame_width_mm spec)
               (GenWindow2.num_vertical_bars spec)
               (GenWindow2.num_horizontal_bars spec)
               (GenWindow2.sash_bar_width_mm spec)
               (GenWindow2.arch_height_mm spec)
               (GenWindow2.center_vertical_bar_width_mm spec)
               mode_even
               (GenWindow2.frame_color spec) (GenWindow2.glass_color spec)
               (GenWindow2.bar_color spec).

Definition spec2_example : GenWindow2.WindowSpec :=
  GenWindow2.mkWindowSpec 800 1200 60 3 2 30 0 (Some 50)
                          "#c7c7c7" "#e6f2ff" "#c7c7c7".

(** ** The arc and line chain, sloped_arcs.py

    The function builds one path from a vertical stroke, a horizontal
    stroke and [n] repetitions of a semicircle, a horizontal stroke and a
    vertical stroke upward.  The variables [x] and [y0] keep their full
    value; every coordinate is written with the format [.2f] and the size of
    the canvas with [.0f], and the records below hold the numbers as
    written. *)

Module SlopedArcs.

(** The nearest integer, a tie going to the even one: the rounding of the
    formats [.2f] and [.0f]. *)
Definition round_half_even (q : Q) : Z :=
  let f := Qfloor q in
  let rest := q - inject_Z f in
  if Py.ltb rest (1 # 2) then f
  else if Py.ltb (1 # 2) rest then (f + 1)%Z
  else if Z.even f then f else (f + 1)%Z.

(** The number that [f"{q:.<digits>f}"] writes. *)
Definition format_f (digits : nat) (q : Q) : Q :=
  inject_Z (round_half_even (q * inject_Z (10 ^ Z.of_nat digits)))
  / inject_Z (10 ^ Z.of_nat digits).

(** The path commands of lines 39-50, all with absolute coordinates. *)
Inductive cmd : Type :=
| MoveTo (x y : Q)                                         (* 39 *)
| VertTo (y : Q)                                           (* 40, 50 *)
| HorizTo (x : Q)                                          (* 41, 47 *)
| ArcTo (rx ry : Q) (rot : Z) (large sweep : bool) (x y : Q). (* 45 *)

(** The values interpolated by the template of lines 59-64: width and
    height as written with [.0f]; [transform] holds the amount of the
    translation, the width in full, when the path is mirrored. *)
Record svg : Type := mkSvg {
  svg_width : Q;
  svg_height : Q;
  svg_background : string;
  svg_d : list cmd;
  svg_transform : option Q;
  svg_stroke : string;
  svg_stroke_width : Q;
  svg_linecap : string;
  svg_linejoin : string
}.

Inductive exn : Type :=
| AssertionError.

Inductive result : Type :=
| Ok (s : svg)
| Fail (e : exn).

(** The local variables that the loop updates. *)
Record state : Type := mkState {
  x : Q;
  y0 : Q;
  cmds : list cmd
}.

(** The body of the loop, lines 45-50. *)
Definition loop_body (la r : Q) (st : state) : state :=
  let cmds1 := cmds st ++ [ArcTo (format_f 2 r) (format_f 2 r) 0 false true
                                 (format_f 2 (x st + 2 * r))
                                 (format_f 2 (y0 st))] in
  let x1 := x st + 2 * r in
  let cmds2 := cmds1 ++ [HorizTo (format_f 2 (x1 + la))] in
  let x2 := x1 + la in
  let y1 := y0 st - la in
  mkState x2 y1 (cmds2 ++ [VertTo (format_f 2 y1)]).

(** [for _ in range(n): body] *)
Fixpoint loop (n : nat) (la r : Q) (st : state) : state :=
  match n with
  | O => st
  | S n' => loop n' la r (loop_body la r st)
  end.

Definition arc_line_chain_with_X_svg
           (n : Z) (la r : Q) (stroke : string) (stroke_width margin : Q)
           (background linecap linejoin : string) (mirror : bool) : result :=
  if negb (1 <=? n)%Z then Fail AssertionError
  else if negb (Py.ltb 0 la && Py.ltb 0 r) then Fail AssertionError
  else
    let y0 := margin + Py.float n * la + r in
    let baseline := y0 + la in
    let x := margin in
    let cmds := [MoveTo (format_f 2 x) (format_f 2 (y0 - la))] in
    let cmds := cmds ++ [VertTo (format_f 2 y0)] in
    let cmds := cmds ++ [HorizTo (format_f 2 (x + la))] in
    let x := x + la in
    let st := loop (Z.to_nat n) la r (mkState x y0 cmds) in
    let width := SlopedArcs.x st + margin in
    let height := baseline + margin in
    let d := SlopedArcs.cmds st in
    let transform := if mirror then Some width else None in
    Ok (mkSvg (format_f 0 width) (format_f 0 height) background d transform
              stroke stroke_width linecap linejoin).

(** The commands of [k] repetitions that start with the pen at [(x, y)],
    with the coordinates in full. *)
Fixpoint chain (la r x y : Q) (k : nat) : list cmd :=
  match k with
  | O => []
  | S k' =>
      [ArcTo r r 0 false true (x + 2 * r) y;
       HorizTo (x + 2 * r + la);
       VertTo (y - la)]
      ++ chain la r (x + 2 * r + la) (y - la) k'
  end.

(** A command as it is written. *)
Definition format_cmd (c : cmd) : cmd :=
  match c with
  | MoveTo x y => MoveTo (format_f 2 x) (format_f 2 y)
  | VertTo y => VertTo (format_f 2 y)
  | HorizTo x => HorizTo (format_f 2 x)
  | ArcTo rx ry rot large sweep x y =>
      ArcTo (format_f 2 rx) (format_f 2 ry) rot large sweep
            (format_f 2 x) (format_f 2 y)
  end.

Definition format_point (p : Q * Q) : Q * Q :=
  (format_f 2 (fst p), format_f 2 (snd p)).

(** Where a command leaves the pen. *)
Definition move (pos : Q * Q) (c : cmd) : Q * Q :=
  match c with
  | MoveTo x y => (x, y)
  | VertTo y => (fst pos, y)
  | HorizTo x => (x, snd pos)
  | ArcTo _ _ _ _ _ x y => (x, y)
  end.

(** The positions of the pen after each command of a path. *)
Fixpoint trace (pos : Q * Q) (cs : list cmd) : list (Q * Q) :=
  match cs with
  | [] => []
  | c :: cs' => move pos c :: trace (move pos c) cs'
  end.

(** The position of the pen after a path. *)
Definition pen (pos : Q * Q) (cs : list cmd) : Q * Q :=
  fold_left move cs pos.

(** [a] is [b] up to [tol]. *)
Definition near (tol a b : Q) : Prop := b - tol <= a /\ a <= b + tol.

(** A command, drawn from [pos], is a stroke of the pattern up to [tol]: a
    vertical or horizontal stroke of length [la], or a half circle of
    radius [r] over a horizontal chord, drawn from left to right. *)
Definition is_stroke (tol la r : Q) (pos : Q * Q) (c : cmd) : Prop :=
  match c with
  | MoveTo _ _ => True
  | VertTo y => near tol (y - snd pos) la \/ near tol (snd pos - y) la
  | HorizTo x => near tol (x - fst pos) la
  | ArcTo rx ry rot large sweep x y =>
      rx = ry /\ near tol rx r /\ near tol (x - fst pos) (2 * r) /\
      y = snd pos /\ large = false /\ sweep = true
  end.

(** Every command of a path is a stroke of the pattern up to [tol]. *)
Fixpoint all_strokes (tol la r : Q) (pos : Q * Q) (cs : list cmd) : Prop :=
  match cs with
  | [] => True
  | c :: cs' => is_stroke tol la r pos c
                /\ all_strokes tol la r (move pos c) cs'
  end.

(** The crown of every half circle of a path is at height [lo] or
    further down the screen. *)
Definition arcs_below (lo : Q) (cs : list cmd) : Prop :=
  Forall (fun c => match c with
                   | ArcTo _ ry _ _ _ _ y => lo <= y - ry
                   | _ => True
                   end) cs.

(** A number with at most two decimals. *)
Definition hundredths (q : Q) : Prop :=
  exists z : Z, q == inject_Z z * (1 # 100).

(** A point of the canvas of a drawing. *)
Definition on_canvas (s : svg) (p : Q * Q) : Prop :=
  0 <= fst p /\ fst p <= svg_width s /\ 0 <= snd p /\ snd p <= svg_height s.

End SlopedArcs.

(** ** The first generator, gen_window.py

    Its spec has the fields of gen_window2.py, its checks and its bar loops
    are the same; it paints the frame as the whole outer shape and the glass
    on top of it.  The call is modelled by passing the list [svg] along. *)

Module GenWindow1.

(** The declaration of lines 29-42 is the one of gen_window2.py, field for
    field. *)
Definition WindowSpec : Type := GenWindow2.WindowSpec.

(** The lines of the document: the templates shared with the later
    generators, and the outer rectangle of line 138, whose [x] and [y] are
    the literal 0. *)
Inductive svg_line : Type :=
| Common (l : line)
| OuterRect (w h : Q) (fill : string).

Definition _path_arch (width height arch_h : Q) : path :=
  [ MoveTo 0 arch_h;
    ArcTo (width / 2) arch_h 0 false true width arch_h;
    LineTo width height; LineTo 0 height; ClosePath ].

(** Lines 89-98: the first check that fails. *)
Definition check (spec : WindowSpec) : option exn :=
  let W := GenWindow2.width_mm spec in
  let H := GenWindow2.height_mm spec in
  let FW := GenWindow2.frame_width_mm spec in
  let NV := GenWindow2.num_vertical_bars spec in
  let NH := GenWindow2.num_horizontal_bars spec in
  let BW := GenWindow2.sash_bar_width_mm spec in
  let AH := GenWindow2.arch_height_mm spec in
  let CWB := GenWindow2.resolve_center_width spec in
  if Py.leb W 0 || Py.leb H 0 then Some (ValueError msg_dimensions)
  else if Py.ltb FW 0 || Py.leb (Py.min W H) (2 * FW)
  then Some (ValueError msg_frame_width)
  else if Py.ltb AH 0 || Py.ltb H AH then Some (ValueError msg_arch_height)
  else if (NV <? 0)%Z || (NH <? 0)%Z then Some (ValueError msg_bar_count)
  else if Py.ltb BW 0 || Py.ltb CWB 0 then Some (ValueError msg_bar_width)
  else None.

(** [for x in xs: svg.append(f(x))] *)
Definition append_each {A} (f : A -> svg_line) (xs : list A)
           (svg : list svg_line) : list svg_line :=
  fold_left (fun svg x => svg ++ [f x]) xs svg.

Definition generate_window_svg (spec : WindowSpec) : exn + list svg_line :=
  let W := GenWindow2.width_mm spec in
  let H := GenWindow2.height_mm spec in
  let FW := GenWindow2.frame_width_mm spec in
  let NV := GenWindow2.num_vertical_bars spec in
  let NH := GenWindow2.num_horizontal_bars spec in
  let BW := GenWindow2.sash_bar_width_mm spec in
  let AH := GenWindow2.arch_height_mm spec in
  let CWB := GenWindow2.resolve_center_width spec in
  match check spec with
  | Some e => inl e
  | None =>
      let inner_x := FW in
      let inner_y := FW in
      let inner_w := W - 2 * FW in
      let inner_h := H - 2 * FW in
      let '(outer_path, inner_path) :=
        if Py.ltb 0 AH
        then (Some (_path_arch W H AH), Some (_path_arch_inner W H FW AH))
        else (None, None) in
      let glazing_path_d := inner_path in
      let svg := [Common XmlDecl; Common (SvgOpen W H); Common DefsOpen] in
      let svg := svg ++ [Common ClipPathOpen] in
      let svg :=
        if Py.ltb 0 AH then svg ++ [Common (ClipPathD glazing_path_d)]
        else svg ++ [Common (ClipRect inner_x inner_y inner_w inner_h)] in
      let svg := svg ++ [Common ClipPathClose] in
      let svg := svg ++ [Common DefsClose] in
      let svg :=
        if Py.ltb 0 AH then
          (svg ++ [Common (GlassPath outer_path (GenWindow2.frame_color spec))])
          ++ [Common (GlassPath inner_path (GenWindow2.glass_color spec))]
        else
          (svg ++ [OuterRect W H (GenWindow2.frame_color spec)])
          ++ [Common (GlassRect inner_x inner_y inner_w inner_h
                                (GenWindow2.glass_color spec))] in
      let svg := svg ++ [Common GroupOpen] in
      let svg :=
        if (0 <? NV)%Z && Py.ltb 0 inner_w then
          let x_gap := inner_w / Py.float (NV + 1) in
          append_each (fun i =>
            let cx := inner_x + Py.float (i + 1) * x_gap in
            let w := if ((NV mod 2 =? 1)%Z && (i =? NV / 2)%Z)
                     then CWB else BW in
            let x := cx - w / 2 in
            Common (BarV x w H (GenWindow2.bar_color spec)))
            (Py.range NV) svg
        else svg in
      let svg :=
        if (0 <? NH)%Z && Py.ltb 0 inner_h then
          let y_gap := inner_h / Py.float (NH + 1) in
          append_each (fun j =>
            let cy := inner_y + Py.float (j + 1) * y_gap in
            let y := cy - BW / 2 in
            Common (BarH y W BW (GenWindow2.bar_color spec)))
            (Py.range NH) svg
        else svg in
      let svg := svg ++ [Common GroupClose] in
      let svg := svg ++ [Common SvgClose] in
      inr svg
  end.

(** The bar lines of a document, in order. *)
Definition bar_lines (doc : list svg_line) : list line :=
  flat_map (fun l => match l with
                     | Common b => if is_bar b then [b] else []
                     | OuterRect _ _ _ => []
                     end) doc.

End GenWindow1.

(** The document of gen_window.py on a spec that passes its checks, with
    the bar lines written as those of gen_window3.py. *)
Definition first_document (spec : GenWindow2.WindowSpec)
  : list GenWindow1.svg_line :=
  let s := upgrade_spec spec in
  (if Py.ltb 0 (arch_height_mm s) then
     [ GenWindow1.Common XmlDecl;
       GenWindow1.Common (SvgOpen (width_mm s) (height_mm s));
       GenWindow1.Common DefsOpen; GenWindow1.Common ClipPathOpen;
       GenWindow1.Common
         (ClipPathD (Some (_path_arch_inner (width_mm s) (height_mm s)
                             (frame_width_mm s) (arch_height_mm s))));
       GenWindow1.Common ClipPathClose; GenWindow1.Common DefsClose;
       GenWindow1.Common
         (GlassPath (Some (GenWindow1._path_arch (width_mm s) (height_mm s)
                             (arch_height_mm s)))
                    (frame_color s));
       GenWindow1.Common
         (GlassPath (Some (_path_arch_inner (width_mm s) (height_mm s)
                             (frame_width_mm s) (arch_height_mm s)))
                    (glass_color s));
       GenWindow1.Common GroupOpen ]
   else
     [ GenWindow1.Common XmlDecl;
       GenWindow1.Common (SvgOpen (width_mm s) (height_mm s));
       GenWindow1.Common DefsOpen; GenWindow1.Common ClipPathOpen;
       GenWindow1.Common
         (ClipRect (inner_x s) (inner_y s) (inner_w s) (inner_h s));
       GenWindow1.Common ClipPathClose; GenWindow1.Common DefsClose;
       GenWindow1.OuterRect (width_mm s) (height_mm s) (frame_color s);
       GenWindow1.Common
         (GlassRect (inner_x s) (inner_y s) (inner_w s) (inner_h s)
                    (glass_color s));
       GenWindow1.Common GroupOpen ])
  ++ map (fun i => GenWindow1.Common (vbar_line s i))
         (Py.range (num_vertical_bars s))
  ++ map (fun j => GenWindow1.Common (even_line s j))
         (Py.range (num_horizontal_bars s))
  ++ [GenWindow1.Common GroupClose; GenWindow1.Common SvgClose].

(** ** The same tests and formulas on binary64 floats

    Lengths are rationals everywhere else in this file.  The definitions
    below repeat, on the primitive floats of the kernel, the tests of lines
    70-79 and the computation of [T] and [g] (lines 83-86 and 136-152), to
    show where the floats of the program part from the rationals. *)

Module FloatChecks.

Definition float : Type := PrimFloat.float.

(** An int used in float arithmetic. *)
Definition of_int (n : Z) : float :=
  PrimFloat.of_uint63 (Uint63Axioms.of_Z n).

(** [max(a, b)] and [min(a, b)] on floats. *)
Definition max (a b : float) : float := if PrimFloat.ltb a b then b else a.
Definition min (a b : float) : float := if PrimFloat.ltb b a then b else a.

(** Lines 70-79: the message of the first test that fails. *)
Definition first_violation (W H FW AH BW CWB : float) (NV NH : Z)
  : option string :=
  if PrimFloat.leb W (of_int 0) || PrimFloat.leb H (of_int 0)
  then Some msg_dimensions
  else if PrimFloat.ltb FW (of_int 0)
          || PrimFloat.leb (min W H) (PrimFloat.mul (of_int 2) FW)
  then Some msg_frame_width
  else if PrimFloat.ltb AH (of_int 0) || PrimFloat.ltb H AH
  then Some msg_arch_height
  else if (NV <? 0)%Z || (NH <? 0)%Z
  then Some msg_bar_count
  else if PrimFloat.ltb BW (of_int 0) || PrimFloat.ltb CWB (of_int 0)
  then Some msg_bar_width
  else None.

(** [T] of line 145 and [g] of line 152. *)
Definition span_and_gap (H FW AH BW : float) (NH : Z) : float * float :=
  let inner_y := FW in
  let inner_h := PrimFloat.sub H (PrimFloat.mul (of_int 2) FW) in
  let arch_inner := max (of_int 0) (PrimFloat.sub AH FW) in
  let chord_y := PrimFloat.add inner_y arch_inner in
  let start_y := PrimFloat.add chord_y FW in
  let bottom_y := PrimFloat.add inner_y inner_h in
  let T := PrimFloat.sub bottom_y start_y in
  let g := PrimFloat.div (PrimFloat.sub T (PrimFloat.mul (of_int NH) BW))
                         (of_int (NH + 1)) in
  (T, g).

(** The rational that a finite float is. *)
Definition exact (f : float) : option Q :=
  match FloatOps.Prim2SF f with
  | SpecFloat.S754_zero _ => Some 0
  | SpecFloat.S754_finite s m e =>
      Some ((if s then - inject_Z (Zpos m) else inject_Z (Zpos m)) * 2 ^ e)
  | _ => None
  end.

End FloatChecks.

(** The distances from one bar centre line to the next across the
    aperture, the edges included. *)
Definition vertical_centre_gaps (spec : WindowSpec) (doc : list line)
  : list Q :=
  gaps (inner_x spec) (inner_x spec + inner_w spec)
       (map (fun r => (rect_x r + rect_w r / 2, 0)) (vertical_rects doc)).

Definition horizontal_centre_gaps (spec : WindowSpec) (doc : list line)
  : list Q :=
  gaps (inner_y spec) (inner_y spec + inner_h spec)
       (map (fun r => (rect_y r + rect_h r / 2, 0)) (horizontal_rects doc)).

(** The widths of the vertical bars, added up from the spec: [N] times
    [sash_bar_width], with the centre width in place of one of them for an
    odd count. *)
Definition vertical_widths_total (spec : WindowSpec) : Q :=
  Py.float (num_vertical_bars spec) * sash_bar_width_mm spec
  + (if (num_vertical_bars spec mod 2 =? 1)%Z
     then resolve_center_width spec - sash_bar_width_mm spec
     else 0).


(** * Properties *)

(** ** Comparisons *)

Lemma ltb_lt (a b : Q) : Py.ltb a b = true <-> a < b.
Proof.
  unfold Py.ltb. rewrite negb_true_iff.
  split; intro H.
  - apply Qnot_le_lt. intro Hle. apply Qle_bool_iff in Hle. congruence.
  - destruct (Qle_bool b a) eqn:E; [|reflexivity].
    apply Qle_bool_iff in E. exfalso. apply (Qlt_not_le _ _ H E).
Qed.

Lemma ltb_ge (a b : Q) : Py.ltb a b = false <-> b <= a.
Proof.
  unfold Py.ltb. rewrite negb_false_iff. apply Qle_bool_iff.
Qed.

Lemma leb_le (a b : Q) : Py.leb a b = true <-> a <= b.
Proof. apply Qle_bool_iff. Qed.

Lemma leb_gt (a b : Q) : Py.leb a b = false <-> b < a.
Proof.
  unfold Py.leb. split; intro H.
  - apply Qnot_le_lt. intro Hle. apply Qle_bool_iff in Hle. congruence.
  - destruct (Qle_bool a b) eqn:E; [|reflexivity].
    apply Qle_bool_iff in E. exfalso. apply (Qlt_not_le _ _ H E).
Qed.

(** Case analysis on every float comparison in the goal. *)
Ltac cmp_cases :=
  repeat match goal with
  | |- context [Py.ltb ?a ?b] =>
      let E := fresh "E" in
      destruct (Py.ltb a b) eqn:E;
      [apply ltb_lt in E | apply ltb_ge in E]
  | |- context [Py.leb ?a ?b] =>
      let E := fresh "E" in
      destruct (Py.leb a b) eqn:E;
      [apply leb_le in E | apply leb_gt in E]
  end.

Lemma max_spec (a b : Q) :
  (a < b /\ Py.max a b = b) \/ (b <= a /\ Py.max a b = a).
Proof. unfold Py.max. cmp_cases; auto. Qed.

Lemma min_spec (a b : Q) :
  (b < a /\ Py.min a b = b) \/ (a <= b /\ Py.min a b = a).
Proof. unfold Py.min. cmp_cases; auto. Qed.

(** Case analysis on every [max] and [min] in the goal, innermost first. *)
Ltac minmax_cases :=
  repeat match goal with
  | |- context [Py.max ?a ?b] =>
      lazymatch a with
      | context [Py.max _ _] => fail
      | context [Py.min _ _] => fail
      | _ => idtac
      end;
      let H := fresh "H" in
      destruct (max_spec a b) as [[H ->]|[H ->]]
  | |- context [Py.min ?a ?b] =>
      lazymatch a with
      | context [Py.max _ _] => fail
      | context [Py.min _ _] => fail
      | _ => idtac
      end;
      let H := fresh "H" in
      destruct (min_spec a b) as [[H ->]|[H ->]]
  end.

Lemma max_0_nonneg (a : Q) : 0 <= Py.max 0 a.
Proof. destruct (max_spec 0 a) as [[H ->]|[H ->]]; lra. Qed.

Lemma max_r_0_nonneg (a : Q) : 0 <= Py.max a 0.
Proof. destruct (max_spec a 0) as [[H ->]|[H ->]]; lra. Qed.

Lemma float_pos (n : Z) : (0 < n)%Z -> 0 < Py.float n.
Proof.
  intro H. unfold Py.float. change 0 with (inject_Z 0).
  rewrite <- Zlt_Qlt. exact H.
Qed.

Lemma float_nonneg (n : Z) : (0 <= n)%Z -> 0 <= Py.float n.
Proof.
  intro H. unfold Py.float. change 0 with (inject_Z 0).
  rewrite <- Zle_Qle. exact H.
Qed.

Lemma float_succ (n : Z) : Py.float (n + 1) == Py.float n + 1.
Proof. unfold Py.float. rewrite inject_Z_plus. reflexivity. Qed.

Lemma float_le (n m : Z) : (n <= m)%Z -> Py.float n <= Py.float m.
Proof. intro H. unfold Py.float. rewrite <- Zle_Qle. exact H. Qed.

(** ** Range *)

Lemma range_length (n : Z) : List.length (Py.range n) = Z.to_nat n.
Proof. unfold Py.range. rewrite length_map, length_seq. reflexivity. Qed.

Lemma range_nth (n : Z) (i : nat) :
  (i < Z.to_nat n)%nat -> nth_error (Py.range n) i = Some (Z.of_nat i).
Proof.
  intro H. unfold Py.range.
  rewrite nth_error_map, nth_error_seq.
  destruct (Nat.ltb_spec i (Z.to_nat n)); [reflexivity | lia].
Qed.

Lemma range_In (n k : Z) : In k (Py.range n) <-> (0 <= k < n)%Z.
Proof.
  unfold Py.range. rewrite in_map_iff. split.
  - intros [i [<- Hi]]. apply in_seq in Hi. lia.
  - intros H. exists (Z.to_nat k). split; [lia|]. apply in_seq. lia.
Qed.

(** ** Running the generator *)

Lemma bind_append {B} (l : line) (m : M B) (svg : list line) :
  (append l ;; m) svg = m (svg ++ [l]).
Proof. reflexivity. Qed.

Lemma bind_ret {B} (m : M B) (svg : list line) :
  (ret tt ;; m) svg = m svg.
Proof. reflexivity. Qed.

Lemma bind_raise {B} (e : exn) (m : M B) (svg : list line) :
  (@raise unit e ;; m) svg = Raised e svg.
Proof. reflexivity. Qed.

Lemma for_each_append {A} (f : A -> line) (xs : list A) (svg : list line) :
  for_each xs (fun x => append (f x)) svg = Returned tt (svg ++ map f xs).
Proof.
  revert svg. induction xs as [|x xs IH]; intro svg; simpl.
  - unfold ret. now rewrite app_nil_r.
  - unfold bind, append at 1. rewrite IH, <- app_assoc. reflexivity.
Qed.

Lemma validate_run (spec : WindowSpec) (svg : list line) :
  validate spec svg =
  match first_violation spec with
  | Some msg => Raised (ValueError msg) svg
  | None => Returned tt svg
  end.
Proof.
  unfold validate, first_violation, bind, when, raise, ret.
  repeat match goal with
         | |- context [if ?c then _ else _] => destruct c; try reflexivity
         end.
Qed.

Lemma first_violation_none (spec : WindowSpec) :
  first_violation spec = None <-> valid spec.
Proof.
  unfold first_violation, valid. split.
  - intro H.
    repeat match type of H with
           | (if ?c then _ else _) = None =>
               let E := fresh "E" in
               destruct c eqn:E; [discriminate H|]
           end.
    repeat match goal with
           | E : _ || _ = false |- _ =>
               apply orb_false_iff in E; destruct E
           | E : negb _ = false |- _ => apply negb_false_iff in E
           | E : Py.ltb _ _ = false |- _ => apply ltb_ge in E
           | E : Py.leb _ _ = false |- _ => apply leb_gt in E
           | E : (_ <? _)%Z = false |- _ => apply Z.ltb_ge in E
           end.
    repeat split; try assumption.
    apply orb_true_iff in E4.
    destruct E4 as [E4|E4]; apply String.eqb_eq in E4; auto.
  - intros (HW & HH & HF & HF2 & HA & HA2 & HNV & HNH & HB & HC & HM).
    apply leb_gt in HW, HH, HF2. apply ltb_ge in HF, HA, HA2, HB, HC.
    apply Z.ltb_ge in HNV, HNH.
    rewrite HW, HH, HF, HF2, HA, HA2, HNV, HNH, HB, HC. simpl.
    destruct HM as [-> | ->]; reflexivity.
Qed.

Lemma validate_valid (spec : WindowSpec) (svg : list line) :
  valid spec -> validate spec svg = Returned tt svg.
Proof.
  intro H. apply first_violation_none in H.
  rewrite validate_run, H. reflexivity.
Qed.

Lemma validate_invalid (spec : WindowSpec) (svg : list line) :
  ~ valid spec ->
  exists msg, first_violation spec = Some msg /\
              validate spec svg = Raised (ValueError msg) svg.
Proof.
  intro H. rewrite validate_run.
  destruct (first_violation spec) as [msg|] eqn:E.
  - exists msg. split; reflexivity.
  - exfalso. apply H, first_violation_none, E.
Qed.

Lemma layers_run (spec : WindowSpec) (svg : list line) :
  layers spec svg = Returned tt (svg ++ layer_lines spec).
Proof.
  unfold layers, layer_lines, bind, extend, append.
  destruct (Py.ltb 0 (arch_height_mm spec));
    repeat rewrite <- app_assoc; reflexivity.
Qed.

Lemma vertical_bars_run (spec : WindowSpec) (svg : list line) :
  vertical_bars spec svg = Returned tt (svg ++ vertical_lines spec).
Proof.
  unfold vertical_bars, vertical_lines, when.
  fold (inner_w spec).
  destruct ((0 <? num_vertical_bars spec)%Z && Py.ltb 0 (inner_w spec)).
  - apply (for_each_append (vbar_line spec)).
  - unfold ret. now rewrite app_nil_r.
Qed.

Lemma horizontal_bars_run (spec : WindowSpec) (svg : list line) :
  horizontal_bars spec svg = horizontal_outcome spec svg.
Proof.
  unfold horizontal_bars, horizontal_outcome, when.
  cbv [inner_h chord_branch span_T bottom_y start_y chord_y inner_y arch_inner
       gap_g gap_used chord_line lower_line even_line y_gap].
  repeat match goal with
         | |- context [if ?c then _ else _] => destruct c
         end;
    rewrite ?bind_append, ?bind_ret, ?bind_raise, ?for_each_append,
            <- ?app_assoc;
    try reflexivity.
Qed.

Lemma generate_run (spec : WindowSpec) :
  generate_window_svg spec =
  match first_violation spec with
  | Some msg => Raised (ValueError msg) []
  | None =>
      match horizontal_outcome spec (layer_lines spec ++ vertical_lines spec) with
      | Returned _ svg =>
          Returned (svg ++ [GroupClose; SvgClose]) (svg ++ [GroupClose; SvgClose])
      | Raised e svg => Raised e svg
      end
  end.
Proof.
  unfold generate_window_svg, generate_window_svg_body.
  unfold bind at 1. rewrite validate_run.
  destruct (first_violation spec); [reflexivity|].
  unfold bind at 1. rewrite layers_run.
  unfold bind at 1. rewrite vertical_bars_run.
  unfold bind at 1. rewrite horizontal_bars_run. simpl.
  destruct (horizontal_outcome spec (layer_lines spec ++ vertical_lines spec));
    [|reflexivity].
  rewrite !bind_append. unfold get_svg. rewrite <- app_assoc. reflexivity.
Qed.

(** ** Consequences of validity *)

Lemma valid_inner_w (spec : WindowSpec) : valid spec -> 0 < inner_w spec.
Proof.
  intros (HW & HH & HF & HF2 & _). unfold inner_w.
  destruct (min_spec (width_mm spec) (height_mm spec)) as [[H E]|[H E]];
    rewrite E in HF2; lra.
Qed.

Lemma valid_inner_h (spec : WindowSpec) : valid spec -> 0 < inner_h spec.
Proof.
  intros (HW & HH & HF & HF2 & _). unfold inner_h.
  destruct (min_spec (width_mm spec) (height_mm spec)) as [[H E]|[H E]];
    rewrite E in HF2; lra.
Qed.

Lemma valid_vertical_lines (spec : WindowSpec) :
  valid spec ->
  vertical_lines spec = map (vbar_line spec) (Py.range (num_vertical_bars spec)).
Proof.
  intro Hv. unfold vertical_lines.
  pose proof (valid_inner_w spec Hv) as Hw. apply ltb_lt in Hw. rewrite Hw.
  destruct (Z.ltb_spec 0 (num_vertical_bars spec)) as [Hn|Hn]; [reflexivity|].
  destruct Hv as (_ & _ & _ & _ & _ & _ & HNV & _).
  assert (num_vertical_bars spec = 0%Z) as -> by lia. reflexivity.
Qed.

Lemma valid_horizontal_outcome (spec : WindowSpec) (svg : list line) :
  valid spec ->
  horizontal_outcome spec svg =
  match chord_failure spec with
  | Some msg => Raised (ValueError msg) (svg ++ [chord_line spec])
  | None => Returned tt (svg ++ horizontal_lines spec)
  end.
Proof.
  intro Hv. unfold horizontal_outcome, chord_failure, horizontal_lines.
  pose proof (valid_inner_h spec Hv) as Hh. apply ltb_lt in Hh. rewrite Hh.
  destruct Hv as (_ & _ & _ & _ & _ & _ & _ & HNH & _).
  destruct (chord_branch spec); simpl.
  - destruct (0 <? num_horizontal_bars spec)%Z; [|reflexivity].
    destruct (Py.leb (span_T spec) 0); [reflexivity|].
    destruct (Py.ltb (gap_g spec) (- eps)); reflexivity.
  - destruct (Z.ltb_spec 0 (num_horizontal_bars spec)) as [Hn|Hn];
      [reflexivity|].
    assert (num_horizontal_bars spec = 0%Z) as -> by lia.
    simpl. now rewrite app_nil_r.
Qed.

Lemma valid_generate (spec : WindowSpec) :
  valid spec ->
  generate_window_svg spec =
  match chord_failure spec with
  | Some msg =>
      Raised (ValueError msg)
        (layer_lines spec
         ++ map (vbar_line spec) (Py.range (num_vertical_bars spec))
         ++ [chord_line spec])
  | None => Returned (document spec) (document spec)
  end.
Proof.
  intro Hv. rewrite generate_run.
  pose proof Hv as Hn. apply first_violation_none in Hn. rewrite Hn.
  rewrite (valid_horizontal_outcome _ _ Hv), (valid_vertical_lines _ Hv).
  unfold document.
  destruct (chord_failure spec); rewrite <- ?app_assoc; reflexivity.
Qed.

Lemma chord_branch_iff (spec : WindowSpec) :
  chord_branch spec = true <->
  horizontal_distribution_mode spec = mode_from_chord /\
  0 < arch_height_mm spec.
Proof.
  unfold chord_branch. rewrite andb_true_iff, String.eqb_eq, ltb_lt.
  reflexivity.
Qed.

Lemma chord_failure_none (spec : WindowSpec) :
  chord_failure spec = None <-> chord_fit spec.
Proof.
  unfold chord_failure, chord_fit. split.
  - intros H Hm HA Hn.
    assert (chord_branch spec = true) as Hc by (apply chord_branch_iff; auto).
    rewrite Hc in H. apply Z.ltb_lt in Hn. rewrite Hn in H.
    simpl in H.
    destruct (Py.leb (span_T spec) 0) eqn:E1; [discriminate|].
    destruct (Py.ltb (gap_g spec) (- eps)) eqn:E2; [discriminate|].
    apply leb_gt in E1. apply ltb_ge in E2. auto.
  - intro H. destruct (chord_branch spec) eqn:Hc; [|reflexivity].
    apply chord_branch_iff in Hc. destruct Hc as [Hm HA].
    destruct (Z.ltb_spec 0 (num_horizontal_bars spec)) as [Hn|Hn];
      [|reflexivity].
    destruct (H Hm HA Hn) as [H1 H2].
    apply leb_gt in H1. apply ltb_ge in H2. simpl. now rewrite H1, H2.
Qed.

Lemma returns_inv (spec : WindowSpec) (doc svg : list line) :
  generate_window_svg spec = Returned doc svg ->
  valid spec /\ chord_fit spec /\ doc = document spec /\ svg = document spec.
Proof.
  intro H.
  destruct (first_violation spec) eqn:E.
  { rewrite generate_run, E in H. discriminate. }
  apply first_violation_none in E.
  rewrite (valid_generate _ E) in H.
  destruct (chord_failure spec) eqn:E2; [discriminate|].
  apply chord_failure_none in E2. inversion H. auto.
Qed.

Lemma returns_intro (spec : WindowSpec) :
  valid spec -> chord_fit spec ->
  generate_window_svg spec = Returned (document spec) (document spec).
Proof.
  intros Hv Hc. rewrite (valid_generate _ Hv).
  apply chord_failure_none in Hc. now rewrite Hc.
Qed.

(** Rectangles of the parts of the document. *)

Lemma vertical_rects_app (l1 l2 : list line) :
  vertical_rects (l1 ++ l2) = vertical_rects l1 ++ vertical_rects l2.
Proof. apply flat_map_app. Qed.

Lemma horizontal_rects_app (l1 l2 : list line) :
  horizontal_rects (l1 ++ l2) = horizontal_rects l1 ++ horizontal_rects l2.
Proof. apply flat_map_app. Qed.

Lemma layer_lines_no_bars (spec : WindowSpec) :
  vertical_rects (layer_lines spec) = [] /\
  horizontal_rects (layer_lines spec) = [].
Proof. unfold layer_lines. destruct (Py.ltb 0 _); split; reflexivity. Qed.

Lemma vertical_rects_map_V (f : Z -> line) (g : Z -> rect) (xs : list Z) :
  (forall i, vertical_rect (f i) = [g i]) ->
  vertical_rects (map f xs) = map g xs.
Proof.
  intro H. induction xs as [|x xs IH]; simpl; [reflexivity|].
  now rewrite H, <- IH.
Qed.

Lemma vertical_rects_map_none (f : Z -> line) (xs : list Z) :
  (forall i, vertical_rect (f i) = []) ->
  vertical_rects (map f xs) = [].
Proof.
  intro H. induction xs as [|x xs IH]; simpl; [reflexivity|].
  now rewrite H.
Qed.

Lemma horizontal_rects_map_H (f : Z -> line) (g : Z -> rect) (xs : list Z) :
  (forall i, horizontal_rect (f i) = [g i]) ->
  horizontal_rects (map f xs) = map g xs.
Proof.
  intro H. induction xs as [|x xs IH]; simpl; [reflexivity|].
  now rewrite H, <- IH.
Qed.

Lemma horizontal_rects_map_none (f : Z -> line) (xs : list Z) :
  (forall i, horizontal_rect (f i) = []) ->
  horizontal_rects (map f xs) = [].
Proof.
  intro H. induction xs as [|x xs IH]; simpl; [reflexivity|].
  now rewrite H.
Qed.

Lemma range_nonpos (n : Z) : (n <= 0)%Z -> Py.range n = [].
Proof.
  intro H. unfold Py.range.
  replace (Z.to_nat n) with 0%nat by lia. reflexivity.
Qed.

Lemma document_vertical_rects (spec : WindowSpec) :
  vertical_rects (document spec)
  = map (vbar_rect spec) (Py.range (num_vertical_bars spec)).
Proof.
  unfold document. rewrite !vertical_rects_app.
  destruct (layer_lines_no_bars spec) as [-> _]. simpl.
  rewrite (vertical_rects_map_V _ (vbar_rect spec)) by reflexivity.
  assert (vertical_rects (horizontal_lines spec) = []) as ->.
  { unfold horizontal_lines.
    destruct (chord_branch spec); simpl;
      [destruct (0 <? _)%Z; simpl|];
      try apply vertical_rects_map_none; reflexivity. }
  simpl. now rewrite app_nil_r.
Qed.

Lemma document_horizontal_rects (spec : WindowSpec) :
  horizontal_rects (document spec) = horizontal_layout spec.
Proof.
  unfold document. rewrite !horizontal_rects_app.
  destruct (layer_lines_no_bars spec) as [_ ->]. simpl.
  rewrite horizontal_rects_map_none by reflexivity. simpl.
  rewrite app_nil_r.
  unfold horizontal_lines, horizontal_layout.
  destruct (chord_branch spec).
  - simpl. fold (chord_rect spec). f_equal.
    destruct (Z.ltb_spec 0 (num_horizontal_bars spec)) as [Hn|Hn].
    + apply (horizontal_rects_map_H _ (lower_rect spec)). reflexivity.
    + rewrite range_nonpos by exact Hn. reflexivity.
  - apply (horizontal_rects_map_H _ (even_rect spec)). reflexivity.
Qed.

(** ** Vertical bars *)

(** C5: on a valid spec with [N = num_vertical_bars > 0] the document holds
    exactly [N] vertical bar rectangles; the [k]-th ([k = 1..N]) is centred at
    [inner_x + k * (inner_w / (N + 1))], starts at [y = 0] and has the full
    outer height; its width is [sash_bar_width], except that for odd [N] the
    bar of 0-based index [N // 2] has the resolved centre width. *)
Theorem vertical_bar_layout (spec : WindowSpec) (doc svg : list line) :
  generate_window_svg spec = Returned doc svg ->
  (0 < num_vertical_bars spec)%Z ->
  List.length (vertical_rects doc) = Z.to_nat (num_vertical_bars spec) /\
  forall k : Z, (1 <= k <= num_vertical_bars spec)%Z ->
    exists r,
      nth_error (vertical_rects doc) (Z.to_nat (k - 1)) = Some r /\
      rect_x r + rect_w r / 2
        == inner_x spec
           + Py.float k * (inner_w spec / Py.float (num_vertical_bars spec + 1)) /\
      rect_y r = 0 /\
      rect_h r = height_mm spec /\
      rect_w r = if ((num_vertical_bars spec mod 2 =? 1)%Z
                     && (k - 1 =? num_vertical_bars spec / 2)%Z)
                 then resolve_center_width spec
                 else sash_bar_width_mm spec.
Proof.
  intros Hgen HN.
  apply returns_inv in Hgen. destruct Hgen as (_ & _ & -> & _).
  rewrite document_vertical_rects. split.
  - now rewrite length_map, range_length.
  - intros k Hk. exists (vbar_rect spec (k - 1)). split.
    + rewrite nth_error_map, range_nth by lia.
      simpl. f_equal. f_equal. lia.
    + unfold vbar_rect. cbn [rect_x rect_y rect_w rect_h].
      replace (k - 1 + 1)%Z with k by lia.
      repeat split. unfold x_gap. ring.
Qed.

Lemma vertical_bar_layout_witness :
  List.length (vertical_rects (document spec_rect_example)) = 3%nat /\
  forall k : Z, (1 <= k <= 3)%Z ->
    exists r,
      nth_error (vertical_rects (document spec_rect_example)) (Z.to_nat (k - 1))
        = Some r /\
      rect_x r + rect_w r / 2 == 60 + Py.float k * (680 / Py.float 4) /\
      rect_y r = 0 /\
      rect_h r = 1200 /\
      rect_w r = if ((3 mod 2 =? 1)%Z && (k - 1 =? 3 / 2)%Z) then 50 else 30.
Proof.
  apply (vertical_bar_layout spec_rect_example (document spec_rect_example)
           (document spec_rect_example)).
  - vm_compute. reflexivity.
  - vm_compute. reflexivity.
Defined.

(** [resolve_center_width] keeps any supplied width other than zero, and
    falls back to [sash_bar_width] for an absent field and for zero. *)
Lemma resolve_center_width_cases (spec : WindowSpec) :
  match center_vertical_bar_width_mm spec with
  | Some c =>
      (~ c == 0 /\ resolve_center_width spec = c) \/
      (c == 0 /\ resolve_center_width spec = sash_bar_width_mm spec)
  | None => resolve_center_width spec = sash_bar_width_mm spec
  end.
Proof.
  unfold resolve_center_width, Py.truthy.
  destruct (center_vertical_bar_width_mm spec) as [c|]; [|reflexivity].
  destruct (Qeq_bool c 0) eqn:E; simpl.
  - right. split; [now apply Qeq_bool_iff | reflexivity].
  - left. split; [|reflexivity]. intro H. apply Qeq_bool_iff in H. congruence.
Qed.

(** C2: with [center_vertical_bar_width = 0] supplied and three vertical
    bars, the resolved centre width is [sash_bar_width = 30], and the middle
    bar of the document is 30 wide, not 0 wide. *)
Theorem center_width_zero_discarded :
  center_vertical_bar_width_mm spec_center_zero = Some 0 /\
  resolve_center_width spec_center_zero = 30 /\
  exists doc r,
    generate_window_svg spec_center_zero = Returned doc doc /\
    nth_error (vertical_rects doc) 1 = Some r /\
    rect_w r = 30 /\ ~ rect_w r == 0.
Proof.
  split; [reflexivity|]. split; [reflexivity|].
  eexists. eexists. split; [vm_compute; reflexivity|].
  split; [vm_compute; reflexivity|].
  split; [reflexivity|]. cbn [rect_w]. lra.
Qed.

(** ** The chord bar *)

(** C4: on a valid spec in [from_chord] mode with [arch_height > 0] the
    horizontal rectangles of the document are one chord bar, from [x = 0]
    over the full width, with its top at
    [inner_y + max(0, arch_height - frame_width)] and of height
    [frame_width], followed by the [num_horizontal_bars] bars below it. *)
Theorem chord_bar_placement (spec : WindowSpec) (doc svg : list line) :
  generate_window_svg spec = Returned doc svg ->
  horizontal_distribution_mode spec = mode_from_chord ->
  0 < arch_height_mm spec ->
  horizontal_rects doc
  = mkRect 0
           (inner_y spec
            + Py.max 0 (arch_height_mm spec - frame_width_mm spec))
           (width_mm spec) (frame_width_mm spec)
    :: map (lower_rect spec) (Py.range (num_horizontal_bars spec))
  /\ List.length (horizontal_rects doc)
     = S (Z.to_nat (num_horizontal_bars spec))
  /\ Forall (fun r => rect_h r = sash_bar_width_mm spec
                      /\ start_y spec <= rect_y r)
            (map (lower_rect spec) (Py.range (num_horizontal_bars spec))).
Proof.
  intros Hgen Hmode HAH.
  apply returns_inv in Hgen. destruct Hgen as (Hv & _ & -> & _).
  rewrite document_horizontal_rects. unfold horizontal_layout.
  assert (chord_branch spec = true) as ->.
  { unfold chord_branch. rewrite Hmode. apply ltb_lt in HAH.
    now rewrite HAH. }
  split; [reflexivity|]. split.
  - simpl. now rewrite length_map, range_length.
  - apply Forall_forall. intros r Hr. apply in_map_iff in Hr.
    destruct Hr as [k [<- Hk]]. apply range_In in Hk.
    split; [reflexivity|]. cbn [lower_rect rect_y].
    destruct Hv as (_ & _ & _ & _ & _ & _ & _ & _ & HB & _).
    pose proof (max_r_0_nonneg (gap_g spec)) as Hg. fold (gap_used spec) in Hg.
    assert (0 <= Py.float k) as Hk0 by (apply float_nonneg; lia).
    assert (0 <= Py.float k * (sash_bar_width_mm spec + gap_used spec)).
    { apply Qmult_le_0_compat; lra. }
    lra.
Qed.

Lemma chord_bar_placement_witness :
  horizontal_rects (document spec_arch_example)
  = mkRect 0 (70 + Py.max 0 (250 - 70)) 1000 70
    :: map (lower_rect spec_arch_example) (Py.range 4)
  /\ List.length (horizontal_rects (document spec_arch_example)) = 5%nat
  /\ Forall (fun r => rect_h r = 35 /\ start_y spec_arch_example <= rect_y r)
            (map (lower_rect spec_arch_example) (Py.range 4)).
Proof.
  apply (chord_bar_placement spec_arch_example (document spec_arch_example)
           (document spec_arch_example)).
  - vm_compute. reflexivity.
  - reflexivity.
  - vm_compute. reflexivity.
Defined.

(** The chord bar is appended once on every valid [from_chord] spec with an
    arch, also when the bars below it are then refused. *)
Lemma chord_bar_appended (spec : WindowSpec) :
  valid spec ->
  horizontal_distribution_mode spec = mode_from_chord ->
  0 < arch_height_mm spec ->
  exists rest,
    horizontal_rects (emitted (generate_window_svg spec))
    = chord_rect spec :: rest /\
    Forall (fun r => rect_h r = sash_bar_width_mm spec) rest.
Proof.
  intros Hv Hmode HAH.
  assert (chord_branch spec = true) as Hc.
  { unfold chord_branch. rewrite Hmode. apply ltb_lt in HAH.
    now rewrite HAH. }
  rewrite (valid_generate _ Hv).
  destruct (chord_failure spec); cbn [emitted].
  - exists []. split; [|constructor].
    rewrite !horizontal_rects_app.
    destruct (layer_lines_no_bars spec) as [_ ->].
    rewrite horizontal_rects_map_none by reflexivity. reflexivity.
  - exists (map (lower_rect spec) (Py.range (num_horizontal_bars spec))).
    rewrite document_horizontal_rects. unfold horizontal_layout. rewrite Hc.
    split; [reflexivity|].
    apply Forall_forall. intros r Hr. apply in_map_iff in Hr.
    destruct Hr as [k [<- _]]. reflexivity.
Qed.

(** ** Refusals below the chord bar *)

Lemma chord_branch_true (spec : WindowSpec) :
  horizontal_distribution_mode spec = mode_from_chord ->
  0 < arch_height_mm spec ->
  chord_branch spec = true.
Proof. intros Hmode HAH. apply chord_branch_iff. auto. Qed.

Lemma chord_generate_cases (spec : WindowSpec) :
  valid spec ->
  chord_branch spec = true ->
  (0 < num_horizontal_bars spec)%Z ->
  (span_T spec <= 0 /\
   generate_window_svg spec
   = Raised (ValueError msg_no_space) (lines_before_gap_test spec)) \/
  (0 < span_T spec /\ gap_g spec < - eps /\
   generate_window_svg spec
   = Raised (ValueError msg_not_enough_space) (lines_before_gap_test spec)) \/
  (0 < span_T spec /\ - eps <= gap_g spec /\
   generate_window_svg spec = Returned (document spec) (document spec)).
Proof.
  intros Hv Hc Hn. rewrite (valid_generate _ Hv).
  unfold chord_failure. rewrite Hc. apply Z.ltb_lt in Hn. rewrite Hn. simpl.
  destruct (Py.leb (span_T spec) 0) eqn:E1.
  - left. apply leb_le in E1. auto.
  - apply leb_gt in E1. right.
    destruct (Py.ltb (gap_g spec) (- eps)) eqn:E2.
    + left. apply ltb_lt in E2. auto.
    + right. apply ltb_ge in E2. auto.
Qed.





Lemma valid_spec_zero_span : valid spec_zero_span.
Proof.
  unfold valid. cbn. repeat split; try reflexivity; try discriminate.
  right. reflexivity.
Qed.

(** C10: in [from_chord] mode with [arch_height > 0] and
    [num_horizontal_bars > 0], generation raises whenever [T <= 0],
    whatever the gap [g]; on a spec that passes the checks of lines 70-81
    the error is the one of line 148, raised after the chord bar was
    appended. *)
Theorem no_space_below_chord (spec : WindowSpec) :
  horizontal_distribution_mode spec = mode_from_chord ->
  0 < arch_height_mm spec ->
  (0 < num_horizontal_bars spec)%Z ->
  span_T spec <= 0 ->
  raises (generate_window_svg spec) /\
  (valid spec ->
   generate_window_svg spec
   = Raised (ValueError msg_no_space) (lines_before_gap_test spec)).
Proof.
  intros Hmode HAH Hn HT.
  pose proof (chord_branch_true _ Hmode HAH) as Hc.
  assert (valid spec ->
          generate_window_svg spec
          = Raised (ValueError msg_no_space) (lines_before_gap_test spec))
    as Hvalid.
  { intro Hv.
    destruct (chord_generate_cases _ Hv Hc Hn)
      as [[_ Hg] | [[HT' _] | [HT' _]]]; [exact Hg | lra | lra]. }
  split; [|exact Hvalid].
  destruct (first_violation spec) as [msg|] eqn:E.
  - exists (ValueError msg), []. now rewrite generate_run, E.
  - apply first_violation_none in E. eexists. eexists. apply Hvalid, E.
Qed.

(** The refusal reaches a spec whose gap is not negative. *)
Lemma no_space_below_chord_witness :
  valid spec_zero_span /\ gap_g spec_zero_span == 0 /\
  raises (generate_window_svg spec_zero_span) /\
  (valid spec_zero_span ->
   generate_window_svg spec_zero_span
   = Raised (ValueError msg_no_space) (lines_before_gap_test spec_zero_span)).
Proof.
  split; [exact valid_spec_zero_span|].
  split; [reflexivity|].
  apply (no_space_below_chord spec_zero_span).
  - reflexivity.
  - reflexivity.
  - reflexivity.
  - vm_compute. discriminate.
Defined.

(** ** When generation returns *)













(** On the floats of the program a width that is not a number passes every
    test of lines 70-79, although it is not greater than zero. *)
Lemma nan_width_passes_checks :
  FloatChecks.first_violation
    PrimFloat.nan (FloatChecks.of_int 1200) (FloatChecks.of_int 60)
    (FloatChecks.of_int 0) (FloatChecks.of_int 30) (FloatChecks.of_int 30)
    3 2 = None /\
  PrimFloat.ltb (FloatChecks.of_int 0) PrimFloat.nan = false.
Proof. split; vm_compute; reflexivity. Qed.

(** ** Division by the number of gaps *)

Lemma float_succ_neq_0 (n : Z) : (0 <= n)%Z -> ~ Py.float (n + 1) == 0.
Proof.
  intro H. assert (0 < Py.float (n + 1)) by (apply float_pos; lia). lra.
Qed.

Lemma x_gap_identity (spec : WindowSpec) :
  (0 <= num_vertical_bars spec)%Z ->
  Py.float (num_vertical_bars spec + 1) * x_gap spec == inner_w spec.
Proof.
  intro H. unfold x_gap. field. now apply float_succ_neq_0.
Qed.

Lemma y_gap_identity (spec : WindowSpec) :
  (0 <= num_horizontal_bars spec)%Z ->
  Py.float (num_horizontal_bars spec + 1) * y_gap spec == inner_h spec.
Proof.
  intro H. unfold y_gap. field. now apply float_succ_neq_0.
Qed.

Lemma gap_g_identity (spec : WindowSpec) :
  (0 <= num_horizontal_bars spec)%Z ->
  Py.float (num_horizontal_bars spec + 1) * gap_g spec
  + Py.float (num_horizontal_bars spec) * sash_bar_width_mm spec
  == span_T spec.
Proof.
  intro H. unfold gap_g. field. now apply float_succ_neq_0.
Qed.

Lemma half_eq (b : Q) : b / 2 == b * (1 # 2).
Proof. field. Qed.

Lemma gap_used_cases (spec : WindowSpec) :
  (0 <= gap_g spec /\ gap_used spec = gap_g spec) \/
  (gap_g spec < 0 /\ gap_used spec = 0).
Proof.
  unfold gap_used. destruct (max_spec (gap_g spec) 0) as [[H E]|[H E]]; auto.
Qed.

(** ** Horizontal bars and the aperture *)









(** ** Gaps between bars *)

Lemma gaps_length (lo hi : Q) (segs : list (Q * Q)) :
  List.length (gaps lo hi segs) = S (List.length segs).
Proof.
  revert lo. induction segs as [|[s len] rest IH]; intro lo; simpl;
    [reflexivity | now rewrite IH].
Qed.

Lemma gaps_sum (lo hi : Q) (segs : list (Q * Q)) :
  Qsum (gaps lo hi segs) + Qsum (map snd segs) == hi - lo.
Proof.
  revert lo. induction segs as [|[s len] rest IH]; intro lo; simpl.
  - ring.
  - specialize (IH (s + len)). lra.
Qed.

Lemma gaps_progression (a d len g hi : Q) (n m : nat) (lo : Q) :
  lo == a + Py.float (Z.of_nat m) * d - g ->
  hi == a + Py.float (Z.of_nat (m + n)) * d ->
  d - len == g ->
  Forall (fun x => x == g)
         (gaps lo hi (map (fun k => (a + Py.float k * d, len))
                          (map Z.of_nat (seq m n)))).
Proof.
  revert m lo. induction n as [|n IH]; intros m lo Hlo Hhi Hd; simpl.
  - constructor; [|constructor].
    rewrite Nat.add_0_r in Hhi. lra.
  - constructor; [lra|].
    apply IH; [| |exact Hd].
    + replace (Z.of_nat (S m)) with (Z.of_nat m + 1)%Z by lia.
      rewrite float_succ. lra.
    + replace (S m + n)%nat with (m + S n)%nat by lia. exact Hhi.
Qed.

Lemma x_segments_widths (rs : list rect) :
  map snd (x_segments rs) = map rect_w rs.
Proof. unfold x_segments. rewrite map_map. reflexivity. Qed.

Lemma y_segments_heights (rs : list rect) :
  map snd (y_segments rs) = map rect_h rs.
Proof. unfold y_segments. rewrite map_map. reflexivity. Qed.

Lemma lower_gaps_uniform (spec : WindowSpec) :
  (0 <= num_horizontal_bars spec)%Z ->
  0 <= gap_g spec ->
  Forall (fun d => d == gap_g spec)
         (gaps (start_y spec) (bottom_y spec)
               (y_segments (map (lower_rect spec)
                                (Py.range (num_horizontal_bars spec))))).
Proof.
  intros Hn Hg.
  unfold y_segments, lower_rect. rewrite map_map. cbn [rect_y rect_h].
  destruct (gap_used_cases spec) as [[_ ->]|[Hneg _]]; [|lra].
  unfold Py.range.
  apply (gaps_progression (start_y spec + gap_g spec)
           (sash_bar_width_mm spec + gap_g spec)
           (sash_bar_width_mm spec) (gap_g spec) (bottom_y spec)
           (Z.to_nat (num_horizontal_bars spec)) 0 (start_y spec)).
  - change (Py.float (Z.of_nat 0)) with 0. ring.
  - rewrite Nat.add_0_l, Z2Nat.id by exact Hn.
    pose proof (gap_g_identity spec Hn) as Hid.
    pose proof (float_succ (num_horizontal_bars spec)) as Hs.
    unfold span_T in Hid. nra.
  - ring.
Qed.

Lemma gaps_shape (s len : Z -> Q) (a d g hi : Q) (n m : nat) (lo : Q) :
  (forall k, s k == a + Py.float k * d) ->
  (forall k, len k == d - g) ->
  lo == a + Py.float (Z.of_nat m) * d - g ->
  exists gs last,
    gaps lo hi (map (fun k => (s k, len k)) (map Z.of_nat (seq m n)))
    = gs ++ [last] /\
    List.length gs = n /\
    Forall (fun x => x == g) gs /\
    last == hi - (a + Py.float (Z.of_nat (m + n)) * d - g).
Proof.
  intros Hs Hl. revert m lo.
  induction n as [|n IH]; intros m lo Hlo; cbn [seq map gaps].
  - exists [], (hi - lo). repeat split; [constructor|].
    rewrite Nat.add_0_r. lra.
  - destruct (IH (S m) (s (Z.of_nat m) + len (Z.of_nat m)))
      as (gs & last & E & Hlen & Hall & Hlast).
    { rewrite (Hs (Z.of_nat m)), (Hl (Z.of_nat m)).
      replace (Z.of_nat (S m)) with (Z.of_nat m + 1)%Z by lia.
      rewrite float_succ. ring. }
    exists ((s (Z.of_nat m) - lo) :: gs), last.
    split; [cbn [app]; now rewrite E|].
    split; [cbn; now rewrite Hlen|].
    split.
    + constructor; [|exact Hall]. rewrite (Hs (Z.of_nat m)). lra.
    + replace (m + S n)%nat with (S m + n)%nat by lia. exact Hlast.
Qed.

Lemma gaps_shape_uniform (s len : Z -> Q) (a d g hi : Q) (n : Z) (lo : Q) :
  (0 <= n)%Z ->
  (forall k, s k == a + Py.float k * d) ->
  (forall k, len k == d - g) ->
  lo == a - g ->
  hi == a + Py.float n * d ->
  Forall (fun x => x == g)
         (gaps lo hi (map (fun k => (s k, len k)) (Py.range n))).
Proof.
  intros Hn Hs Hl Hlo Hhi. unfold Py.range.
  destruct (gaps_shape s len a d g hi (Z.to_nat n) 0 lo Hs Hl)
    as (gs & last & E & _ & Hall & Hlast).
  { change (Py.float (Z.of_nat 0)) with 0. lra. }
  rewrite E. apply Forall_app. split; [exact Hall|].
  constructor; [|constructor].
  rewrite Nat.add_0_l, Z2Nat.id in Hlast by exact Hn. lra.
Qed.

Lemma Qsum_constant {A} (f : A -> Q) (c : Q) (xs : list A) :
  (forall x, f x == c) ->
  Qsum (map f xs) == Py.float (Z.of_nat (List.length xs)) * c.
Proof.
  intro H. induction xs as [|x xs IH]; cbn [map Qsum fold_right List.length].
  - change (Py.float (Z.of_nat 0)) with 0. ring.
  - fold (Qsum (map f xs)). rewrite IH, (H x).
    replace (Z.of_nat (S (List.length xs)))
      with (Z.of_nat (List.length xs) + 1)%Z by lia.
    rewrite float_succ. ring.
Qed.

Lemma Qsum_one_special (f : Z -> Q) (a b : Q) (m : Z) (n s : nat) :
  (forall i, f i == if (i =? m)%Z then a else b) ->
  Qsum (map f (map Z.of_nat (seq s n)))
  == Py.float (Z.of_nat n) * b
     + (if (Z.of_nat s <=? m)%Z && (m <? Z.of_nat (s + n))%Z
        then a - b else 0).
Proof.
  intro H. revert s.
  induction n as [|n IH]; intro s; cbn [seq map Qsum fold_right].
  - change (Py.float (Z.of_nat 0)) with 0.
    destruct (Z.leb_spec (Z.of_nat s) m); destruct (Z.ltb_spec m (Z.of_nat (s + 0)));
      cbn [andb]; try ring. exfalso. lia.
  - fold (Qsum (map f (map Z.of_nat (seq (S s) n)))).
    rewrite IH, (H (Z.of_nat s)).
    replace (Z.of_nat (S n)) with (Z.of_nat n + 1)%Z by lia.
    rewrite float_succ.
    destruct (Z.eqb_spec (Z.of_nat s) m);
      destruct (Z.leb_spec (Z.of_nat (S s)) m);
      destruct (Z.ltb_spec m (Z.of_nat (S s + n)));
      destruct (Z.leb_spec (Z.of_nat s) m);
      destruct (Z.ltb_spec m (Z.of_nat (s + S n)));
      cbn [andb]; try ring; exfalso; lia.
Qed.

Lemma vertical_widths_sum (spec : WindowSpec) :
  (0 <= num_vertical_bars spec)%Z ->
  Qsum (map rect_w (map (vbar_rect spec) (Py.range (num_vertical_bars spec))))
  == vertical_widths_total spec.
Proof.
  intro HN. rewrite map_map. unfold vertical_widths_total, Py.range.
  pose proof (Z.div_mod (num_vertical_bars spec) 2 ltac:(lia)) as Hdm.
  pose proof (Z.mod_pos_bound (num_vertical_bars spec) 2 ltac:(lia)) as Hmb.
  destruct (Z.eqb_spec (num_vertical_bars spec mod 2) 1) as [Hodd|Hev].
  - rewrite (Qsum_one_special _ (resolve_center_width spec)
               (sash_bar_width_mm spec) (num_vertical_bars spec / 2)).
    + rewrite Nat.add_0_l, Z2Nat.id by exact HN.
      destruct (Z.leb_spec (Z.of_nat 0) (num_vertical_bars spec / 2));
        destruct (Z.ltb_spec (num_vertical_bars spec / 2)
                             (num_vertical_bars spec));
        cbn [andb]; try reflexivity; exfalso; lia.
    + intro i. unfold vbar_rect. cbn [rect_w].
      rewrite Hodd. cbn [Z.eqb Pos.eqb andb]. reflexivity.
  - rewrite (Qsum_constant _ (sash_bar_width_mm spec)).
    + rewrite length_map, length_seq, Z2Nat.id by exact HN. ring.
    + intro i. unfold vbar_rect. cbn [rect_w].
      assert ((num_vertical_bars spec mod 2 =? 1)%Z = false) as ->
          by (apply Z.eqb_neq; exact Hev).
      reflexivity.
Qed.

(** C6, as stated, fails on the floats of the program: for a frame of 70 in
    a height of 1400, an arch of 250 and two bars of 35 the span [T] is
    1010, and the float [g] of line 152 is not 940/3, so that
    [3 * g + 2 * 35] is not [T]. *)
Lemma gap_identity_inexact_in_floats :
  exists T g,
    FloatChecks.span_and_gap (FloatChecks.of_int 1400) (FloatChecks.of_int 70)
                             (FloatChecks.of_int 250) (FloatChecks.of_int 35) 2
    = (T, g) /\
    exists qT qg,
      FloatChecks.exact T = Some qT /\ FloatChecks.exact g = Some qg /\
      qT == 1010 /\
      ~ (Py.float (2 + 1) * qg + Py.float 2 * 35 == qT).
Proof.
  eexists. eexists. split; [vm_compute; reflexivity|].
  eexists. eexists. split; [vm_compute; reflexivity|].
  split; [vm_compute; reflexivity|].
  split; [vm_compute; reflexivity|].
  vm_compute. discriminate.
Qed.

(** C6, amended: with the lengths taken as exact rationals, on a valid
    spec
    - the centre lines of the [N] vertical bars divide the aperture width
      into [N + 1] parts of [inner_w / (N + 1)] each, and the [N + 1] gaps
      between the bars and the aperture edges plus the bar widths ([N] times
      [sash_bar_width], the centre width in place of one for odd [N]) are
      the aperture width;
    - on the [even] branch the same holds for the horizontal bars, the
      aperture height and [sash_bar_width];
    - on the [from_chord] branch [(N + 1) * g + N * sash_bar_width] is the
      span [T] for the gap [g] of line 152, the [N + 1] gaps below the
      chord bar plus [N] times [sash_bar_width] are [T], each of these gaps
      is [g] when [g >= 0], and for [g < 0] all of them are 0 but the last,
      which is [(N + 1) * g]. *)
Theorem bar_spacing_identity (spec : WindowSpec) (doc svg : list line) :
  generate_window_svg spec = Returned doc svg ->
  (List.length (vertical_gaps spec doc)
   = S (Z.to_nat (num_vertical_bars spec)) /\
   Forall (fun d => d == x_gap spec) (vertical_centre_gaps spec doc) /\
   Py.float (num_vertical_bars spec + 1) * x_gap spec == inner_w spec /\
   Qsum (vertical_gaps spec doc) + vertical_widths_total spec
   == inner_w spec) /\
  (chord_branch spec = false ->
   List.length (horizontal_gaps spec doc)
   = S (Z.to_nat (num_horizontal_bars spec)) /\
   Forall (fun d => d == y_gap spec) (horizontal_centre_gaps spec doc) /\
   Py.float (num_horizontal_bars spec + 1) * y_gap spec == inner_h spec /\
   Qsum (horizontal_gaps spec doc)
   + Py.float (num_horizontal_bars spec) * sash_bar_width_mm spec
   == inner_h spec) /\
  (chord_branch spec = true ->
   Py.float (num_horizontal_bars spec + 1) * gap_g spec
   + Py.float (num_horizontal_bars spec) * sash_bar_width_mm spec
   == span_T spec /\
   List.length (lower_gaps spec doc)
   = S (Z.to_nat (num_horizontal_bars spec)) /\
   Qsum (lower_gaps spec doc)
   + Py.float (num_horizontal_bars spec) * sash_bar_width_mm spec
   == span_T spec /\
   (0 <= gap_g spec ->
    Forall (fun d => d == gap_g spec) (lower_gaps spec doc)) /\
   (gap_g spec < 0 ->
    exists gs last,
      lower_gaps spec doc = gs ++ [last] /\
      Forall (fun d => d == 0) gs /\
      last == Py.float (num_horizontal_bars spec + 1) * gap_g spec)).
Proof.
  intro Hgen. apply returns_inv in Hgen.
  destruct Hgen as (Hv & _ & -> & _).
  pose proof Hv as (_ & _ & _ & _ & _ & _ & HNV & HNH & _).
  pose proof (x_gap_identity spec HNV) as Hxid.
  pose proof (y_gap_identity spec HNH) as Hyid.
  pose proof (gap_g_identity spec HNH) as Hgid.
  unfold vertical_gaps, horizontal_gaps, lower_gaps,
    vertical_centre_gaps, horizontal_centre_gaps.
  rewrite document_vertical_rects, document_horizontal_rects.
  unfold horizontal_layout.
  split; [|split].
  - split; [|split; [|split]].
    + unfold x_segments.
      now rewrite gaps_length, !length_map, range_length.
    + rewrite map_map.
      apply (gaps_shape_uniform
               (fun i => rect_x (vbar_rect spec i)
                         + rect_w (vbar_rect spec i) / 2)
               (fun _ => 0)
               (inner_x spec + x_gap spec) (x_gap spec) (x_gap spec));
        try assumption.
      * intro k. unfold vbar_rect. cbn [rect_x rect_w].
        rewrite float_succ, !half_eq. ring.
      * intro k. ring.
      * ring.
      * rewrite float_succ in Hxid. lra.
    + exact Hxid.
    + rewrite <- (vertical_widths_sum spec HNV), <- x_segments_widths,
        gaps_sum. ring.
  - intros ->. split; [|split; [|split]].
    + unfold y_segments.
      now rewrite gaps_length, !length_map, range_length.
    + rewrite map_map.
      apply (gaps_shape_uniform
               (fun j => rect_y (even_rect spec j)
                         + rect_h (even_rect spec j) / 2)
               (fun _ => 0)
               (inner_y spec + y_gap spec) (y_gap spec) (y_gap spec));
        try assumption.
      * intro k. unfold even_rect. cbn [rect_y rect_h].
        rewrite float_succ, !half_eq. ring.
      * intro k. ring.
      * ring.
      * rewrite float_succ in Hyid. lra.
    + exact Hyid.
    + assert (Qsum (map rect_h (map (even_rect spec)
                                    (Py.range (num_horizontal_bars spec))))
              == Py.float (num_horizontal_bars spec) * sash_bar_width_mm spec)
        as Hsum.
      { rewrite map_map, (Qsum_constant _ (sash_bar_width_mm spec)).
        - rewrite range_length, Z2Nat.id by exact HNH. reflexivity.
        - intro j. reflexivity. }
      rewrite <- Hsum, <- y_segments_heights, gaps_sum. ring.
  - intros ->. cbn [tl].
    assert (Qsum (map rect_h (map (lower_rect spec)
                                  (Py.range (num_horizontal_bars spec))))
            == Py.float (num_horizontal_bars spec) * sash_bar_width_mm spec)
      as Hsum.
    { rewrite map_map, (Qsum_constant _ (sash_bar_width_mm spec)).
      - rewrite range_length, Z2Nat.id by exact HNH. reflexivity.
      - intro j. reflexivity. }
    split; [|split; [|split; [|split]]].
    + exact Hgid.
    + unfold y_segments.
      now rewrite gaps_length, !length_map, range_length.
    + rewrite <- Hsum, <- y_segments_heights, gaps_sum. unfold span_T. ring.
    + apply lower_gaps_uniform, HNH.
    + intro Hneg.
      destruct (gap_used_cases spec) as [[Hpos _]|[_ Hu]]; [lra|].
      unfold y_segments. rewrite map_map. unfold Py.range.
      destruct (gaps_shape
                  (fun k => rect_y (lower_rect spec k))
                  (fun k => rect_h (lower_rect spec k))
                  (start_y spec) (sash_bar_width_mm spec) 0 (bottom_y spec)
                  (Z.to_nat (num_horizontal_bars spec)) 0 (start_y spec))
        as (gs & last & E & _ & Hall & Hlast).
      * intro k. unfold lower_rect. cbn [rect_y]. rewrite Hu. ring.
      * intro k. unfold lower_rect. cbn [rect_h]. ring.
      * change (Py.float (Z.of_nat 0)) with 0. ring.
      * exists gs, last. split; [exact E|]. split; [exact Hall|].
        rewrite Nat.add_0_l, Z2Nat.id in Hlast by exact HNH.
        unfold span_T in Hgid. rewrite Hlast. lra.
Qed.

Lemma bar_spacing_identity_witness :
  ((List.length (vertical_gaps spec_arch_example (document spec_arch_example))
    = 4%nat /\
    Forall (fun d => d == x_gap spec_arch_example)
           (vertical_centre_gaps spec_arch_example
                                 (document spec_arch_example)) /\
    Py.float 4 * x_gap spec_arch_example == 860 /\
    Qsum (vertical_gaps spec_arch_example (document spec_arch_example))
    + vertical_widths_total spec_arch_example
    == 860) /\
   Py.float 5 * gap_g spec_arch_example + Py.float 4 * 35
   == span_T spec_arch_example /\
   List.length (lower_gaps spec_arch_example (document spec_arch_example))
   = 5%nat /\
   Qsum (lower_gaps spec_arch_example (document spec_arch_example))
   + Py.float 4 * 35
   == span_T spec_arch_example /\
   Forall (fun d => d == gap_g spec_arch_example)
          (lower_gaps spec_arch_example (document spec_arch_example))) /\
  (List.length (horizontal_gaps spec_rect_example (document spec_rect_example))
   = 3%nat /\
   Forall (fun d => d == y_gap spec_rect_example)
          (horizontal_centre_gaps spec_rect_example
                                  (document spec_rect_example)) /\
   Py.float 3 * y_gap spec_rect_example == 1080 /\
   Qsum (horizontal_gaps spec_rect_example (document spec_rect_example))
   + Py.float 2 * 30
   == 1080) /\
  (exists gs last,
      lower_gaps spec_gap_in_tolerance (document spec_gap_in_tolerance)
      = gs ++ [last] /\
      Forall (fun d => d == 0) gs /\
      last == Py.float 2 * gap_g spec_gap_in_tolerance).
Proof.
  split; [|split].
  - refine (match bar_spacing_identity spec_arch_example
                    (document spec_arch_example) (document spec_arch_example)
                    _ with
            | conj HV (conj _ HC) =>
                match HC _ with
                | conj C1 (conj C2 (conj C3 (conj F _))) =>
                    conj HV (conj C1 (conj C2 (conj C3 (F _))))
                end
            end).
    + vm_compute. reflexivity.
    + vm_compute. reflexivity.
    + vm_compute. discriminate.
  - refine (match bar_spacing_identity spec_rect_example
                    (document spec_rect_example) (document spec_rect_example)
                    _ with
            | conj _ (conj HE _) => HE _
            end).
    + vm_compute. reflexivity.
    + vm_compute. reflexivity.
  - refine (match bar_spacing_identity spec_gap_in_tolerance
                    (document spec_gap_in_tolerance)
                    (document spec_gap_in_tolerance) _ with
            | conj _ (conj _ HC) =>
                match HC _ with
                | conj _ (conj _ (conj _ (conj _ G))) => G _
                end
            end).
    + vm_compute. reflexivity.
    + vm_compute. reflexivity.
    + vm_compute. reflexivity.
Defined.

(** ** The rectangular window as the arch of rise zero *)

Lemma zero_rise_mode_irrelevant (spec : WindowSpec) :
  arch_height_mm spec <= 0 ->
  generate_window_svg (with_mode spec mode_from_chord)
  = generate_window_svg (with_mode spec mode_even).
Proof.
  intro H. apply ltb_ge in H.
  unfold generate_window_svg, generate_window_svg_body, validate, layers,
    vertical_bars, horizontal_bars, resolve_center_width, with_mode.
  cbn [width_mm height_mm frame_width_mm num_vertical_bars
       num_horizontal_bars sash_bar_width_mm arch_height_mm
       center_vertical_bar_width_mm horizontal_distribution_mode
       frame_color glass_color bar_color].
  rewrite H, !andb_false_r. reflexivity.
Qed.

Lemma zero_rise_inner_path (spec : WindowSpec) :
  valid spec ->
  arch_height_mm spec == 0 ->
  _path_arch_inner (width_mm spec) (height_mm spec) (frame_width_mm spec)
                   (arch_height_mm spec)
  = [ MoveTo (inner_x spec) (inner_y spec + 0);
      ArcTo (inner_w spec / 2) 0 0 false true
            (inner_x spec + inner_w spec) (inner_y spec + 0);
      LineTo (inner_x spec + inner_w spec) (inner_y spec + inner_h spec);
      LineTo (inner_x spec) (inner_y spec + inner_h spec);
      ClosePath ].
Proof.
  intros Hv HA.
  pose proof (valid_inner_w _ Hv) as Hw. pose proof (valid_inner_h _ Hv) as Hh.
  pose proof Hv as (_ & _ & HF & _).
  unfold _path_arch_inner.
  assert (Py.max 0 (width_mm spec - 2 * frame_width_mm spec) = inner_w spec)
    as ->.
  { unfold Py.max. fold (inner_w spec). apply ltb_lt in Hw. now rewrite Hw. }
  assert (Py.max 0 (height_mm spec - 2 * frame_width_mm spec) = inner_h spec)
    as ->.
  { unfold Py.max. fold (inner_h spec). apply ltb_lt in Hh. now rewrite Hh. }
  assert (Py.max 0 (arch_height_mm spec - frame_width_mm spec) = 0) as ->.
  { unfold Py.max.
    assert (Py.ltb 0 (arch_height_mm spec - frame_width_mm spec) = false)
      as -> by (apply ltb_ge; lra).
    reflexivity. }
  reflexivity.
Qed.

(** C8: on a valid spec with [arch_height == 0] the clip region and the
    glass are the rectangle [inner_x, inner_y, inner_w, inner_h] and the
    frame is the rectangular compound path; the inner arch path built for
    that rise has the corners of this rectangle, an arc without rise, and
    the extents [inner_w] by [inner_h]; and the document in [from_chord]
    mode is the document in [even] mode, whose horizontal rectangles are the
    [num_horizontal_bars] evenly placed bars, with no chord bar. *)
Theorem zero_rise_is_rectangle (spec : WindowSpec) (doc svg : list line) :
  arch_height_mm spec == 0 ->
  generate_window_svg spec = Returned doc svg ->
  (nth_error doc 4
   = Some (ClipRect (inner_x spec) (inner_y spec) (inner_w spec) (inner_h spec))
   /\
   nth_error doc 7
   = Some (GlassRect (inner_x spec) (inner_y spec) (inner_w spec)
                     (inner_h spec) (glass_color spec))
   /\
   nth_error doc 8
   = Some (FramePath (_compound_frame_path_rect (width_mm spec)
                        (height_mm spec) (frame_width_mm spec))
                     (frame_color spec))) /\
  (let p := _path_arch_inner (width_mm spec) (height_mm spec)
                             (frame_width_mm spec) (arch_height_mm spec) in
   Forall2 point_eq (vertices p)
           (rect_corners (inner_x spec) (inner_y spec)
                         (inner_w spec) (inner_h spec)) /\
   Forall (fun ry => ry == 0) (arc_rises p) /\
   extent_w p == inner_w spec /\
   extent_h p == inner_h spec) /\
  (generate_window_svg (with_mode spec mode_from_chord)
   = generate_window_svg (with_mode spec mode_even) /\
   horizontal_rects doc
   = map (even_rect spec) (Py.range (num_horizontal_bars spec))).
Proof.
  intros HA Hgen. apply returns_inv in Hgen.
  destruct Hgen as (Hv & _ & -> & _).
  assert (Py.ltb 0 (arch_height_mm spec) = false) as Hlt
      by (apply ltb_ge; lra).
  pose proof (valid_inner_w _ Hv) as Hw. pose proof (valid_inner_h _ Hv) as Hh.
  split; [|split].
  - unfold document, layer_lines. rewrite Hlt. repeat split.
  - cbv zeta. rewrite (zero_rise_inner_path _ Hv HA).
    split; [|split; [|split]].
    + unfold vertices, rect_corners, point_eq. cbn [flat_map app].
      repeat constructor; cbn [fst snd]; ring.
    + unfold arc_rises. cbn [flat_map app]. repeat constructor.
    + unfold extent_w, vertices, maximum, minimum.
      cbn [flat_map app map fst fold_left].
      minmax_cases; lra.
    + unfold extent_h, vertices, maximum, minimum.
      cbn [flat_map app map snd fold_left].
      minmax_cases; lra.
  - split.
    + apply zero_rise_mode_irrelevant. lra.
    + rewrite document_horizontal_rects. unfold horizontal_layout, chord_branch.
      now rewrite Hlt, andb_false_r.
Qed.

Lemma zero_rise_is_rectangle_witness :
  (nth_error (document spec_rect_example) 4 = Some (ClipRect 60 60 680 1080)
   /\
   nth_error (document spec_rect_example) 7
   = Some (GlassRect 60 60 680 1080 "#e6f2ff")
   /\
   nth_error (document spec_rect_example) 8
   = Some (FramePath (_compound_frame_path_rect 800 1200 60) "#c7c7c7")) /\
  (let p := _path_arch_inner 800 1200 60 0 in
   Forall2 point_eq (vertices p) (rect_corners 60 60 680 1080) /\
   Forall (fun ry => ry == 0) (arc_rises p) /\
   extent_w p == 680 /\
   extent_h p == 1080) /\
  (generate_window_svg (with_mode spec_rect_example mode_from_chord)
   = generate_window_svg (with_mode spec_rect_example mode_even) /\
   horizontal_rects (document spec_rect_example)
   = map (even_rect spec_rect_example) (Py.range 2)).
Proof.
  apply (zero_rise_is_rectangle spec_rect_example (document spec_rect_example)
           (document spec_rect_example)).
  - reflexivity.
  - vm_compute. reflexivity.
Defined.

(** * Further properties of the generator *)

(** ** The layers of the document *)

Lemma forallb_map_const {A} (f : A -> line) (p : line -> bool) (xs : list A) :
  (forall x, p (f x) = true) -> forallb p (map f xs) = true.
Proof.
  intro H. induction xs as [|x xs IH]; simpl; [reflexivity|].
  now rewrite H, IH.
Qed.

Lemma horizontal_lines_bars (spec : WindowSpec) :
  forallb is_horizontal_bar (horizontal_lines spec) = true.
Proof.
  unfold horizontal_lines.
  destruct (chord_branch spec); simpl;
    [destruct (0 <? _)%Z; simpl|];
    try apply forallb_map_const; reflexivity.
Qed.

Lemma horizontal_lines_length (spec : WindowSpec) :
  (0 <= num_horizontal_bars spec)%Z ->
  List.length (horizontal_lines spec)
  = (Z.to_nat (num_horizontal_bars spec)
     + (if chord_branch spec then 1 else 0))%nat.
Proof.
  intro Hn. unfold horizontal_lines.
  destruct (chord_branch spec); simpl.
  - destruct (Z.ltb_spec 0 (num_horizontal_bars spec)) as [H|H].
    + rewrite length_map, range_length. lia.
    + simpl. lia.
  - rewrite length_map, range_length. lia.
Qed.

(** The document that is returned has a fixed order of layers: the header
    and the clip definition, then the glass, then the frame, then one group
    that holds nothing but bar rectangles, the vertical ones first.  The
    glass shows the very region of the clip definition, and the optional
    glazing path is never written when it is unset. *)
Theorem document_layering (spec : WindowSpec) (doc svg : list line) :
  generate_window_svg spec = Returned doc svg ->
  exists clip glass frame vbars hbars,
    doc = [ XmlDecl; SvgOpen (width_mm spec) (height_mm spec); DefsOpen;
            ClipPathOpen; clip; ClipPathClose; DefsClose;
            glass; FramePath frame (frame_color spec); GroupOpen ]
          ++ (vbars ++ hbars) ++ [GroupClose; SvgClose] /\
    same_region clip glass (glass_color spec) /\
    forallb is_vertical_bar vbars = true /\
    forallb is_horizontal_bar hbars = true /\
    List.length (vbars ++ hbars) = bar_count spec /\
    svg = doc.
Proof.
  intro Hgen. apply returns_inv in Hgen.
  destruct Hgen as (Hv & _ & -> & ->).
  pose proof Hv as (_ & _ & _ & _ & _ & _ & HNV & HNH & _).
  unfold document, layer_lines.
  destruct (Py.ltb 0 (arch_height_mm spec)).
  - eexists. eexists. eexists.
    exists (map (vbar_line spec) (Py.range (num_vertical_bars spec))).
    exists (horizontal_lines spec).
    split; [cbn [app]; rewrite <- app_assoc; reflexivity|].
    split; [left; eexists; split; reflexivity|].
    split; [apply forallb_map_const; reflexivity|].
    split; [apply horizontal_lines_bars|].
    split; [|reflexivity].
    rewrite length_app, length_map, range_length,
      (horizontal_lines_length _ HNH).
    unfold bar_count. lia.
  - eexists. eexists. eexists.
    exists (map (vbar_line spec) (Py.range (num_vertical_bars spec))).
    exists (horizontal_lines spec).
    split; [cbn [app]; rewrite <- app_assoc; reflexivity|].
    split; [right; do 4 eexists; split; reflexivity|].
    split; [apply forallb_map_const; reflexivity|].
    split; [apply horizontal_lines_bars|].
    split; [|reflexivity].
    rewrite length_app, length_map, range_length,
      (horizontal_lines_length _ HNH).
    unfold bar_count. lia.
Qed.

Lemma document_layering_witness :
  exists clip glass frame vbars hbars,
    document spec_arch_example
    = [ XmlDecl; SvgOpen 1000 1400; DefsOpen;
        ClipPathOpen; clip; ClipPathClose; DefsClose;
        glass; FramePath frame "#c7c7c7"; GroupOpen ]
      ++ (vbars ++ hbars) ++ [GroupClose; SvgClose] /\
    same_region clip glass "#e6f2ff" /\
    forallb is_vertical_bar vbars = true /\
    forallb is_horizontal_bar hbars = true /\
    List.length (vbars ++ hbars) = 8%nat /\
    document spec_arch_example = document spec_arch_example.
Proof.
  apply (document_layering spec_arch_example (document spec_arch_example)
           (document spec_arch_example)).
  vm_compute. reflexivity.
Defined.

(** After the checks of lines 70-81 the generator can only fail on the
    [from_chord] branch with bars below the chord bar: in [even] mode, for a
    window without arch, and without horizontal bars a valid spec always
    yields a document. *)
Theorem valid_spec_returns_outside_chord_layout (spec : WindowSpec) :
  valid spec ->
  horizontal_distribution_mode spec = mode_even \/
  arch_height_mm spec <= 0 \/
  (num_horizontal_bars spec <= 0)%Z ->
  exists doc, generate_window_svg spec = Returned doc doc.
Proof.
  intros Hv Hcase. exists (document spec). apply (returns_intro _ Hv).
  intros Hm HA Hn.
  destruct Hcase as [He | [H0 | H0]].
  - rewrite He in Hm. discriminate Hm.
  - lra.
  - lia.
Qed.

Lemma valid_spec_returns_outside_chord_layout_witness :
  exists doc, generate_window_svg spec_wide_bar = Returned doc doc.
Proof.
  apply (valid_spec_returns_outside_chord_layout spec_wide_bar).
  - unfold valid. cbn. repeat split; try reflexivity; try discriminate.
    left. reflexivity.
  - left. reflexivity.
Defined.

(** ** The glazing shape and the hole of the frame *)

(** The two contours of the rectangular frame path are the outer rectangle
    and the rectangle inset by the frame width on every side, for all
    arguments. *)
Lemma compound_rect_contours (W H FW : Q) :
  Forall2 point_eq (vertices (firstn 5 (_compound_frame_path_rect W H FW)))
          (rect_corners 0 0 W H) /\
  Forall2 point_eq (vertices (skipn 5 (_compound_frame_path_rect W H FW)))
          (rect_corners FW FW (W - 2 * FW) (H - 2 * FW)).
Proof.
  unfold _compound_frame_path_rect, vertices, rect_corners, point_eq.
  cbn [firstn skipn flat_map app].
  split; repeat constructor; cbn [fst snd]; ring.
Qed.

(** The hole of the frame is the region of the clip definition and of the
    glass.  With an arch the frame path is the outer arch path followed by
    the very path of the clip definition; without one its second contour has
    the corners of the clip rectangle and its first contour those of the
    outer rectangle. *)
Theorem frame_hole_is_glazing (spec : WindowSpec) (doc svg : list line) :
  generate_window_svg spec = Returned doc svg ->
  (0 < arch_height_mm spec ->
   exists d,
     nth_error doc 4 = Some (ClipPathD (Some d)) /\
     nth_error doc 7 = Some (GlassPath (Some d) (glass_color spec)) /\
     nth_error doc 8
     = Some (FramePath (_path_arch_outer (width_mm spec) (height_mm spec)
                                         (arch_height_mm spec) ++ d)
                       (frame_color spec))) /\
  (arch_height_mm spec <= 0 ->
   exists frame,
     nth_error doc 4
     = Some (ClipRect (inner_x spec) (inner_y spec)
                      (inner_w spec) (inner_h spec)) /\
     nth_error doc 8 = Some (FramePath frame (frame_color spec)) /\
     Forall2 point_eq (vertices (firstn 5 frame))
             (rect_corners 0 0 (width_mm spec) (height_mm spec)) /\
     Forall2 point_eq (vertices (skipn 5 frame))
             (rect_corners (inner_x spec) (inner_y spec)
                           (inner_w spec) (inner_h spec))).
Proof.
  intro Hgen. apply returns_inv in Hgen.
  destruct Hgen as (_ & _ & -> & _).
  unfold document, layer_lines. split; intro HA.
  - apply ltb_lt in HA. rewrite HA.
    eexists. repeat split.
  - apply ltb_ge in HA. rewrite HA.
    eexists. split; [reflexivity|]. split; [reflexivity|].
    apply compound_rect_contours.
Qed.

Lemma frame_hole_is_glazing_witness :
  (0 < 250 ->
   exists d,
     nth_error (document spec_arch_example) 4 = Some (ClipPathD (Some d)) /\
     nth_error (document spec_arch_example) 7
     = Some (GlassPath (Some d) "#e6f2ff") /\
     nth_error (document spec_arch_example) 8
     = Some (FramePath (_path_arch_outer 1000 1400 250 ++ d) "#c7c7c7")) /\
  (250 <= 0 ->
   exists frame,
     nth_error (document spec_arch_example) 4
     = Some (ClipRect (inner_x spec_arch_example) (inner_y spec_arch_example)
                      (inner_w spec_arch_example) (inner_h spec_arch_example))
     /\
     nth_error (document spec_arch_example) 8
     = Some (FramePath frame "#c7c7c7") /\
     Forall2 point_eq (vertices (firstn 5 frame))
             (rect_corners 0 0 1000 1400) /\
     Forall2 point_eq (vertices (skipn 5 frame))
             (rect_corners (inner_x spec_arch_example)
                           (inner_y spec_arch_example)
                           (inner_w spec_arch_example)
                           (inner_h spec_arch_example))).
Proof.
  apply (frame_hole_is_glazing spec_arch_example (document spec_arch_example)
           (document spec_arch_example)).
  vm_compute. reflexivity.
Defined.

(** On a valid spec with an arch the inner arch path spans the aperture box:
    its sides are [inner_x] and [inner_x + inner_w], its bottom is
    [inner_y + inner_h], and its arc, of rise [a], springs from height [s]
    with the crown [s - a] on the top edge [inner_y].  For
    [frame_width <= arch_height] the arc springs from the height of the
    outer arc, with the rise reduced by the frame width; for an arch no
    higher than the frame is wide the arc has no rise and the aperture is a
    rectangle.  The springline lies within the aperture exactly when
    [arch_height <= height - frame_width]. *)
Theorem inner_arch_geometry (spec : WindowSpec) :
  valid spec ->
  0 < arch_height_mm spec ->
  exists s a,
    _path_arch_inner (width_mm spec) (height_mm spec) (frame_width_mm spec)
                     (arch_height_mm spec)
    = [ MoveTo (inner_x spec) s;
        ArcTo (inner_w spec / 2) a 0 false true (inner_x spec + inner_w spec) s;
        LineTo (inner_x spec + inner_w spec) (inner_y spec + inner_h spec);
        LineTo (inner_x spec) (inner_y spec + inner_h spec);
        ClosePath ] /\
    0 <= a /\
    s - a == inner_y spec /\
    (frame_width_mm spec <= arch_height_mm spec ->
     s == arch_height_mm spec /\
     a == arch_height_mm spec - frame_width_mm spec) /\
    (arch_height_mm spec <= frame_width_mm spec ->
     s == inner_y spec /\ a == 0) /\
    (s <= inner_y spec + inner_h spec
     <-> arch_height_mm spec <= height_mm spec - frame_width_mm spec).
Proof.
  intros Hv HA.
  pose proof (valid_inner_w _ Hv) as Hw. pose proof (valid_inner_h _ Hv) as Hh.
  pose proof Hv as (_ & _ & HF & _).
  exists (inner_y spec + arch_inner spec), (arch_inner spec).
  split.
  { unfold _path_arch_inner.
    assert (Py.max 0 (width_mm spec - 2 * frame_width_mm spec) = inner_w spec)
      as ->.
    { unfold Py.max. fold (inner_w spec). apply ltb_lt in Hw. now rewrite Hw. }
    assert (Py.max 0 (height_mm spec - 2 * frame_width_mm spec) = inner_h spec)
      as ->.
    { unfold Py.max. fold (inner_h spec). apply ltb_lt in Hh. now rewrite Hh. }
    reflexivity. }
  unfold arch_inner, inner_y, inner_h in *.
  destruct (max_spec 0 (arch_height_mm spec - frame_width_mm spec))
    as [[Hm ->]|[Hm ->]].
  - split; [lra|]. split; [ring|].
    split; [intros _; split; ring|]. split; [intro; lra|].
    split; intro; lra.
  - split; [lra|]. split; [ring|].
    split; [intro; split; lra|]. split; [intros _; split; ring|].
    split; intro; lra.
Qed.

Lemma inner_arch_geometry_witness :
  exists s a,
    _path_arch_inner 1000 1400 70 250
    = [ MoveTo (inner_x spec_arch_example) s;
        ArcTo (inner_w spec_arch_example / 2) a 0 false true
              (inner_x spec_arch_example + inner_w spec_arch_example) s;
        LineTo (inner_x spec_arch_example + inner_w spec_arch_example)
               (inner_y spec_arch_example + inner_h spec_arch_example);
        LineTo (inner_x spec_arch_example)
               (inner_y spec_arch_example + inner_h spec_arch_example);
        ClosePath ] /\
    0 <= a /\
    s - a == inner_y spec_arch_example /\
    (70 <= 250 -> s == 250 /\ a == 250 - 70) /\
    (250 <= 70 -> s == inner_y spec_arch_example /\ a == 0) /\
    (s <= inner_y spec_arch_example + inner_h spec_arch_example
     <-> 250 <= 1400 - 70).
Proof.
  apply (inner_arch_geometry spec_arch_example).
  - unfold valid. cbn. repeat split; try reflexivity; try discriminate.
    right. reflexivity.
  - reflexivity.
Defined.

(** Whatever its arguments, the inner arch path is never turned inside out:
    its right side is not left of its left side, its bottom is not above its
    top edge [frame_w], the arc has no negative radius; and once the frame
    takes the whole width the path has no width left. *)
Theorem inner_arch_never_inverted (width height frame_w arch_h : Q) :
  exists x_right y_bottom s rx ry,
    _path_arch_inner width height frame_w arch_h
    = [ MoveTo frame_w s; ArcTo rx ry 0 false true x_right s;
        LineTo x_right y_bottom; LineTo frame_w y_bottom; ClosePath ] /\
    frame_w <= x_right /\ frame_w <= y_bottom /\ frame_w <= s /\
    0 <= rx /\ 0 <= ry /\
    (width <= 2 * frame_w -> x_right == frame_w /\ rx == 0).
Proof.
  unfold _path_arch_inner.
  pose proof (max_0_nonneg (width - 2 * frame_w)) as Hw.
  pose proof (max_0_nonneg (height - 2 * frame_w)) as Hh.
  pose proof (max_0_nonneg (arch_h - frame_w)) as Ha.
  do 5 eexists. split; [reflexivity|].
  split; [lra|]. split; [lra|]. split; [lra|].
  split; [rewrite half_eq; lra|]. split; [lra|].
  intro Hc.
  destruct (max_spec 0 (width - 2 * frame_w)) as [[Hm E]|[Hm E]];
    rewrite E; [lra|]. split; [ring | field].
Qed.

(** ** Overlap of horizontal bars *)

Lemma stacked_seq (f : Z -> rect) (n m : nat) :
  stacked (map f (map Z.of_nat (seq m n)))
  <-> (forall i : nat, (m <= i)%nat -> (i + 1 < m + n)%nat ->
        rect_y (f (Z.of_nat i)) + rect_h (f (Z.of_nat i))
        <= rect_y (f (Z.of_nat (i + 1)))).
Proof.
  revert m. induction n as [|n IH]; intro m.
  - simpl. split; [intros _ i H1 H2; lia | auto].
  - cbn [seq map stacked]. rewrite IH. destruct n as [|n].
    + cbn [seq map]. split;
        [intros _ i H1 H2; lia
        | intros _; split; [exact I | intros i H1 H2; lia]].
    + cbn [seq map]. split.
      * intros [H0 Hr] i H1 H2.
        destruct (Nat.eq_dec i m) as [->|Hne].
        -- replace (m + 1)%nat with (S m) by lia. exact H0.
        -- apply Hr; lia.
      * intro H. split.
        -- replace (S m) with (m + 1)%nat by lia. apply H; lia.
        -- intros i H1 H2. apply H; lia.
Qed.

Lemma stacked_range (f : Z -> rect) (n : Z) :
  stacked (map f (Py.range n))
  <-> (forall k : Z, (0 <= k)%Z -> (k + 1 < n)%Z ->
        rect_y (f k) + rect_h (f k) <= rect_y (f (k + 1)%Z)).
Proof.
  unfold Py.range. rewrite stacked_seq. split.
  - intros H k H1 H2. specialize (H (Z.to_nat k) ltac:(lia) ltac:(lia)).
    rewrite Z2Nat.id in H by lia.
    replace (Z.of_nat (Z.to_nat k + 1)) with (k + 1)%Z in H by lia. exact H.
  - intros H i H1 H2.
    replace (Z.of_nat (i + 1)) with (Z.of_nat i + 1)%Z by lia.
    apply H; lia.
Qed.

(** The horizontal bars of a document never overlap on the [from_chord]
    branch: the chord bar and the bars below it follow each other downward.
    On the other branch they do so exactly when there are fewer than two
    bars or [sash_bar_width] is at most the distance [y_gap] of their
    centre lines; wider bars are written overlapping. *)
Theorem horizontal_bars_stacked (spec : WindowSpec) (doc svg : list line) :
  generate_window_svg spec = Returned doc svg ->
  (chord_branch spec = true -> stacked (horizontal_rects doc)) /\
  (chord_branch spec = false ->
   (stacked (horizontal_rects doc)
    <-> (num_horizontal_bars spec <= 1)%Z
        \/ sash_bar_width_mm spec <= y_gap spec)).
Proof.
  intro Hgen. apply returns_inv in Hgen.
  destruct Hgen as (Hv & _ & -> & _).
  pose proof Hv as (_ & _ & HF & _ & _ & _ & _ & HNH & HB & _).
  rewrite document_horizontal_rects. unfold horizontal_layout.
  pose proof (max_r_0_nonneg (gap_g spec)) as Hg. fold (gap_used spec) in Hg.
  split; intros ->.
  - cbn [stacked]. split.
    + destruct (Py.range (num_horizontal_bars spec)) as [|k ks] eqn:E;
        [exact I|].
      cbn [map]. unfold chord_rect, lower_rect. cbn [rect_y rect_h].
      assert (In k (Py.range (num_horizontal_bars spec))) as Hin
          by (rewrite E; left; reflexivity).
      apply range_In in Hin.
      assert (0 <= Py.float k) by (apply float_nonneg; lia).
      assert (0 <= Py.float k * (sash_bar_width_mm spec + gap_used spec))
        by (apply Qmult_le_0_compat; lra).
      unfold start_y. lra.
    + apply stacked_range. intros k H1 H2.
      unfold lower_rect. cbn [rect_y rect_h].
      rewrite float_succ. nra.
  - rewrite stacked_range. split.
    + intro H.
      destruct (Z.leb_spec (num_horizontal_bars spec) 1) as [Hn|Hn];
        [left; exact Hn | right].
      specialize (H 0%Z ltac:(lia) ltac:(lia)).
      unfold even_rect in H. cbn [rect_y rect_h] in H.
      change (Py.float (0 + 1 + 1)) with 2 in H.
      change (Py.float (0 + 1)) with 1 in H.
      rewrite half_eq in H. lra.
    + intros [Hn|Hw] k H1 H2; [lia|].
      unfold even_rect. cbn [rect_y rect_h].
      rewrite (float_succ (k + 1)), half_eq. nra.
Qed.

Lemma horizontal_bars_stacked_witness :
  (chord_branch spec_arch_example = true ->
   stacked (horizontal_rects (document spec_arch_example))) /\
  (chord_branch spec_arch_example = false ->
   (stacked (horizontal_rects (document spec_arch_example))
    <-> (4 <= 1)%Z \/ 35 <= y_gap spec_arch_example)).
Proof.
  apply (horizontal_bars_stacked spec_arch_example (document spec_arch_example)
           (document spec_arch_example)).
  vm_compute. reflexivity.
Defined.

(** ** Symmetry of the evenly placed bars *)

Lemma float_add (n m : Z) : Py.float (n + m) == Py.float n + Py.float m.
Proof. unfold Py.float. rewrite inject_Z_plus. reflexivity. Qed.

Lemma float_eq (n m : Z) : n = m -> Py.float n == Py.float m.
Proof. intros ->. reflexivity. Qed.

Lemma vbar_width_mirror (spec : WindowSpec) (i : Z) :
  rect_w (vbar_rect spec (num_vertical_bars spec - 1 - i))
  = rect_w (vbar_rect spec i).
Proof.
  unfold vbar_rect. cbn [rect_w].
  destruct (Z.eqb_spec (num_vertical_bars spec mod 2) 1) as [Hodd|Hev];
    [|reflexivity].
  cbn [andb].
  destruct (Z.eqb_spec i (num_vertical_bars spec / 2)) as [Hi|Hi];
    destruct (Z.eqb_spec (num_vertical_bars spec - 1 - i)
                         (num_vertical_bars spec / 2)) as [Hj|Hj];
    try reflexivity; exfalso;
    pose proof (Z.div_mod (num_vertical_bars spec) 2 ltac:(lia)); lia.
Qed.

(** The vertical bars of a document are mirror images of each other about
    the vertical centre line of the aperture: the bar at position [k] from
    the left and the bar at position [k] from the right have the same width,
    and the right edge of the one is the reflection of the left edge of the
    other.  For an odd count the middle bar, of the resolved centre width,
    is centred on that line. *)
Theorem vertical_bars_symmetric (spec : WindowSpec) (doc svg : list line) :
  generate_window_svg spec = Returned doc svg ->
  (forall (k : nat) (r : rect),
     nth_error (vertical_rects doc) k = Some r ->
     exists r',
       nth_error (vertical_rects doc)
                 (Z.to_nat (num_vertical_bars spec) - 1 - k) = Some r' /\
       rect_w r' = rect_w r /\
       rect_x r' + rect_w r'
       == inner_x spec + (inner_x spec + inner_w spec) - rect_x r) /\
  ((num_vertical_bars spec mod 2 = 1)%Z ->
   exists r,
     nth_error (vertical_rects doc) (Z.to_nat (num_vertical_bars spec / 2))
     = Some r /\
     rect_w r = resolve_center_width spec /\
     rect_x r + rect_w r / 2 == inner_x spec + inner_w spec / 2).
Proof.
  intro Hgen. apply returns_inv in Hgen.
  destruct Hgen as (Hv & _ & -> & _).
  pose proof Hv as (_ & _ & _ & _ & _ & _ & HNV & _).
  pose proof (x_gap_identity spec HNV) as Hid.
  rewrite document_vertical_rects. split.
  - intros k r Hk.
    assert (k < Z.to_nat (num_vertical_bars spec))%nat as Hlt.
    { assert (nth_error (map (vbar_rect spec)
                           (Py.range (num_vertical_bars spec))) k <> None)
        as Hs by congruence.
      apply nth_error_Some in Hs.
      now rewrite length_map, range_length in Hs. }
    rewrite nth_error_map, range_nth in Hk by exact Hlt.
    injection Hk as <-.
    exists (vbar_rect spec (num_vertical_bars spec - 1 - Z.of_nat k)).
    split; [|split].
    + rewrite nth_error_map, range_nth by lia. cbn. do 2 f_equal. lia.
    + apply vbar_width_mirror.
    + pose proof (vbar_width_mirror spec (Z.of_nat k)) as Hw.
      unfold vbar_rect in *. cbn [rect_x rect_w] in *.
      rewrite Hw.
      replace (num_vertical_bars spec - 1 - Z.of_nat k + 1)%Z
        with (num_vertical_bars spec - Z.of_nat k)%Z by lia.
      assert (Py.float (num_vertical_bars spec - Z.of_nat k)
              + Py.float (Z.of_nat k + 1)
              == Py.float (num_vertical_bars spec + 1)) as Hsum.
      { rewrite <- float_add. apply float_eq. lia. }
      rewrite !half_eq. nra.
  - intro Hodd.
    pose proof (Z.div_mod (num_vertical_bars spec) 2 ltac:(lia)) as Hdm.
    exists (vbar_rect spec (num_vertical_bars spec / 2)).
    split; [|split].
    + rewrite nth_error_map, range_nth by lia. cbn. do 2 f_equal. lia.
    + unfold vbar_rect. cbn [rect_w].
      rewrite Hodd, !Z.eqb_refl. reflexivity.
    + unfold vbar_rect. cbn [rect_x rect_w].
      assert (Py.float (num_vertical_bars spec / 2 + 1)
              + Py.float (num_vertical_bars spec / 2 + 1)
              == Py.float (num_vertical_bars spec + 1)) as Hsum.
      { rewrite <- float_add. apply float_eq. lia. }
      rewrite !half_eq. nra.
Qed.

Lemma vertical_bars_symmetric_witness :
  (forall (k : nat) (r : rect),
     nth_error (vertical_rects (document spec_rect_example)) k = Some r ->
     exists r',
       nth_error (vertical_rects (document spec_rect_example))
                 (Z.to_nat 3 - 1 - k) = Some r' /\
       rect_w r' = rect_w r /\
       rect_x r' + rect_w r' == 60 + (60 + 680) - rect_x r) /\
  ((3 mod 2 = 1)%Z ->
   exists r,
     nth_error (vertical_rects (document spec_rect_example))
               (Z.to_nat (3 / 2)) = Some r /\
     rect_w r = 50 /\
     rect_x r + rect_w r / 2 == 60 + 680 / 2).
Proof.
  apply (vertical_bars_symmetric spec_rect_example (document spec_rect_example)
           (document spec_rect_example)).
  vm_compute. reflexivity.
Defined.

(** On the branch that places the horizontal bars by centre lines they are
    mirror images of each other about the horizontal centre line of the
    aperture. *)
Theorem even_horizontal_bars_symmetric
        (spec : WindowSpec) (doc svg : list line) :
  generate_window_svg spec = Returned doc svg ->
  chord_branch spec = false ->
  forall (k : nat) (r : rect),
    nth_error (horizontal_rects doc) k = Some r ->
    exists r',
      nth_error (horizontal_rects doc)
                (Z.to_nat (num_horizontal_bars spec) - 1 - k) = Some r' /\
      rect_h r' = rect_h r /\
      rect_y r' + rect_h r'
      == inner_y spec + (inner_y spec + inner_h spec) - rect_y r.
Proof.
  intros Hgen Hc. apply returns_inv in Hgen.
  destruct Hgen as (Hv & _ & -> & _).
  pose proof Hv as (_ & _ & _ & _ & _ & _ & _ & HNH & _).
  pose proof (y_gap_identity spec HNH) as Hid.
  rewrite document_horizontal_rects. unfold horizontal_layout. rewrite Hc.
  intros k r Hk.
  assert (k < Z.to_nat (num_horizontal_bars spec))%nat as Hlt.
  { assert (nth_error (map (even_rect spec)
                         (Py.range (num_horizontal_bars spec))) k <> None)
      as Hs by congruence.
    apply nth_error_Some in Hs.
    now rewrite length_map, range_length in Hs. }
  rewrite nth_error_map, range_nth in Hk by exact Hlt.
  injection Hk as <-.
  exists (even_rect spec (num_horizontal_bars spec - 1 - Z.of_nat k)).
  split; [|split].
  - rewrite nth_error_map, range_nth by lia. cbn. do 2 f_equal. lia.
  - reflexivity.
  - unfold even_rect. cbn [rect_y rect_h].
    replace (num_horizontal_bars spec - 1 - Z.of_nat k + 1)%Z
      with (num_horizontal_bars spec - Z.of_nat k)%Z by lia.
    assert (Py.float (num_horizontal_bars spec - Z.of_nat k)
            + Py.float (Z.of_nat k + 1)
            == Py.float (num_horizontal_bars spec + 1)) as Hsum.
    { rewrite <- float_add. apply float_eq. lia. }
    rewrite !half_eq. nra.
Qed.

Lemma even_horizontal_bars_symmetric_witness :
  exists r',
    nth_error (horizontal_rects (document spec_rect_example))
              (Z.to_nat 2 - 1 - 0) = Some r' /\
    rect_h r' = rect_h (even_rect spec_rect_example 0) /\
    rect_y r' + rect_h r'
    == 60 + (60 + 1080) - rect_y (even_rect spec_rect_example 0).
Proof.
  apply (even_horizontal_bars_symmetric spec_rect_example
           (document spec_rect_example) (document spec_rect_example)).
  - vm_compute. reflexivity.
  - reflexivity.
  - vm_compute. reflexivity.
Defined.

(** ** Vertical bars and the aperture *)

Lemma x_gap_pos (spec : WindowSpec) : valid spec -> 0 < x_gap spec.
Proof.
  intro Hv. pose proof (valid_inner_w _ Hv) as Hw.
  destruct Hv as (_ & _ & _ & _ & _ & _ & HNV & _).
  unfold x_gap. apply Qlt_shift_div_l; [apply float_pos; lia | lra].
Qed.

Lemma vbar_rect_within (spec : WindowSpec) (i : Z) :
  valid spec ->
  (0 <= i < num_vertical_bars spec)%Z ->
  (within_aperture_x spec (vbar_rect spec i)
   <-> rect_w (vbar_rect spec i) <= 2 * (Py.float (i + 1) * x_gap spec) /\
       rect_w (vbar_rect spec i)
       <= 2 * (Py.float (num_vertical_bars spec - i) * x_gap spec)).
Proof.
  intros Hv Hi.
  pose proof Hv as (_ & _ & _ & _ & _ & _ & HNV & _).
  pose proof (x_gap_identity spec HNV) as Hid.
  assert (Py.float (num_vertical_bars spec - i) + Py.float (i + 1)
          == Py.float (num_vertical_bars spec + 1)) as Hsum.
  { rewrite <- float_add. apply float_eq. lia. }
  unfold within_aperture_x, vbar_rect. cbn [rect_x rect_w].
  match goal with
  | |- context [if ?c then ?a else ?b] =>
      generalize (if c then a else b); intro w
  end.
  rewrite !half_eq. split; intros [H1 H2]; split; nra.
Qed.

(** The vertical bars of a document all lie in
    [[inner_x, inner_x + inner_w]] exactly when, for two or more bars,
    [sash_bar_width] is at most twice the distance [x_gap] of the centre
    lines and, for an odd count, the resolved centre width is at most
    [inner_w].  No check of the generator enforces this. *)
Theorem vertical_bars_within_iff (spec : WindowSpec) (doc svg : list line) :
  generate_window_svg spec = Returned doc svg ->
  (Forall (within_aperture_x spec) (vertical_rects doc) <-> vbars_fit spec).
Proof.
  intro Hgen. apply returns_inv in Hgen.
  destruct Hgen as (Hv & _ & -> & _).
  pose proof Hv as (_ & _ & _ & _ & _ & _ & HNV & _).
  pose proof (x_gap_identity spec HNV) as Hid.
  pose proof (x_gap_pos _ Hv) as Hx.
  pose proof (Z.div_mod (num_vertical_bars spec) 2 ltac:(lia)) as Hdm.
  pose proof (Z.mod_pos_bound (num_vertical_bars spec) 2 ltac:(lia)) as Hmb.
  rewrite document_vertical_rects, Forall_forall. unfold vbars_fit.
  split.
  - intro Hall. split.
    + intro H2.
      assert (In (vbar_rect spec 0)
                 (map (vbar_rect spec) (Py.range (num_vertical_bars spec))))
        as Hin by (apply in_map, range_In; lia).
      apply Hall, (vbar_rect_within _ _ Hv) in Hin; [|lia].
      destruct Hin as [Hin _]. unfold vbar_rect in Hin. cbn [rect_w] in Hin.
      assert ((0 =? num_vertical_bars spec / 2)%Z = false) as E
          by (apply Z.eqb_neq; lia).
      rewrite E, andb_false_r in Hin.
      change (Py.float (0 + 1)) with 1 in Hin. lra.
    + intro Hodd.
      assert (In (vbar_rect spec (num_vertical_bars spec / 2))
                 (map (vbar_rect spec) (Py.range (num_vertical_bars spec))))
        as Hin by (apply in_map, range_In; lia).
      apply Hall, (vbar_rect_within _ _ Hv) in Hin; [|lia].
      destruct Hin as [Hin _]. unfold vbar_rect in Hin. cbn [rect_w] in Hin.
      rewrite Hodd, !Z.eqb_refl in Hin. cbn [andb] in Hin.
      assert (Py.float (num_vertical_bars spec / 2 + 1)
              + Py.float (num_vertical_bars spec / 2 + 1)
              == Py.float (num_vertical_bars spec + 1)) as Hsum.
      { rewrite <- float_add. apply float_eq. lia. }
      nra.
  - intros [Hb Hc] r Hr. apply in_map_iff in Hr.
    destruct Hr as [i [<- Hi]]. apply range_In in Hi.
    apply (vbar_rect_within _ _ Hv Hi).
    assert (1 <= Py.float (i + 1)) as H1.
    { change 1 with (Py.float 1). apply float_le. lia. }
    assert (1 <= Py.float (num_vertical_bars spec - i)) as H2.
    { change 1 with (Py.float 1). apply float_le. lia. }
    unfold vbar_rect. cbn [rect_w].
    destruct (Z.eqb_spec (num_vertical_bars spec mod 2) 1) as [Hodd|Hev];
      cbn [andb];
      [destruct (Z.eqb_spec i (num_vertical_bars spec / 2)) as [Hm|Hm]|].
    + specialize (Hc Hodd). subst i.
      assert (Py.float (num_vertical_bars spec / 2 + 1)
              + Py.float (num_vertical_bars spec / 2 + 1)
              == Py.float (num_vertical_bars spec + 1)) as Hsum.
      { rewrite <- float_add. apply float_eq. lia. }
      assert (Py.float (num_vertical_bars spec
                        - num_vertical_bars spec / 2)
              == Py.float (num_vertical_bars spec / 2 + 1)) as Hsame.
      { apply float_eq. lia. }
      rewrite Hsame. split; nra.
    + assert (2 <= num_vertical_bars spec)%Z as Hn by lia.
      specialize (Hb Hn). split; nra.
    + assert (2 <= num_vertical_bars spec)%Z as Hn by lia.
      specialize (Hb Hn). split; nra.
Qed.

Lemma vertical_bars_within_iff_witness :
  Forall (within_aperture_x spec_rect_example)
         (vertical_rects (document spec_rect_example))
  <-> vbars_fit spec_rect_example.
Proof.
  apply (vertical_bars_within_iff spec_rect_example
           (document spec_rect_example) (document spec_rect_example)).
  vm_compute. reflexivity.
Defined.

(** ** Fields without effect *)

Lemma lines_before_gap_test_rects (spec : WindowSpec) :
  vertical_rects (lines_before_gap_test spec)
  = map (vbar_rect spec) (Py.range (num_vertical_bars spec)) /\
  horizontal_rects (lines_before_gap_test spec) = [chord_rect spec].
Proof.
  unfold lines_before_gap_test.
  rewrite !vertical_rects_app, !horizontal_rects_app.
  destruct (layer_lines_no_bars spec) as [-> ->].
  rewrite (vertical_rects_map_V _ (vbar_rect spec)) by reflexivity.
  rewrite horizontal_rects_map_none by reflexivity.
  split; [apply app_nil_r | reflexivity].
Qed.

(** The rectangles appended by a call, in terms of the spec. *)
Lemma emitted_rects (spec : WindowSpec) :
  valid spec ->
  vertical_rects (emitted (generate_window_svg spec))
  = map (vbar_rect spec) (Py.range (num_vertical_bars spec)) /\
  horizontal_rects (emitted (generate_window_svg spec))
  = match chord_failure spec with
    | Some _ => [chord_rect spec]
    | None => horizontal_layout spec
    end.
Proof.
  intro Hv. rewrite (valid_generate _ Hv).
  destruct (chord_failure spec); cbn [emitted].
  - apply lines_before_gap_test_rects.
  - split; [apply document_vertical_rects | apply document_horizontal_rects].
Qed.

(** The colours have no effect on the geometry or on failure: with other
    colours a call appends the same bar rectangles, and it returns or raises
    the same error. *)
Theorem colours_do_not_affect_geometry
        (spec : WindowSpec) (frame glass bar : string) :
  vertical_rects (emitted (generate_window_svg (with_colors spec frame glass bar)))
  = vertical_rects (emitted (generate_window_svg spec)) /\
  horizontal_rects (emitted (generate_window_svg (with_colors spec frame glass bar)))
  = horizontal_rects (emitted (generate_window_svg spec)) /\
  (forall e,
     (exists svg, generate_window_svg (with_colors spec frame glass bar)
                  = Raised e svg)
     <-> (exists svg, generate_window_svg spec = Raised e svg)) /\
  (returns (generate_window_svg (with_colors spec frame glass bar))
   <-> returns (generate_window_svg spec)).
Proof.
  set (s' := with_colors spec frame glass bar).
  assert (first_violation s' = first_violation spec) as Hfv by reflexivity.
  destruct (first_violation spec) as [msg|] eqn:E.
  - rewrite (generate_run s'), (generate_run spec), Hfv, E. cbn [emitted].
    unfold returns.
    split; [reflexivity|]. split; [reflexivity|].
    split; [reflexivity|]. reflexivity.
  - assert (valid spec) as Hv by (apply first_violation_none, E).
    assert (valid s') as Hv' by (apply first_violation_none; congruence).
    destruct (emitted_rects _ Hv) as [EV EH].
    destruct (emitted_rects _ Hv') as [EV' EH'].
    assert (chord_failure s' = chord_failure spec) as Hcf by reflexivity.
    split; [rewrite EV, EV'; reflexivity|].
    split; [rewrite EH, EH', Hcf; reflexivity|].
    rewrite (valid_generate _ Hv), (valid_generate _ Hv'), Hcf.
    unfold returns.
    destruct (chord_failure spec) as [m|].
    + split.
      * intro e. split; intros [svg H]; injection H as <- _; eauto.
      * split; intros (a & svg & H); discriminate H.
    + split.
      * intro e. split; intros [svg H]; discriminate H.
      * split; intros _; eauto.
Qed.

Lemma first_violation_center (spec : WindowSpec) (c : Q) :
  0 <= c ->
  first_violation (with_center spec (Some c))
  = first_violation (with_center spec None).
Proof.
  intro Hc. unfold first_violation, resolve_center_width, with_center.
  cbn [width_mm height_mm frame_width_mm num_vertical_bars
       num_horizontal_bars sash_bar_width_mm arch_height_mm
       center_vertical_bar_width_mm horizontal_distribution_mode].
  assert (Py.ltb c 0 = false) as Hc0 by (apply ltb_ge; exact Hc).
  destruct (Py.truthy c); rewrite ?Hc0;
    destruct (Py.ltb (sash_bar_width_mm spec) 0); reflexivity.
Qed.

(** For an even number of vertical bars the centre width is not used: any
    supplied width that is not negative gives the outcome of the spec without
    the field. *)
Theorem center_width_unused_for_even_count (spec : WindowSpec) (c : Q) :
  (num_vertical_bars spec mod 2 = 0)%Z ->
  0 <= c ->
  generate_window_svg (with_center spec (Some c))
  = generate_window_svg (with_center spec None).
Proof.
  intros Hev Hc.
  rewrite (generate_run (with_center spec (Some c))),
          (generate_run (with_center spec None)),
          (first_violation_center _ _ Hc).
  assert (vertical_lines (with_center spec (Some c))
          = vertical_lines (with_center spec None)) as ->.
  { unfold vertical_lines.
    change (inner_w (with_center spec (Some c))) with (inner_w spec).
    change (inner_w (with_center spec None)) with (inner_w spec).
    change (num_vertical_bars (with_center spec (Some c)))
      with (num_vertical_bars spec).
    change (num_vertical_bars (with_center spec None))
      with (num_vertical_bars spec).
    destruct ((0 <? num_vertical_bars spec)%Z && Py.ltb 0 (inner_w spec));
      [|reflexivity].
    apply map_ext. intro i. unfold vbar_line.
    change (num_vertical_bars (with_center spec (Some c)))
      with (num_vertical_bars spec).
    change (num_vertical_bars (with_center spec None))
      with (num_vertical_bars spec).
    rewrite Hev. reflexivity. }
  reflexivity.
Qed.

Lemma center_width_unused_for_even_count_witness :
  generate_window_svg (with_center spec_two_bars (Some 7))
  = generate_window_svg (with_center spec_two_bars None).
Proof.
  apply (center_width_unused_for_even_count spec_two_bars 7).
  - reflexivity.
  - vm_compute. discriminate.
Defined.

(** A negative centre width is refused whatever the number of vertical
    bars, also where no bar would use it: a spec that is valid without the
    field raises the bar width error with it. *)
Theorem negative_center_width_refused (spec : WindowSpec) (c : Q) :
  valid (with_center spec None) ->
  c < 0 ->
  generate_window_svg (with_center spec (Some c))
  = Raised (ValueError msg_bar_width) [].
Proof.
  intros Hv Hc. rewrite generate_run.
  assert (first_violation (with_center spec (Some c)) = Some msg_bar_width)
    as ->; [|reflexivity].
  destruct Hv as (HW & HH & HF & HF2 & HA & HA2 & HNV & HNH & HB & _).
  cbn [width_mm height_mm frame_width_mm num_vertical_bars
       num_horizontal_bars sash_bar_width_mm arch_height_mm
       with_center] in *.
  apply leb_gt in HW, HH, HF2. apply ltb_ge in HF, HA, HA2, HB.
  apply Z.ltb_ge in HNV, HNH.
  unfold first_violation, resolve_center_width, with_center.
  cbn [width_mm height_mm frame_width_mm num_vertical_bars
       num_horizontal_bars sash_bar_width_mm arch_height_mm
       center_vertical_bar_width_mm horizontal_distribution_mode].
  rewrite HW, HH, HF, HF2, HA, HA2, HNV, HNH, HB. cbn [orb].
  assert (Py.truthy c = true) as ->.
  { unfold Py.truthy. apply negb_true_iff.
    destruct (Qeq_bool c 0) eqn:E; [|reflexivity].
    apply Qeq_bool_iff in E. lra. }
  apply ltb_lt in Hc. now rewrite Hc.
Qed.

Lemma negative_center_width_refused_witness :
  generate_window_svg (with_center spec_rect_example (Some (-5)))
  = Raised (ValueError msg_bar_width) [].
Proof.
  apply (negative_center_width_refused spec_rect_example (-5)).
  - unfold valid. cbn. repeat split; try reflexivity; try discriminate.
    left. reflexivity.
  - reflexivity.
Defined.

(** ** Change of unit *)

Section Scaling.

Variable k : Q.
Hypothesis k_pos : 0 < k.
Variable spec : WindowSpec.

Lemma scale_max_sub (a b : Q) :
  Py.max 0 (k * a - k * b) == k * Py.max 0 (a - b).
Proof.
  destruct (max_spec 0 (k * a - k * b)) as [[H1 ->]|[H1 ->]];
    destruct (max_spec 0 (a - b)) as [[H2 ->]|[H2 ->]]; nra.
Qed.

Lemma scale_min (a b : Q) : Py.min (k * a) (k * b) == k * Py.min a b.
Proof.
  destruct (min_spec (k * a) (k * b)) as [[H1 ->]|[H1 ->]];
    destruct (min_spec a b) as [[H2 ->]|[H2 ->]]; nra.
Qed.

Lemma scale_resolve_center_width :
  resolve_center_width (scale_spec k spec) == k * resolve_center_width spec.
Proof.
  unfold resolve_center_width, scale_spec.
  cbn [center_vertical_bar_width_mm sash_bar_width_mm].
  destruct (center_vertical_bar_width_mm spec) as [c|]; cbn [option_map].
  - unfold Py.truthy.
    destruct (Qeq_bool (k * c) 0) eqn:E1; destruct (Qeq_bool c 0) eqn:E2;
      cbn [negb]; try reflexivity.
    + apply Qeq_bool_iff in E1. apply Qeq_bool_neq in E2. nra.
    + apply Qeq_bool_iff in E2. apply Qeq_bool_neq in E1. nra.
  - reflexivity.
Qed.

Lemma scale_valid : valid spec -> valid (scale_spec k spec).
Proof.
  intros (HW & HH & HF & HF2 & HA & HA2 & HNV & HNH & HB & HC & HM).
  pose proof scale_resolve_center_width as Hr.
  unfold valid, scale_spec in *.
  cbn [width_mm height_mm frame_width_mm num_vertical_bars
       num_horizontal_bars sash_bar_width_mm arch_height_mm
       horizontal_distribution_mode] in *.
  rewrite scale_min.
  repeat split; try assumption; nra.
Qed.

Lemma scale_chord_branch : chord_branch (scale_spec k spec) = chord_branch spec.
Proof.
  unfold chord_branch, scale_spec.
  cbn [horizontal_distribution_mode arch_height_mm]. f_equal.
  destruct (Py.ltb 0 (arch_height_mm spec)) eqn:E.
  - apply ltb_lt in E. apply ltb_lt. nra.
  - apply ltb_ge in E. apply ltb_ge. nra.
Qed.

Lemma scale_x_gap :
  (0 <= num_vertical_bars spec)%Z -> x_gap (scale_spec k spec) == k * x_gap spec.
Proof.
  intro H. unfold x_gap, inner_w, scale_spec.
  cbn [width_mm frame_width_mm num_vertical_bars].
  field. now apply float_succ_neq_0.
Qed.

Lemma scale_y_gap :
  (0 <= num_horizontal_bars spec)%Z -> y_gap (scale_spec k spec) == k * y_gap spec.
Proof.
  intro H. unfold y_gap, inner_h, scale_spec.
  cbn [height_mm frame_width_mm num_horizontal_bars].
  field. now apply float_succ_neq_0.
Qed.

Lemma scale_start_y : start_y (scale_spec k spec) == k * start_y spec.
Proof.
  unfold start_y, chord_y, inner_y, arch_inner, scale_spec.
  cbn [frame_width_mm arch_height_mm].
  rewrite scale_max_sub. ring.
Qed.

Lemma scale_chord_y : chord_y (scale_spec k spec) == k * chord_y spec.
Proof.
  unfold chord_y, inner_y, arch_inner, scale_spec.
  cbn [frame_width_mm arch_height_mm].
  rewrite scale_max_sub. ring.
Qed.

Lemma scale_gap_g :
  (0 <= num_horizontal_bars spec)%Z -> gap_g (scale_spec k spec) == k * gap_g spec.
Proof.
  intro H. pose proof scale_start_y as Hs.
  unfold gap_g, span_T, bottom_y, inner_y, inner_h.
  rewrite Hs. unfold scale_spec.
  cbn [height_mm frame_width_mm num_horizontal_bars sash_bar_width_mm].
  field. now apply float_succ_neq_0.
Qed.

Lemma scale_gap_used :
  (0 <= num_horizontal_bars spec)%Z -> gap_used (scale_spec k spec) == k * gap_used spec.
Proof.
  intro H. pose proof (scale_gap_g H) as Hg. unfold gap_used.
  destruct (max_spec (gap_g (scale_spec k spec)) 0) as [[H1 ->]|[H1 ->]];
    destruct (max_spec (gap_g spec) 0) as [[H2 ->]|[H2 ->]]; nra.
Qed.

End Scaling.

Lemma Forall2_map_range {A} (R : rect -> rect -> Prop) (f g : A -> rect)
      (xs : list A) :
  (forall x, In x xs -> R (f x) (g x)) ->
  Forall2 R (map f xs) (map g xs).
Proof.
  induction xs as [|x xs IH]; intro H; simpl; constructor.
  - apply H. left. reflexivity.
  - apply IH. intros y Hy. apply H. right. exact Hy.
Qed.

(** The layout does not depend on the unit of length: when the window and
    the same window with all lengths multiplied by [k > 0] both yield a
    document, the bar rectangles of the second are those of the first with
    every coordinate multiplied by [k]. *)
Theorem layout_scales (k : Q) (spec : WindowSpec)
        (doc svg doc' svg' : list line) :
  0 < k ->
  generate_window_svg spec = Returned doc svg ->
  generate_window_svg (scale_spec k spec) = Returned doc' svg' ->
  Forall2 (scaled k) (vertical_rects doc) (vertical_rects doc') /\
  Forall2 (scaled k) (horizontal_rects doc) (horizontal_rects doc').
Proof.
  intros Hk Hgen Hgen'.
  apply returns_inv in Hgen. destruct Hgen as (Hv & _ & -> & _).
  apply returns_inv in Hgen'. destruct Hgen' as (_ & _ & -> & _).
  pose proof Hv as (_ & _ & _ & _ & _ & _ & HNV & HNH & _).
  rewrite !document_vertical_rects, !document_horizontal_rects.
  unfold horizontal_layout. rewrite (scale_chord_branch k Hk spec).
  change (num_vertical_bars (scale_spec k spec))
    with (num_vertical_bars spec).
  change (num_horizontal_bars (scale_spec k spec))
    with (num_horizontal_bars spec).
  pose proof (scale_x_gap k spec HNV) as Hx.
  pose proof (scale_y_gap k spec HNH) as Hy.
  pose proof (scale_start_y k Hk spec) as Hs.
  pose proof (scale_chord_y k Hk spec) as Hcy.
  pose proof (scale_gap_used k Hk spec HNH) as Hgu.
  pose proof (scale_resolve_center_width k Hk spec) as Hr.
  split.
  - apply Forall2_map_range. intros i _.
    unfold scaled, vbar_rect. cbn [rect_x rect_y rect_w rect_h].
    change (num_vertical_bars (scale_spec k spec))
      with (num_vertical_bars spec).
    rewrite Hx.
    change (inner_x (scale_spec k spec)) with (k * inner_x spec).
    change (sash_bar_width_mm (scale_spec k spec))
      with (k * sash_bar_width_mm spec).
    change (height_mm (scale_spec k spec)) with (k * height_mm spec).
    destruct ((num_vertical_bars spec mod 2 =? 1)%Z && (i =? _)%Z).
    + rewrite Hr. repeat split; try ring. field.
    + repeat split; try ring. field.
  - destruct (chord_branch spec).
    + constructor.
      * unfold scaled, chord_rect. cbn [rect_x rect_y rect_w rect_h].
        rewrite Hcy.
        change (width_mm (scale_spec k spec)) with (k * width_mm spec).
        change (frame_width_mm (scale_spec k spec))
          with (k * frame_width_mm spec).
        repeat split; ring.
      * apply Forall2_map_range. intros i _.
        unfold scaled, lower_rect. cbn [rect_x rect_y rect_w rect_h].
        rewrite Hs, Hgu.
        change (width_mm (scale_spec k spec)) with (k * width_mm spec).
        change (sash_bar_width_mm (scale_spec k spec))
          with (k * sash_bar_width_mm spec).
        repeat split; ring.
    + apply Forall2_map_range. intros i _.
      unfold scaled, even_rect. cbn [rect_x rect_y rect_w rect_h].
      rewrite Hy.
      change (inner_y (scale_spec k spec)) with (k * inner_y spec).
      change (width_mm (scale_spec k spec)) with (k * width_mm spec).
      change (sash_bar_width_mm (scale_spec k spec))
        with (k * sash_bar_width_mm spec).
      repeat split; try ring. field.
Qed.

Lemma layout_scales_witness :
  Forall2 (scaled 2) (vertical_rects (document spec_rect_example))
          (vertical_rects (document (scale_spec 2 spec_rect_example))) /\
  Forall2 (scaled 2) (horizontal_rects (document spec_rect_example))
          (horizontal_rects (document (scale_spec 2 spec_rect_example))).
Proof.
  apply (layout_scales 2 spec_rect_example
           (document spec_rect_example) (document spec_rect_example)
           (document (scale_spec 2 spec_rect_example))
           (document (scale_spec 2 spec_rect_example))).
  - reflexivity.
  - vm_compute. reflexivity.
  - vm_compute. reflexivity.
Defined.

(** A change of unit keeps a spec valid, and off the [from_chord] branch the
    window in the other unit yields a document as well. *)
Theorem scaled_spec_is_valid (k : Q) (spec : WindowSpec) :
  0 < k ->
  valid spec ->
  valid (scale_spec k spec) /\
  (chord_branch spec = false ->
   returns (generate_window_svg (scale_spec k spec))).
Proof.
  intros Hk Hv. pose proof (scale_valid k Hk spec Hv) as Hv'.
  split; [exact Hv'|]. intro Hc.
  exists (document (scale_spec k spec)), (document (scale_spec k spec)).
  apply (returns_intro _ Hv'). intros Hm HA Hn.
  assert (chord_branch (scale_spec k spec) = true) as Hc'
      by (apply chord_branch_iff; auto).
  rewrite (scale_chord_branch k Hk spec) in Hc'. congruence.
Qed.

Lemma scaled_spec_is_valid_witness :
  valid (scale_spec 2 spec_rect_example) /\
  (chord_branch spec_rect_example = false ->
   returns (generate_window_svg (scale_spec 2 spec_rect_example))).
Proof.
  apply (scaled_spec_is_valid 2 spec_rect_example).
  - reflexivity.
  - unfold valid. cbn. repeat split; try reflexivity; try discriminate.
    left. reflexivity.
Defined.




(** ** The earlier generator *)

Lemma bind_ext {A B} (m1 m2 : M A) (k1 k2 : A -> M B) (svg : list line) :
  m1 svg = m2 svg ->
  (forall a svg', k1 a svg' = k2 a svg') ->
  bind m1 k1 svg = bind m2 k2 svg.
Proof.
  intros Hm Hk. unfold bind. rewrite Hm.
  destruct (m2 svg); [apply Hk | reflexivity].
Qed.

Lemma upgrade_validate (spec : GenWindow2.WindowSpec) (svg : list line) :
  GenWindow2.validate spec svg = validate (upgrade_spec spec) svg.
Proof.
  unfold GenWindow2.validate, validate, upgrade_spec,
    GenWindow2.resolve_center_width, resolve_center_width.
  cbn [width_mm height_mm frame_width_mm num_vertical_bars
       num_horizontal_bars sash_bar_width_mm arch_height_mm
       center_vertical_bar_width_mm horizontal_distribution_mode].
  unfold bind, when, raise, ret.
  repeat match goal with
         | |- context [if ?c then _ else _] => destruct c; try reflexivity
         end.
Qed.

Lemma upgrade_horizontal_bars (spec : GenWindow2.WindowSpec)
      (svg : list line) :
  GenWindow2.horizontal_bars spec svg
  = horizontal_bars (upgrade_spec spec) svg.
Proof.
  unfold GenWindow2.horizontal_bars, horizontal_bars, upgrade_spec.
  cbn [width_mm height_mm frame_width_mm num_horizontal_bars
       sash_bar_width_mm arch_height_mm horizontal_distribution_mode
       bar_color].
  change (String.eqb mode_even mode_from_chord) with false.
  cbn [andb]. unfold when.
  destruct (0 <? GenWindow2.num_horizontal_bars spec)%Z;
    destruct (Py.ltb 0 _); reflexivity.
Qed.

Lemma upgrade_generate (spec : GenWindow2.WindowSpec) :
  generate_window_svg (upgrade_spec spec)
  = GenWindow2.generate_window_svg spec.
Proof.
  symmetry.
  unfold GenWindow2.generate_window_svg, generate_window_svg,
    GenWindow2.generate_window_svg_body, generate_window_svg_body.
  apply bind_ext; [apply upgrade_validate|]. intros _ svg1.
  apply bind_ext; [reflexivity|]. intros _ svg2.
  apply bind_ext; [reflexivity|]. intros _ svg3.
  apply bind_ext; [apply upgrade_horizontal_bars|]. intros _ svg4.
  reflexivity.
Qed.

(** gen_window3.py extends gen_window2.py: on a spec without a mode, that
    is with the default mode ["even"], it gives the outcome of the earlier
    generator, document or error. *)
Theorem generator_extends_gen_window2 (spec : GenWindow2.WindowSpec) :
  generate_window_svg (upgrade_spec spec)
  = GenWindow2.generate_window_svg spec.
Proof. apply upgrade_generate. Qed.

(** Without an arch the outcome of gen_window3.py in either mode is the one
    of gen_window2.py. *)
Theorem flat_window_as_gen_window2
        (spec : GenWindow2.WindowSpec) (mode : string) :
  GenWindow2.arch_height_mm spec <= 0 ->
  mode = mode_even \/ mode = mode_from_chord ->
  generate_window_svg (with_mode (upgrade_spec spec) mode)
  = GenWindow2.generate_window_svg spec.
Proof.
  intros HA [-> | ->].
  - apply (upgrade_generate spec).
  - rewrite zero_rise_mode_irrelevant by exact HA.
    apply (upgrade_generate spec).
Qed.

Lemma flat_window_as_gen_window2_witness :
  generate_window_svg (with_mode (upgrade_spec spec2_example) mode_from_chord)
  = GenWindow2.generate_window_svg spec2_example.
Proof.
  apply (flat_window_as_gen_window2 spec2_example mode_from_chord).
  - vm_compute. discriminate.
  - right. reflexivity.
Defined.

(** * The arc and line chain *)

Module SlopedArcsFacts.
Import SlopedArcs.

(** *** The formats *)

Lemma ltb_comp (a a' b : Q) : a == a' -> Py.ltb a b = Py.ltb a' b.
Proof.
  intro H. destruct (Py.ltb a b) eqn:E; symmetry.
  - apply ltb_lt in E. apply ltb_lt. rewrite <- H. exact E.
  - apply ltb_ge in E. apply ltb_ge. rewrite <- H. exact E.
Qed.

Lemma ltb_comp_r (a b b' : Q) : b == b' -> Py.ltb a b = Py.ltb a b'.
Proof.
  intro H. destruct (Py.ltb a b) eqn:E; symmetry.
  - apply ltb_lt in E. apply ltb_lt. rewrite <- H. exact E.
  - apply ltb_ge in E. apply ltb_ge. rewrite <- H. exact E.
Qed.

Lemma round_half_even_comp (q q' : Q) :
  q == q' -> round_half_even q = round_half_even q'.
Proof.
  intro H. unfold round_half_even.
  rewrite (Qfloor_comp q q' H).
  rewrite (ltb_comp (q - inject_Z (Qfloor q')) (q' - inject_Z (Qfloor q')))
    by (rewrite H; reflexivity).
  rewrite (ltb_comp_r (1 # 2) (q - inject_Z (Qfloor q'))
             (q' - inject_Z (Qfloor q')))
    by (rewrite H; reflexivity).
  reflexivity.
Qed.

Lemma round_half_even_near (q : Q) :
  near (1 # 2) (inject_Z (round_half_even q)) q.
Proof.
  unfold near, round_half_even.
  pose proof (Qfloor_le q) as Hlo.
  pose proof (Qlt_floor q) as Hhi.
  rewrite inject_Z_plus in Hhi. change (inject_Z 1) with 1 in Hhi.
  destruct (Py.ltb (q - inject_Z (Qfloor q)) (1 # 2)) eqn:E1.
  - apply ltb_lt in E1. lra.
  - apply ltb_ge in E1.
    destruct (Py.ltb (1 # 2) (q - inject_Z (Qfloor q))) eqn:E2.
    + rewrite inject_Z_plus. change (inject_Z 1) with 1. lra.
    + apply ltb_ge in E2. destruct (Z.even (Qfloor q)).
      * lra.
      * rewrite inject_Z_plus. change (inject_Z 1) with 1. lra.
Qed.

Lemma round_half_even_int (z : Z) : round_half_even (inject_Z z) = z.
Proof.
  unfold round_half_even. rewrite Qfloor_Z.
  replace (Py.ltb (inject_Z z - inject_Z z) (1 # 2)) with true; [reflexivity|].
  symmetry. apply ltb_lt. lra.
Qed.

Lemma format_f_comp (digits : nat) (q q' : Q) :
  q == q' -> format_f digits q = format_f digits q'.
Proof.
  intro H. unfold format_f. f_equal. f_equal.
  apply round_half_even_comp. rewrite H. reflexivity.
Qed.

(** [.0f] writes the nearest whole number. *)
Lemma format_0 (q : Q) : format_f 0 q == inject_Z (round_half_even q).
Proof.
  unfold format_f. change (inject_Z (10 ^ Z.of_nat 0)) with 1.
  rewrite (round_half_even_comp (q * 1) q) by ring.
  field.
Qed.

Lemma format_0_near (q : Q) : near (1 # 2) (format_f 0 q) q.
Proof.
  destruct (round_half_even_near q) as [H1 H2].
  unfold near. rewrite format_0. split; assumption.
Qed.

(** [.2f] writes a number of hundredths, at most half a hundredth away. *)
Lemma format_2 (q : Q) :
  format_f 2 q == inject_Z (round_half_even (q * 100)) * (1 # 100).
Proof.
  unfold format_f. change (inject_Z (10 ^ Z.of_nat 2)) with 100. field.
Qed.

Lemma format_2_near (q : Q) : near (1 # 200) (format_f 2 q) q.
Proof.
  destruct (round_half_even_near (q * 100)) as [H1 H2].
  unfold near. rewrite format_2. split; lra.
Qed.

(** A number of hundredths is written as it is. *)
Lemma format_2_exact (q : Q) (z : Z) :
  q == inject_Z z * (1 # 100) -> format_f 2 q == q.
Proof.
  intro H. rewrite format_2.
  rewrite (round_half_even_comp (q * 100) (inject_Z z)) by (rewrite H; ring).
  rewrite round_half_even_int. symmetry. exact H.
Qed.

(** *** The loop *)

Lemma loop_chain (la r : Q) (k : nat) (st : state) :
  loop k la r st
  = mkState (x (loop k la r st)) (y0 (loop k la r st))
            (cmds st ++ map format_cmd (chain la r (x st) (y0 st) k)).
Proof.
  revert st. induction k as [|k IH]; intro st; cbn [loop chain map].
  - rewrite app_nil_r. destruct st; reflexivity.
  - rewrite IH at 1. f_equal.
    unfold loop_body. cbn [x y0 cmds app map format_cmd].
    rewrite <- !app_assoc. reflexivity.
Qed.

Lemma loop_x (la r : Q) (k : nat) (st : state) :
  x (loop k la r st) == x st + Py.float (Z.of_nat k) * (2 * r + la).
Proof.
  revert st. induction k as [|k IH]; intro st; cbn [loop].
  - change (Py.float (Z.of_nat 0)) with 0. ring.
  - rewrite IH. unfold loop_body. cbn [x].
    replace (Z.of_nat (S k)) with (Z.of_nat k + 1)%Z by lia.
    rewrite float_succ. ring.
Qed.

Lemma chain_length (la r x y : Q) (k : nat) :
  List.length (chain la r x y k) = (3 * k)%nat.
Proof.
  revert x y. induction k as [|k IH]; intros x y; cbn [chain]; [reflexivity|].
  rewrite length_app, IH. cbn [List.length]. lia.
Qed.

(** *** The path as written and the path in full *)

Lemma trace_format (pos : Q * Q) (cs : list cmd) :
  trace (format_point pos) (map format_cmd cs)
  = map format_point (trace pos cs).
Proof.
  revert pos. induction cs as [|c cs IH]; intro pos; [reflexivity|].
  cbn [map trace].
  assert (move (format_point pos) (format_cmd c) = format_point (move pos c))
    as ->
    by (destruct c; reflexivity).
  rewrite IH. reflexivity.
Qed.

Lemma pen_format (pos : Q * Q) (cs : list cmd) :
  pen (format_point pos) (map format_cmd cs) = format_point (pen pos cs).
Proof.
  unfold pen. revert pos.
  induction cs as [|c cs IH]; intro pos; [reflexivity|].
  cbn [map fold_left].
  assert (move (format_point pos) (format_cmd c) = format_point (move pos c))
    as ->
    by (destruct c; reflexivity).
  apply IH.
Qed.

Lemma chain_strokes (la r x y : Q) (k : nat) :
  all_strokes (1 # 100) la r (format_f 2 x, format_f 2 y)
              (map format_cmd (chain la r x y k)).
Proof.
  revert x y. induction k as [|k IH]; intros x y; cbn [chain map];
    [exact I|].
  cbn [app map format_cmd all_strokes is_stroke move fst snd].
  pose proof (format_2_near r) as Hr.
  pose proof (format_2_near x) as Hx.
  pose proof (format_2_near y) as Hy.
  pose proof (format_2_near (x + 2 * r)) as Hx1.
  pose proof (format_2_near (x + 2 * r + la)) as Hx2.
  pose proof (format_2_near (y - la)) as Hy1.
  unfold near in *.
  split; [|split; [|split]].
  - split; [reflexivity|]. split; [lra|]. split; [lra|].
    repeat split; reflexivity.
  - lra.
  - right. lra.
  - apply IH.
Qed.

Lemma chain_trace_bounds (la r x y : Q) (k : nat) :
  0 < la -> 0 < r ->
  Forall (fun p => x <= fst p /\
                   fst p <= x + Py.float (Z.of_nat k) * (2 * r + la) /\
                   y - Py.float (Z.of_nat k) * la <= snd p /\
                   snd p <= y)
         (trace (x, y) (chain la r x y k)).
Proof.
  intros Hla Hr. revert x y.
  induction k as [|k IH]; intros x y; cbn [chain]; [constructor|].
  assert (0 <= Py.float (Z.of_nat k)) as Hk by (apply float_nonneg; lia).
  assert (Py.float (Z.of_nat (S k)) == Py.float (Z.of_nat k) + 1) as Hs.
  { replace (Z.of_nat (S k)) with (Z.of_nat k + 1)%Z by lia.
    apply float_succ. }
  cbn [app trace move fst snd].
  repeat constructor; cbn [fst snd]; try nra.
  eapply Forall_impl; [|apply IH].
  intros [px py]. cbn [fst snd]. intros (H1 & H2 & H3 & H4).
  repeat split; nra.
Qed.

Lemma chain_pen (la r x y : Q) (k : nat) :
  fst (pen (x, y) (chain la r x y k))
  == x + Py.float (Z.of_nat k) * (2 * r + la) /\
  snd (pen (x, y) (chain la r x y k))
  == y - Py.float (Z.of_nat k) * la.
Proof.
  revert x y. induction k as [|k IH]; intros x y; cbn [chain].
  - change (Py.float (Z.of_nat 0)) with 0. cbn. split; ring.
  - assert (Py.float (Z.of_nat (S k)) == Py.float (Z.of_nat k) + 1) as Hs.
    { replace (Z.of_nat (S k)) with (Z.of_nat k + 1)%Z by lia.
      apply float_succ. }
    unfold pen in *. cbn [app fold_left move fst snd].
    destruct (IH (x + 2 * r + la) (y - la)) as [H1 H2].
    rewrite H1, H2, Hs. split; ring.
Qed.

Lemma chain_arcs_below (la r x y lo : Q) (k : nat) :
  0 < la ->
  lo <= y - Py.float (Z.of_nat k) * la + la - r - (1 # 100) ->
  arcs_below lo (map format_cmd (chain la r x y k)).
Proof.
  intros Hla. revert x y.
  induction k as [|k IH]; intros x y Hlo; cbn [chain map]; [constructor|].
  assert (0 <= Py.float (Z.of_nat k)) as Hk by (apply float_nonneg; lia).
  assert (Py.float (Z.of_nat (S k)) == Py.float (Z.of_nat k) + 1) as Hs.
  { replace (Z.of_nat (S k)) with (Z.of_nat k + 1)%Z by lia.
    apply float_succ. }
  pose proof (format_2_near r) as Hr.
  pose proof (format_2_near y) as Hy.
  unfold near in *.
  unfold arcs_below in *. cbn [app map format_cmd].
  constructor; [nra|]. constructor; [exact I|]. constructor; [exact I|].
  apply IH. nra.
Qed.

Lemma chain_ok_inv (n : Z) (la r : Q) (stroke : string)
      (stroke_width margin : Q) (background linecap linejoin : string)
      (mirror : bool) (s : svg) :
  arc_line_chain_with_X_svg n la r stroke stroke_width margin background
                            linecap linejoin mirror = Ok s ->
  (1 <= n)%Z /\ 0 < la /\ 0 < r /\
  s = (let y0 := margin + Py.float n * la + r in
       let st := loop (Z.to_nat n) la r
                      (mkState (margin + la) y0
                               (map format_cmd
                                    [MoveTo margin (y0 - la); VertTo y0;
                                     HorizTo (margin + la)])) in
       mkSvg (format_f 0 (x st + margin)) (format_f 0 (y0 + la + margin))
             background (cmds st)
             (if mirror then Some (x st + margin) else None)
             stroke stroke_width linecap linejoin).
Proof.
  unfold arc_line_chain_with_X_svg.
  destruct (Z.leb_spec 1 n) as [Hn|Hn]; cbn [negb]; [|discriminate].
  destruct (Py.ltb 0 la) eqn:E1; cbn [andb negb]; [|discriminate].
  destruct (Py.ltb 0 r) eqn:E2; cbn [negb]; [|discriminate].
  apply ltb_lt in E1, E2. intro H. injection H as <-.
  repeat split; assumption.
Qed.

(** The path of a drawing is the pattern in full, written command by
    command. *)
Lemma chain_path (n : Z) (la r : Q) (stroke : string)
      (stroke_width margin : Q) (background linecap linejoin : string)
      (mirror : bool) (s : svg) :
  arc_line_chain_with_X_svg n la r stroke stroke_width margin background
                            linecap linejoin mirror = Ok s ->
  (1 <= n)%Z /\ 0 < la /\ 0 < r /\
  svg_d s = map format_cmd
                ([MoveTo margin (margin + Py.float n * la + r - la);
                  VertTo (margin + Py.float n * la + r);
                  HorizTo (margin + la)]
                 ++ chain la r (margin + la) (margin + Py.float n * la + r)
                          (Z.to_nat n)) /\
  svg_width s == format_f 0 (2 * margin + la + Py.float n * (2 * r + la)) /\
  svg_height s == format_f 0 (2 * margin + (Py.float n + 1) * la + r) /\
  (forall w, svg_transform s = Some w ->
             w == 2 * margin + la + Py.float n * (2 * r + la)).
Proof.
  intro H. apply chain_ok_inv in H. destruct H as (Hn & Hla & Hr & ->).
  cbv zeta. cbn [svg_d svg_width svg_height svg_transform].
  rewrite loop_chain. cbn [cmds x y0].
  pose proof (loop_x la r (Z.to_nat n)
                (mkState (margin + la) (margin + Py.float n * la + r)
                         (map format_cmd
                          [MoveTo margin (margin + Py.float n * la + r - la);
                           VertTo (margin + Py.float n * la + r);
                           HorizTo (margin + la)]))) as Hx.
  cbn [x] in Hx. rewrite loop_chain in Hx. cbn [x] in Hx.
  rewrite Z2Nat.id in Hx by lia.
  split; [exact Hn|]. split; [exact Hla|]. split; [exact Hr|].
  split; [|split; [|split]].
  - rewrite map_app. reflexivity.
  - erewrite format_f_comp; [reflexivity|]. rewrite Hx. ring.
  - erewrite format_f_comp; [reflexivity|]. ring.
  - intros w Hw. destruct mirror; [|discriminate].
    injection Hw as <-. rewrite Hx. ring.
Qed.

(** *** Numbers with two decimals *)

Lemma hundredths_add (a b : Q) :
  hundredths a -> hundredths b -> hundredths (a + b).
Proof.
  intros [za Ha] [zb Hb]. exists (za + zb)%Z.
  rewrite inject_Z_plus, Ha, Hb. ring.
Qed.

Lemma hundredths_sub (a b : Q) :
  hundredths a -> hundredths b -> hundredths (a - b).
Proof.
  intros [za Ha] [zb Hb]. exists (za - zb)%Z.
  unfold Z.sub. rewrite inject_Z_plus, inject_Z_opp, Ha, Hb. ring.
Qed.

Lemma hundredths_mul_int (n : Z) (a : Q) :
  hundredths a -> hundredths (inject_Z n * a).
Proof.
  intros [za Ha]. exists (n * za)%Z.
  rewrite inject_Z_mult, Ha. ring.
Qed.

Lemma hundredths_format (q : Q) : hundredths q -> format_f 2 q == q.
Proof. intros [z Hz]. exact (format_2_exact q z Hz). Qed.

Lemma chain_strokes_exact (la r x y : Q) (k : nat) :
  hundredths la -> hundredths r -> hundredths x -> hundredths y ->
  all_strokes 0 la r (format_f 2 x, format_f 2 y)
              (map format_cmd (chain la r x y k)).
Proof.
  intros Hla Hr. revert x y.
  induction k as [|k IH]; intros x y Hx Hy; cbn [chain map]; [exact I|].
  cbn [app map format_cmd all_strokes is_stroke move fst snd].
  assert (hundredths (x + 2 * r)) as Hx1
      by (apply hundredths_add; [exact Hx|];
          exact (hundredths_mul_int 2 r Hr)).
  assert (hundredths (x + 2 * r + la)) as Hx2
      by (apply hundredths_add; assumption).
  assert (hundredths (y - la)) as Hy1
      by (apply hundredths_sub; assumption).
  pose proof (hundredths_format r Hr) as Er.
  pose proof (hundredths_format x Hx) as Ex.
  pose proof (hundredths_format y Hy) as Ey.
  pose proof (hundredths_format _ Hx1) as Ex1.
  pose proof (hundredths_format _ Hx2) as Ex2.
  pose proof (hundredths_format _ Hy1) as Ey1.
  unfold near.
  split; [|split; [|split]].
  - split; [reflexivity|]. split; [lra|]. split; [lra|].
    repeat split; reflexivity.
  - lra.
  - right. lra.
  - apply IH; assumption.
Qed.

(** *** The path in full *)

Lemma trace_format_path (origin : Q * Q) (a b : Q) (cs : list cmd) :
  trace origin (map format_cmd (MoveTo a b :: cs))
  = map format_point (trace origin (MoveTo a b :: cs)).
Proof.
  cbn [map format_cmd trace move].
  change (format_f 2 a, format_f 2 b) with (format_point (a, b)).
  rewrite trace_format. reflexivity.
Qed.

Lemma pen_format_path (origin : Q * Q) (a b : Q) (cs : list cmd) :
  pen origin (map format_cmd (MoveTo a b :: cs))
  = format_point (pen origin (MoveTo a b :: cs)).
Proof.
  unfold pen. cbn [map format_cmd fold_left move].
  change (format_f 2 a, format_f 2 b) with (format_point (a, b)).
  apply pen_format.
Qed.

Lemma full_trace_bounds (n : Z) (la r margin : Q) (origin : Q * Q) :
  (1 <= n)%Z -> 0 < la -> 0 < r ->
  Forall (fun p =>
            margin <= fst p /\
            fst p <= margin + la + Py.float n * (2 * r + la) /\
            margin + r <= snd p /\
            snd p <= margin + Py.float n * la + r)
         (trace origin
                ([MoveTo margin (margin + Py.float n * la + r - la);
                  VertTo (margin + Py.float n * la + r);
                  HorizTo (margin + la)]
                 ++ chain la r (margin + la) (margin + Py.float n * la + r)
                          (Z.to_nat n))).
Proof.
  intros Hn Hla Hr.
  assert (1 <= Py.float n) as Hn1.
  { change 1 with (Py.float 1). apply float_le. exact Hn. }
  cbn [app trace move fst snd].
  repeat constructor; cbn [fst snd]; try nra.
  eapply Forall_impl;
    [|apply (chain_trace_bounds la r (margin + la)
               (margin + Py.float n * la + r) (Z.to_nat n) Hla Hr)].
  intros [px py]. cbn [fst snd]. rewrite Z2Nat.id by lia.
  intros (H1 & H2 & H3 & H4). repeat split; nra.
Qed.

Lemma written_trace_bounds (n : Z) (la r margin : Q) (origin : Q * Q) :
  (1 <= n)%Z -> 0 < la -> 0 < r ->
  Forall (fun p =>
            margin - (1 # 200) <= fst p /\
            fst p <= margin + la + Py.float n * (2 * r + la) + (1 # 200) /\
            margin + r - (1 # 200) <= snd p /\
            snd p <= margin + Py.float n * la + r + (1 # 200))
         (trace origin
                (map format_cmd
                     ([MoveTo margin (margin + Py.float n * la + r - la);
                       VertTo (margin + Py.float n * la + r);
                       HorizTo (margin + la)]
                      ++ chain la r (margin + la)
                               (margin + Py.float n * la + r)
                               (Z.to_nat n)))).
Proof.
  intros Hn Hla Hr.
  change ([MoveTo margin (margin + Py.float n * la + r - la);
           VertTo (margin + Py.float n * la + r);
           HorizTo (margin + la)]
          ++ chain la r (margin + la) (margin + Py.float n * la + r)
                   (Z.to_nat n))
    with (MoveTo margin (margin + Py.float n * la + r - la)
          :: ([VertTo (margin + Py.float n * la + r);
               HorizTo (margin + la)]
              ++ chain la r (margin + la) (margin + Py.float n * la + r)
                       (Z.to_nat n))).
  rewrite trace_format_path. apply Forall_map.
  eapply Forall_impl; [|apply (full_trace_bounds n la r margin origin Hn Hla Hr)].
  intros [px py]. cbn [fst snd format_point].
  intros (H1 & H2 & H3 & H4).
  pose proof (format_2_near px) as Hx.
  pose proof (format_2_near py) as Hy.
  unfold near in *. repeat split; lra.
Qed.

(** The size of the drawing: the path has three commands and three more
    for each repetition; the canvas is wide enough for the first horizontal
    stroke and [n] times a circle diameter and a stroke, and high enough
    for [n + 1] strokes and one radius, with the margin on both sides.  Both
    sizes are written as the nearest whole number, a tie going to the even
    one, so that they are at most one half away from these amounts. *)
Theorem chain_size (n : Z) (la r : Q) (stroke : string)
        (stroke_width margin : Q) (background linecap linejoin : string)
        (mirror : bool) (s : svg) :
  arc_line_chain_with_X_svg n la r stroke stroke_width margin background
                            linecap linejoin mirror = Ok s ->
  List.length (svg_d s) = (3 + 3 * Z.to_nat n)%nat /\
  svg_width s
  == inject_Z (round_half_even
                 (2 * margin + la + Py.float n * (2 * r + la))) /\
  svg_height s
  == inject_Z (round_half_even
                 (2 * margin + (Py.float n + 1) * la + r)) /\
  near (1 # 2) (svg_width s)
       (2 * margin + la + Py.float n * (2 * r + la)) /\
  near (1 # 2) (svg_height s) (2 * margin + (Py.float n + 1) * la + r).
Proof.
  intro H. apply chain_path in H.
  destruct H as (Hn & Hla & Hr & Hd & Hw & Hh & _).
  split; [|split; [|split; [|split]]].
  - rewrite Hd, length_map, length_app, chain_length. reflexivity.
  - rewrite Hw. apply format_0.
  - rewrite Hh. apply format_0.
  - pose proof (format_0_near
                  (2 * margin + la + Py.float n * (2 * r + la))) as Hnear.
    unfold near in *. rewrite Hw. exact Hnear.
  - pose proof (format_0_near
                  (2 * margin + (Py.float n + 1) * la + r)) as Hnear.
    unfold near in *. rewrite Hh. exact Hnear.
Qed.

Lemma chain_size_witness :
  exists s,
    arc_line_chain_with_X_svg 1 (1 # 8) (1 # 4) "black" (5 # 2) 16 "white"
                              "round" "round" false = Ok s /\
    (svg_width s == 33 /\ svg_height s == 32) /\
    List.length (svg_d s) = (3 + 3 * Z.to_nat 1)%nat /\
    svg_width s
    == inject_Z (round_half_even
                   (2 * 16 + (1 # 8) + Py.float 1 * (2 * (1 # 4) + (1 # 8)))) /\
    svg_height s
    == inject_Z (round_half_even
                   (2 * 16 + (Py.float 1 + 1) * (1 # 8) + (1 # 4))) /\
    near (1 # 2) (svg_width s)
         (2 * 16 + (1 # 8) + Py.float 1 * (2 * (1 # 4) + (1 # 8))) /\
    near (1 # 2) (svg_height s)
         (2 * 16 + (Py.float 1 + 1) * (1 # 8) + (1 # 4)).
Proof.
  eexists. split; [vm_compute; reflexivity|].
  split; [split; vm_compute; reflexivity|].
  apply (chain_size 1 (1 # 8) (1 # 4) "black" (5 # 2) 16 "white"
           "round" "round" false).
  vm_compute. reflexivity.
Defined.

(** Every command of the drawing is a stroke of the pattern, up to the two
    decimals that are written: after the first point, vertical and
    horizontal strokes whose length is within a hundredth of [la], and half
    circles whose radius is within a hundredth of [r], over a horizontal
    chord within a hundredth of [2 * r].  When [margin], [la] and [r] have
    at most two decimals, the lengths are [la], [r] and [2 * r]. *)
Theorem chain_strokes_of_pattern (n : Z) (la r : Q) (stroke : string)
        (stroke_width margin : Q) (background linecap linejoin : string)
        (mirror : bool) (s : svg) (origin : Q * Q) :
  arc_line_chain_with_X_svg n la r stroke stroke_width margin background
                            linecap linejoin mirror = Ok s ->
  all_strokes (1 # 100) la r origin (svg_d s) /\
  (hundredths margin -> hundredths la -> hundredths r ->
   all_strokes 0 la r origin (svg_d s)).
Proof.
  intro H. apply chain_path in H.
  destruct H as (Hn & Hla & Hr & Hd & _).
  rewrite Hd. cbn [app map format_cmd all_strokes is_stroke move fst snd].
  split.
  - pose proof (format_2_near margin) as Hm.
    pose proof (format_2_near (margin + Py.float n * la + r)) as Hy.
    pose proof (format_2_near (margin + Py.float n * la + r - la)) as Hy1.
    pose proof (format_2_near (margin + la)) as Hx.
    unfold near in *.
    split; [exact I|]. split; [left; lra|]. split; [lra|].
    apply chain_strokes.
  - intros Em Ela Er.
    assert (hundredths (margin + Py.float n * la + r)) as Ey
        by (apply hundredths_add; [apply hundredths_add|];
            [exact Em | exact (hundredths_mul_int n la Ela) | exact Er]).
    assert (hundredths (margin + Py.float n * la + r - la)) as Ey1
        by (apply hundredths_sub; assumption).
    assert (hundredths (margin + la)) as Ex
        by (apply hundredths_add; assumption).
    pose proof (hundredths_format _ Em) as Fm.
    pose proof (hundredths_format _ Ey) as Fy.
    pose proof (hundredths_format _ Ey1) as Fy1.
    pose proof (hundredths_format _ Ex) as Fx.
    unfold near.
    split; [exact I|]. split; [left; lra|]. split; [lra|].
    apply chain_strokes_exact; assumption.
Qed.

Lemma chain_strokes_of_pattern_witness :
  (exists s,
      arc_line_chain_with_X_svg 1 (1 # 8) (1 # 4) "black" (5 # 2) 16 "white"
                                "round" "round" false = Ok s /\
      svg_d s = [MoveTo (1600 # 100) (1625 # 100); VertTo (1638 # 100);
                 HorizTo (1612 # 100);
                 ArcTo (25 # 100) (25 # 100) 0 false true
                       (1662 # 100) (1638 # 100);
                 HorizTo (1675 # 100); VertTo (1625 # 100)] /\
      all_strokes (1 # 100) (1 # 8) (1 # 4) (0, 0) (svg_d s)) /\
  (exists s,
      arc_line_chain_with_X_svg 3 60 30 "black" (5 # 2) 16 "white"
                                "round" "round" false = Ok s /\
      all_strokes 0 60 30 (0, 0) (svg_d s)).
Proof.
  split.
  - eexists. split; [vm_compute; reflexivity|].
    split; [vm_compute; reflexivity|].
    refine (proj1 (chain_strokes_of_pattern 1 (1 # 8) (1 # 4) "black" (5 # 2)
                     16 "white" "round" "round" false _ (0, 0) _)).
    vm_compute. reflexivity.
  - eexists. split; [vm_compute; reflexivity|].
    refine (proj2 (chain_strokes_of_pattern 3 60 30 "black" (5 # 2)
                     16 "white" "round" "round" false _ (0, 0) _) _ _ _).
    + vm_compute. reflexivity.
    + exists 1600%Z. vm_compute. reflexivity.
    + exists 6000%Z. vm_compute. reflexivity.
    + exists 3000%Z. vm_compute. reflexivity.
Defined.

(** The drawing keeps the margin on every side, up to the roundings of the
    coordinates (half a hundredth) and of the canvas (one half): the pen
    stays between [margin] and [width - margin] horizontally and between
    [margin + r] and [height - margin - la] vertically, the crown of every
    half circle stays [la] below the top margin, and the path ends in the
    corner that is written for [(margin + la + n * (2 * r + la),
    margin + r)].  With a margin of [101 / 200] or more the whole path is
    on the canvas. *)
Theorem chain_within_margins (n : Z) (la r : Q) (stroke : string)
        (stroke_width margin : Q) (background linecap linejoin : string)
        (mirror : bool) (s : svg) (origin : Q * Q) :
  arc_line_chain_with_X_svg n la r stroke stroke_width margin background
                            linecap linejoin mirror = Ok s ->
  Forall (fun p => margin - (1 # 200) <= fst p /\
                   fst p <= svg_width s - margin + (101 # 200) /\
                   margin + r - (1 # 200) <= snd p /\
                   snd p <= svg_height s - margin - la + (101 # 200))
         (trace origin (svg_d s)) /\
  arcs_below (margin + la - (1 # 100)) (svg_d s) /\
  fst (pen origin (svg_d s))
  == format_f 2 (margin + la + Py.float n * (2 * r + la)) /\
  snd (pen origin (svg_d s)) == format_f 2 (margin + r) /\
  ((101 # 200) <= margin -> Forall (on_canvas s) (trace origin (svg_d s))).
Proof.
  intro H. apply chain_path in H.
  destruct H as (Hn & Hla & Hr & Hd & Hw & Hh & _).
  assert (1 <= Py.float n) as Hn1.
  { change 1 with (Py.float 1). apply float_le. exact Hn. }
  pose proof (format_0_near
                (2 * margin + la + Py.float n * (2 * r + la))) as Hwn.
  pose proof (format_0_near
                (2 * margin + (Py.float n + 1) * la + r)) as Hhn.
  unfold near in Hwn, Hhn. rewrite <- Hw in Hwn. rewrite <- Hh in Hhn.
  pose proof (written_trace_bounds n la r margin origin Hn Hla Hr) as Htr.
  rewrite <- Hd in Htr.
  split; [|split; [|split; [|split]]].
  - eapply Forall_impl; [|exact Htr].
    intros [px py]. cbn [fst snd]. intros (H1 & H2 & H3 & H4).
    repeat split; lra.
  - rewrite Hd. unfold arcs_below. cbn [app map format_cmd].
    constructor; [exact I|]. constructor; [exact I|].
    constructor; [exact I|].
    apply chain_arcs_below; [exact Hla|].
    rewrite Z2Nat.id by lia. lra.
  - rewrite Hd.
    change ([MoveTo margin (margin + Py.float n * la + r - la);
             VertTo (margin + Py.float n * la + r);
             HorizTo (margin + la)]
            ++ chain la r (margin + la) (margin + Py.float n * la + r)
                     (Z.to_nat n))
      with (MoveTo margin (margin + Py.float n * la + r - la)
            :: ([VertTo (margin + Py.float n * la + r);
                 HorizTo (margin + la)]
                ++ chain la r (margin + la) (margin + Py.float n * la + r)
                         (Z.to_nat n))).
    rewrite pen_format_path. cbn [format_point fst].
    erewrite format_f_comp; [reflexivity|].
    unfold pen. cbn [app fold_left move fst snd].
    destruct (chain_pen la r (margin + la) (margin + Py.float n * la + r)
                (Z.to_nat n)) as [H1 _].
    unfold pen in H1. rewrite H1, Z2Nat.id by lia. ring.
  - rewrite Hd.
    change ([MoveTo margin (margin + Py.float n * la + r - la);
             VertTo (margin + Py.float n * la + r);
             HorizTo (margin + la)]
            ++ chain la r (margin + la) (margin + Py.float n * la + r)
                     (Z.to_nat n))
      with (MoveTo margin (margin + Py.float n * la + r - la)
            :: ([VertTo (margin + Py.float n * la + r);
                 HorizTo (margin + la)]
                ++ chain la r (margin + la) (margin + Py.float n * la + r)
                         (Z.to_nat n))).
    rewrite pen_format_path. cbn [format_point snd].
    erewrite format_f_comp; [reflexivity|].
    unfold pen. cbn [app fold_left move fst snd].
    destruct (chain_pen la r (margin + la) (margin + Py.float n * la + r)
                (Z.to_nat n)) as [_ H2].
    unfold pen in H2. rewrite H2, Z2Nat.id by lia. ring.
  - intro Hm. eapply Forall_impl; [|exact Htr].
    intros [px py]. unfold on_canvas. cbn [fst snd].
    intros (H1 & H2 & H3 & H4). repeat split; nra.
Qed.

Lemma chain_within_margins_witness :
  exists s,
    arc_line_chain_with_X_svg 1 (1 # 8) (1 # 4) "black" (5 # 2) 16 "white"
                              "round" "round" false = Ok s /\
    Forall (fun p => 16 - (1 # 200) <= fst p /\
                     fst p <= svg_width s - 16 + (101 # 200) /\
                     16 + (1 # 4) - (1 # 200) <= snd p /\
                     snd p <= svg_height s - 16 - (1 # 8) + (101 # 200))
           (trace (0, 0) (svg_d s)) /\
    arcs_below (16 + (1 # 8) - (1 # 100)) (svg_d s) /\
    fst (pen (0, 0) (svg_d s))
    == format_f 2 (16 + (1 # 8) + Py.float 1 * (2 * (1 # 4) + (1 # 8))) /\
    snd (pen (0, 0) (svg_d s)) == format_f 2 (16 + (1 # 4)) /\
    Forall (on_canvas s) (trace (0, 0) (svg_d s)).
Proof.
  eexists. split; [vm_compute; reflexivity|].
  refine (match chain_within_margins 1 (1 # 8) (1 # 4) "black" (5 # 2) 16
                  "white" "round" "round" false _ (0, 0) _ with
          | conj H1 (conj H2 (conj H3 (conj H4 H5))) =>
              conj H1 (conj H2 (conj H3 (conj H4 (H5 _))))
          end).
  - vm_compute. reflexivity.
  - vm_compute. discriminate.
Defined.

(** Mirroring changes nothing but the transform: the mirrored drawing has
    the same path and the same written size, and is translated by its
    width in full, [2 * margin + la + n * (2 * r + la)], from which the
    written width is at most one half away. *)
Theorem chain_mirror (n : Z) (la r : Q) (stroke : string)
        (stroke_width margin : Q) (background linecap linejoin : string)
        (s : svg) :
  arc_line_chain_with_X_svg n la r stroke stroke_width margin background
                            linecap linejoin false = Ok s ->
  svg_transform s = None /\
  exists w,
    w == 2 * margin + la + Py.float n * (2 * r + la) /\
    near (1 # 2) (svg_width s) w /\
    arc_line_chain_with_X_svg n la r stroke stroke_width margin background
                              linecap linejoin true
    = Ok (mkSvg (svg_width s) (svg_height s) (svg_background s) (svg_d s)
                (Some w) (svg_stroke s) (svg_stroke_width s)
                (svg_linecap s) (svg_linejoin s)).
Proof.
  intro H.
  pose proof (chain_ok_inv _ _ _ _ _ _ _ _ _ _ _ H) as (Hn & Hla & Hr & Hs).
  pose proof (chain_path _ _ _ _ _ _ _ _ _ _ _ H)
    as (_ & _ & _ & _ & Hw & _ & _).
  assert (exists s',
             arc_line_chain_with_X_svg n la r stroke stroke_width margin
                                       background linecap linejoin true
             = Ok s') as [s' H'].
  { unfold arc_line_chain_with_X_svg.
    apply Z.leb_le in Hn. apply ltb_lt in Hla, Hr.
    rewrite Hn, Hla, Hr. cbn [negb andb]. eexists. reflexivity. }
  pose proof (chain_ok_inv _ _ _ _ _ _ _ _ _ _ _ H') as (_ & _ & _ & Hs').
  pose proof (chain_path _ _ _ _ _ _ _ _ _ _ _ H')
    as (_ & _ & _ & _ & _ & _ & Ht).
  cbv zeta in Hs, Hs'.
  split; [rewrite Hs; reflexivity|].
  destruct (svg_transform s') as [w|] eqn:Et;
    [|rewrite Hs' in Et; discriminate].
  exists w. split; [exact (Ht w eq_refl)|]. split.
  - pose proof (format_0_near
                  (2 * margin + la + Py.float n * (2 * r + la))) as Hnear.
    unfold near in *. rewrite Hw, (Ht w eq_refl). exact Hnear.
  - rewrite H'. f_equal.
    rewrite Hs' in Et. cbn [svg_transform] in Et. injection Et as <-.
    rewrite Hs', Hs. reflexivity.
Qed.

Lemma chain_mirror_witness :
  exists s,
    arc_line_chain_with_X_svg 1 (1 # 8) (1 # 4) "black" (5 # 2) 16 "white"
                              "round" "round" false = Ok s /\
    svg_transform s = None /\
    exists w,
      w == 2 * 16 + (1 # 8) + Py.float 1 * (2 * (1 # 4) + (1 # 8)) /\
      near (1 # 2) (svg_width s) w /\
      arc_line_chain_with_X_svg 1 (1 # 8) (1 # 4) "black" (5 # 2) 16
                                "white" "round" "round" true
      = Ok (mkSvg (svg_width s) (svg_height s) (svg_background s) (svg_d s)
                  (Some w) (svg_stroke s) (svg_stroke_width s)
                  (svg_linecap s) (svg_linejoin s)).
Proof.
  eexists. split; [vm_compute; reflexivity|].
  apply (chain_mirror 1 (1 # 8) (1 # 4) "black" (5 # 2) 16 "white"
           "round" "round").
  vm_compute. reflexivity.
Defined.
End SlopedArcsFacts.

(** * The first generator *)

Lemma append_each_map {A} (f : A -> GenWindow1.svg_line) (xs : list A)
      (svg : list GenWindow1.svg_line) :
  GenWindow1.append_each f xs svg = svg ++ map f xs.
Proof.
  unfold GenWindow1.append_each. revert svg.
  induction xs as [|x xs IH]; intro svg; simpl.
  - now rewrite app_nil_r.
  - rewrite IH, <- app_assoc. reflexivity.
Qed.

Lemma bar_lines_app (l1 l2 : list GenWindow1.svg_line) :
  GenWindow1.bar_lines (l1 ++ l2)
  = GenWindow1.bar_lines l1 ++ GenWindow1.bar_lines l2.
Proof. apply flat_map_app. Qed.

Lemma bar_lines_map {A} (f : A -> line) (xs : list A) :
  (forall x, is_bar (f x) = true) ->
  GenWindow1.bar_lines (map (fun x => GenWindow1.Common (f x)) xs) = map f xs.
Proof.
  intro H. induction xs as [|x xs IH]; simpl; [reflexivity|].
  now rewrite H, IH.
Qed.

Lemma filter_bars_map {A} (f : A -> line) (xs : list A) :
  (forall x, is_bar (f x) = true) ->
  filter is_bar (map f xs) = map f xs.
Proof.
  intro H. induction xs as [|x xs IH]; simpl; [reflexivity|].
  now rewrite H, IH.
Qed.

Lemma check_first_violation (spec : GenWindow2.WindowSpec) :
  GenWindow1.check spec
  = option_map ValueError (first_violation (upgrade_spec spec)).
Proof.
  unfold GenWindow1.check, first_violation, upgrade_spec,
    GenWindow2.resolve_center_width, resolve_center_width.
  cbn [width_mm height_mm frame_width_mm num_vertical_bars
       num_horizontal_bars sash_bar_width_mm arch_height_mm
       center_vertical_bar_width_mm horizontal_distribution_mode].
  repeat match goal with
         | |- context [if ?c then _ else _] => destruct c; try reflexivity
         end.
Qed.

Lemma even_document_bars (spec : WindowSpec) :
  chord_branch spec = false ->
  filter is_bar (document spec)
  = map (vbar_line spec) (Py.range (num_vertical_bars spec))
    ++ map (even_line spec) (Py.range (num_horizontal_bars spec)).
Proof.
  intro Hc. unfold document, horizontal_lines. rewrite Hc.
  rewrite !filter_app.
  assert (filter is_bar (layer_lines spec) = []) as ->.
  { unfold layer_lines. destruct (Py.ltb 0 _); reflexivity. }
  rewrite !filter_bars_map by reflexivity.
  cbn [filter is_bar app]. now rewrite app_nil_r.
Qed.

Lemma first_document_bars (spec : GenWindow2.WindowSpec) :
  GenWindow1.bar_lines (first_document spec)
  = map (vbar_line (upgrade_spec spec))
        (Py.range (num_vertical_bars (upgrade_spec spec)))
    ++ map (even_line (upgrade_spec spec))
           (Py.range (num_horizontal_bars (upgrade_spec spec))).
Proof.
  unfold first_document. cbv zeta. rewrite !bar_lines_app.
  rewrite (bar_lines_map (vbar_line (upgrade_spec spec))) by reflexivity.
  rewrite (bar_lines_map (even_line (upgrade_spec spec))) by reflexivity.
  destruct (Py.ltb 0 _); cbn; now rewrite app_nil_r.
Qed.

Lemma first_generator_run (spec : GenWindow2.WindowSpec) :
  GenWindow1.generate_window_svg spec
  = match first_violation (upgrade_spec spec) with
    | Some msg => inl (ValueError msg)
    | None => inr (first_document spec)
    end.
Proof.
  pose proof (check_first_violation spec) as Hck.
  unfold GenWindow1.generate_window_svg.
  destruct (first_violation (upgrade_spec spec)) as [msg|] eqn:E;
    rewrite Hck; cbn [option_map]; [reflexivity|].
  assert (valid (upgrade_spec spec)) as Hv
      by (apply first_violation_none, E).
  pose proof (valid_inner_w _ Hv) as Hw. apply ltb_lt in Hw.
  pose proof (valid_inner_h _ Hv) as Hh. apply ltb_lt in Hh.
  pose proof Hv as (_ & _ & _ & _ & _ & _ & HNV & HNH & _).
  assert (forall (f : Z -> GenWindow1.svg_line) n svg,
             (0 <= n)%Z ->
             (if (0 <? n)%Z
              then GenWindow1.append_each f (Py.range n) svg
              else svg)
             = svg ++ map f (Py.range n)) as Hloop.
  { intros f n svg Hn. rewrite append_each_map.
    destruct (Z.ltb_spec 0 n) as [H|H]; [reflexivity|].
    rewrite range_nonpos by exact H. now rewrite app_nil_r. }
  change (GenWindow2.width_mm spec - 2 * GenWindow2.frame_width_mm spec)
    with (inner_w (upgrade_spec spec)).
  change (GenWindow2.height_mm spec - 2 * GenWindow2.frame_width_mm spec)
    with (inner_h (upgrade_spec spec)).
  rewrite Hw, Hh, !andb_true_r.
  change (GenWindow2.num_vertical_bars spec)
    with (num_vertical_bars (upgrade_spec spec)).
  change (GenWindow2.num_horizontal_bars spec)
    with (num_horizontal_bars (upgrade_spec spec)).
  cbv zeta. unfold first_document. cbv zeta.
  change (arch_height_mm (upgrade_spec spec))
    with (GenWindow2.arch_height_mm spec).
  destruct (Py.ltb 0 (GenWindow2.arch_height_mm spec));
    rewrite !Hloop by assumption; rewrite <- !app_assoc; reflexivity.
Qed.

(** gen_window.py accepts the specs of the later generators and refuses the
    others with the same error; its document has the same clip line and the
    same bar rectangles in the same order as the one of gen_window2.py.  It
    paints the frame first, as the outer shape, and the glass on top. *)
Theorem first_generator_same_bars (spec : GenWindow2.WindowSpec) :
  (forall e,
     GenWindow1.generate_window_svg spec = inl e
     <-> GenWindow2.generate_window_svg spec = Raised e []) /\
  (forall doc1,
     GenWindow1.generate_window_svg spec = inr doc1 ->
     exists doc2 frame glass,
       GenWindow2.generate_window_svg spec = Returned doc2 doc2 /\
       GenWindow1.bar_lines doc1 = filter is_bar doc2 /\
       nth_error doc1 4 = option_map GenWindow1.Common (nth_error doc2 4) /\
       nth_error doc1 7 = Some frame /\
       nth_error doc1 8 = Some (GenWindow1.Common glass) /\
       nth_error doc2 7 = Some glass /\
       (frame = GenWindow1.OuterRect (GenWindow2.width_mm spec)
                                     (GenWindow2.height_mm spec)
                                     (GenWindow2.frame_color spec) \/
        frame = GenWindow1.Common
                  (GlassPath (Some (GenWindow1._path_arch
                                      (GenWindow2.width_mm spec)
                                      (GenWindow2.height_mm spec)
                                      (GenWindow2.arch_height_mm spec)))
                             (GenWindow2.frame_color spec)))).
Proof.
  rewrite <- (upgrade_generate spec), first_generator_run.
  destruct (first_violation (upgrade_spec spec)) as [msg|] eqn:E.
  - rewrite generate_run, E. split.
    + intro e. split; intro H; injection H as <-; reflexivity.
    + intros doc1 H. discriminate H.
  - assert (valid (upgrade_spec spec)) as Hv
        by (apply first_violation_none, E).
    assert (chord_fit (upgrade_spec spec)) as Hfit.
    { intros Hm _ _. cbv in Hm. discriminate Hm. }
    rewrite (returns_intro _ Hv Hfit). split.
    + intro e. split; intro H; discriminate H.
    + intros doc1 H. injection H as <-.
      exists (document (upgrade_spec spec)).
      assert (chord_branch (upgrade_spec spec) = false) as Hc
          by reflexivity.
      rewrite first_document_bars, (even_document_bars _ Hc).
      unfold first_document, document, layer_lines. cbv zeta.
      destruct (Py.ltb 0 (arch_height_mm (upgrade_spec spec))).
      * eexists. eexists. split; [reflexivity|]. split; [reflexivity|].
        split; [reflexivity|]. split; [reflexivity|].
        split; [reflexivity|]. split; [reflexivity|].
        right. reflexivity.
      * eexists. eexists. split; [reflexivity|]. split; [reflexivity|].
        split; [reflexivity|]. split; [reflexivity|].
        split; [reflexivity|]. split; [reflexivity|].
        left. reflexivity.
Qed.
